(** * PlanVault: storage layer and authentication middleware

    A shallow embedding of [server/storage.ts], [shared/schema.ts] and the
    [authenticateUser] middleware of [server/routes.ts].

    Conventions of the embedding.
    - A JavaScript [Date] is represented by its time value ([getTime()],
      milliseconds since the epoch) as a [Z].  Every date that reaches the
      store went through [z.coerce.date()], which rejects invalid dates, so
      the time value of a stored date is never NaN; the bounds of
      [getEvents] are not validated, and are of type [AnyDate] where the
      code compares them itself ([MemStorage]).
    - A JavaScript string is represented by its UTF-8 bytes as a [string];
      equality and search read the bytes, [length] counts UTF-16 code units
      ([JsString.length]).
    - [randomUUID()] and [new Date()] are inputs of the operation that calls
      them: the operation takes the generated id and the clock reading as
      explicit arguments.
    - A JavaScript [Map] is an association list in insertion order
      (module [JsMap]); mutation of [this.*] is explicit state passing.
    - [T | null] is [Nullable T], an optional property [p?: T] is
      [Optional T]; both are [option], the alias says which absence is
      meant. *)

From Stdlib Require Import List String Ascii NArith ZArith Bool Lia.
From Stdlib.Strings Require Import Byte.
From Stdlib Require Import Permutation Sorted.
Import ListNotations.
Local Open Scope string_scope.
Local Open Scope Z_scope.

(** ** JavaScript values *)

Definition Date := Z.
Definition Nullable (A : Type) := option A.
Definition Optional (A : Type) := option A.

(** A [Date] built from a query string ([new Date(start as string)]) is not
    validated: it may be an invalid date, whose time value is NaN. *)
Inductive AnyDate :=
| ValidDate (t : Date)
| InvalidDate.

(** [a >= b] and [a <= b] on dates compare the time values; a comparison
    with NaN is false. *)
Definition date_ge (a : Date) (b : AnyDate) : bool :=
  match b with
  | ValidDate t => a >=? t
  | InvalidDate => false
  end.

Definition date_le (a : Date) (b : AnyDate) : bool :=
  match b with
  | ValidDate t => a <=? t
  | InvalidDate => false
  end.

(** ** [Map<string, V>] in insertion order *)

Module JsMap.
Section WithValue.
Context {V : Type}.

Definition t := list (string * V).

Definition empty : t := [].

(** [m.get(k)] *)
Fixpoint get (k : string) (m : t) : option V :=
  match m with
  | [] => None
  | (k', v) :: m' => if String.eqb k k' then Some v else get k m'
  end.

(** [m.has(k)] *)
Definition has (k : string) (m : t) : bool :=
  match get k m with Some _ => true | None => false end.

(** [m.set(k, v)]: an existing key keeps its position, a new key goes last. *)
Fixpoint set (k : string) (v : V) (m : t) : t :=
  match m with
  | [] => [(k, v)]
  | (k', v') :: m' =>
      if String.eqb k k' then (k', v) :: m' else (k', v') :: set k v m'
  end.

(** The entries left by [m.delete(k)]. *)
Fixpoint remove (k : string) (m : t) : t :=
  match m with
  | [] => []
  | (k', v') :: m' =>
      if String.eqb k k' then remove k m' else (k', v') :: remove k m'
  end.

(** [m.delete(k)]: whether the key was present, and the map afterwards. *)
Definition delete (k : string) (m : t) : bool * t := (has k m, remove k m).

(** [m.keys()], [m.values()], [m.entries()] as arrays. *)
Definition keys (m : t) : list string := map fst m.
Definition values (m : t) : list V := map snd m.
Definition entries (m : t) : list (string * V) := m.

(** Representation invariant: a [Map] holds each key once. *)
Definition wf (m : t) : Prop := NoDup (keys m).

End WithValue.
Arguments t : clear implicits.
End JsMap.

(** ** [Array.prototype.sort] with a comparator

    The engine's sort is stable (ECMAScript 2019); a stable sort has one
    possible result for a consistent comparator, which this insertion sort
    computes. *)

Module JsArray.
Section WithCompare.
Context {A : Type} (compareFn : A -> A -> Z).

Fixpoint insert (x : A) (l : list A) : list A :=
  match l with
  | [] => [x]
  | y :: l' => if compareFn x y <=? 0 then x :: y :: l' else y :: insert x l'
  end.

Definition sort (l : list A) : list A := fold_right insert [] l.

End WithCompare.
End JsArray.

(** ** [String.prototype.replace] with a string pattern

    Only the first occurrence of the pattern is replaced. *)

Module JsString.

Fixpoint drop (n : nat) (s : string) : string :=
  match n, s with
  | O, _ => s
  | S n', String _ s' => drop n' s'
  | S _, EmptyString => EmptyString
  end.

Fixpoint replace (pattern replacement s : string) : string :=
  if String.prefix pattern s
  then replacement ++ drop (String.length pattern) s
  else match s with
       | EmptyString => EmptyString
       | String c s' => String c (replace pattern replacement s')
       end.

(** [s] has an occurrence of [pattern] starting at index [i]. *)
Definition occurs_at (pattern : string) (i : nat) (s : string) : Prop :=
  exists pre post, s = pre ++ pattern ++ post /\ String.length pre = i.

Definition occurs (pattern s : string) : Prop :=
  exists i, occurs_at pattern i s.

(** A string is truthy unless it is empty. *)
Definition truthy (s : string) : bool := negb (String.eqb s "").

(** Characters of [Buffer.toString('hex')]. *)
Definition is_hex_digit (c : ascii) : bool :=
  let n := nat_of_ascii c in
  ((48 <=? n) && (n <=? 57))%nat || ((97 <=? n) && (n <=? 102))%nat.

Fixpoint is_hex (s : string) : bool :=
  match s with
  | EmptyString => true
  | String c s' => is_hex_digit c && is_hex s'
  end.

(** [buffer.toString('hex')]: two lowercase hexadecimal digits per byte. *)
Definition hex_digit (d : N) : ascii :=
  ascii_of_N (if (d <? 10)%N then 48 + d else 87 + d)%N.

Definition hex_of_byte (b : byte) : string :=
  let n := Byte.to_N b in
  String (hex_digit (n / 16)%N) (String (hex_digit (n mod 16)%N) EmptyString).

Fixpoint toString_hex (buffer : list byte) : string :=
  match buffer with
  | [] => EmptyString
  | b :: buffer' => hex_of_byte b ++ toString_hex buffer'
  end.

(** [String.prototype.length]

    A [string] holds the UTF-8 bytes of a JavaScript string, as a request
    carries it.  The length of the JavaScript string is the number of its
    UTF-16 code units: one for a code point up to U+FFFF, two for one
    beyond, and one (U+FFFD) for each run of bytes that encodes nothing.
    A string with an unpaired surrogate has no such bytes and is outside
    the model. *)

(** What the decoder expects next: [needed] more bytes of the sequence it is
    in, the first of them between [lower] and [upper]; [astral] when the
    sequence has four bytes. *)
Record Utf8 := utf8 {
  needed : nat;
  astral : bool;
  lower : nat;
  upper : nat
}.

Definition utf8_start : Utf8 := utf8 0 false 128 191.

(** A byte read outside a sequence: the code units it completes, and what
    is expected after it. *)
Definition utf8_lead (b : nat) : nat * Utf8 :=
  (if b <? 128 then (1, utf8_start)
   else if (194 <=? b) && (b <=? 223) then (0, utf8 1 false 128 191)
   else if (224 <=? b) && (b <=? 239)
   then (0, utf8 2 false (if b =? 224 then 160 else 128)
                         (if b =? 237 then 159 else 191))
   else if (240 <=? b) && (b <=? 244)
   then (0, utf8 3 true (if b =? 240 then 144 else 128)
                        (if b =? 244 then 143 else 191))
   else (1, utf8_start))%nat.

Fixpoint utf16_units (st : Utf8) (s : string) : nat :=
  match s with
  | EmptyString => match needed st with O => 0 | S _ => 1 end
  | String c s' =>
      let b := nat_of_ascii c in
      match needed st with
      | O => let (n, st') := utf8_lead b in (n + utf16_units st' s')%nat
      | S k =>
          if ((lower st <=? b) && (b <=? upper st))%nat
          then match k with
               | O => ((if astral st then 2 else 1)
                       + utf16_units utf8_start s')%nat
               | S _ => utf16_units (utf8 k (astral st) 128 191) s'
               end
          else let (n, st') := utf8_lead b in
               (1 + n + utf16_units st' s')%nat
      end
  end.

Definition length (s : string) : nat := utf16_units utf8_start s.

End JsString.

(** ** Rows of [shared/schema.ts] *)

Module User.
Record t := mk {
  id : string;
  username : string;
  password : string;
  recoveryKey : string;
  encryptionKey : string;
  createdAt : Date
}.
End User.

Module InsertUser.
Record t := mk {
  username : string;
  password : string;
  recoveryKey : string;
  encryptionKey : string
}.
End InsertUser.

Module UserSession.
Record t := mk {
  id : string;
  userId : string;
  sessionToken : string;
  expiresAt : Date;
  createdAt : Date
}.
End UserSession.

Module InsertSession.
Record t := mk {
  userId : string;
  sessionToken : string;
  expiresAt : Date
}.
End InsertSession.

Module Event.
Record t := mk {
  id : string;
  userId : string;
  title : string;
  description : Nullable string;
  startDate : Date;
  endDate : Nullable Date;
  category : string;
  isRecurring : Nullable bool;
  recurringPattern : Nullable string;
  recurringEndDate : Nullable Date;
  encryptedData : Nullable string;
  createdAt : Date;
  updatedAt : Date
}.
End Event.

(** [z.infer<typeof insertEventSchema>]: [title], [startDate], [endDate] and
    [recurringEndDate] are required keys, the other keys are optional. *)
Module InsertEvent.
Record t := mk {
  title : string;
  description : Optional (Nullable string);
  startDate : Date;
  endDate : Nullable Date;
  category : Optional string;
  isRecurring : Optional (Nullable bool);
  recurringPattern : Optional (Nullable string);
  recurringEndDate : Nullable Date;
  encryptedData : Optional (Nullable string)
}.
End InsertEvent.

(** [Partial<InsertEvent>]: every key may be absent; a present key carries a
    value of the column's type. *)
Module PartialInsertEvent.
Record t := mk {
  title : Optional string;
  description : Optional (Nullable string);
  startDate : Optional Date;
  endDate : Optional (Nullable Date);
  category : Optional string;
  isRecurring : Optional (Nullable bool);
  recurringPattern : Optional (Nullable string);
  recurringEndDate : Optional (Nullable Date);
  encryptedData : Optional (Nullable string)
}.
Definition none : t := mk None None None None None None None None None.
End PartialInsertEvent.

Module Reminder.
Record t := mk {
  id : string;
  eventId : string;
  minutesBefore : Z;
  isTriggered : Nullable bool;
  createdAt : Date
}.
End Reminder.

Module InsertReminder.
Record t := mk {
  eventId : string;
  minutesBefore : Z
}.
End InsertReminder.

Module CategoryCount.
Record t := mk {
  category : string;
  count : Z
}.
End CategoryCount.

(** ** The [||] operator at the types it is used at in [createEvent] *)

Module Js.

(** [x || null] for [x : string | null | undefined]: the empty string is
    falsy. *)
Definition string_or_null (x : Optional (Nullable string)) : Nullable string :=
  match x with
  | Some (Some s) => if JsString.truthy s then Some s else None
  | _ => None
  end.

(** [x || null] for [x : Date | null]: a [Date] object is always truthy. *)
Definition date_or_null (x : Nullable Date) : Nullable Date :=
  match x with
  | Some d => Some d
  | None => None
  end.

(** [x || d] for [x : string | undefined]. *)
Definition string_or (x : Optional string) (d : string) : string :=
  match x with
  | Some s => if JsString.truthy s then s else d
  | None => d
  end.

(** [x || false] for [x : boolean | null | undefined]. *)
Definition bool_or_false (x : Optional (Nullable bool)) : Nullable bool :=
  match x with
  | Some (Some true) => Some true
  | _ => Some false
  end.

(** [x || 0] for [x : number | undefined]. *)
Definition number_or_zero (x : option Z) : Z :=
  match x with
  | Some n => if n =? 0 then 0 else n
  | None => 0
  end.

(** One property of an object spread [{ ...old, ...updates }]: a key present
    in [updates] wins. *)
Definition spread {A : Type} (old : A) (upd : Optional A) : A :=
  match upd with
  | Some v => v
  | None => old
  end.

End Js.

(** ** [class MemStorage] *)

Module MemStorage.

Record t := mk {
  users : JsMap.t User.t;
  events : JsMap.t Event.t;
  reminders : JsMap.t Reminder.t;
  sessions : JsMap.t UserSession.t
}.

Definition empty : t := mk JsMap.empty JsMap.empty JsMap.empty JsMap.empty.

Definition with_users (s : t) (m : JsMap.t User.t) : t :=
  mk m (events s) (reminders s) (sessions s).
Definition with_events (s : t) (m : JsMap.t Event.t) : t :=
  mk (users s) m (reminders s) (sessions s).
Definition with_reminders (s : t) (m : JsMap.t Reminder.t) : t :=
  mk (users s) (events s) m (sessions s).
Definition with_sessions (s : t) (m : JsMap.t UserSession.t) : t :=
  mk (users s) (events s) (reminders s) m.

Definition getUser (s : t) (id : string) : option User.t :=
  JsMap.get id (users s).

Definition getUserByUsername (s : t) (username : string) : option User.t :=
  find (fun user => String.eqb (User.username user) username)
       (JsMap.values (users s)).

Definition createUser (s : t) (uuid : string) (now : Date)
  (insertUser : InsertUser.t) : User.t * t :=
  let user :=
    User.mk uuid (InsertUser.username insertUser)
      (InsertUser.password insertUser) (InsertUser.recoveryKey insertUser)
      (InsertUser.encryptionKey insertUser) now in
  (user, with_users s (JsMap.set (User.id user) user (users s))).

Definition createSession (s : t) (uuid : string) (now : Date)
  (insertSession : InsertSession.t) : UserSession.t * t :=
  let session :=
    UserSession.mk uuid (InsertSession.userId insertSession)
      (InsertSession.sessionToken insertSession)
      (InsertSession.expiresAt insertSession) now in
  (session,
   with_sessions s
     (JsMap.set (UserSession.sessionToken session) session (sessions s))).

(** [now] is the value of [new Date()] in the comparison. *)
Definition getSession (s : t) (now : Date) (sessionToken : string)
  : option UserSession.t :=
  match JsMap.get sessionToken (sessions s) with
  | Some session =>
      if UserSession.expiresAt session >? now then Some session else None
  | None => None
  end.

Definition deleteSession (s : t) (sessionToken : string) : t :=
  with_sessions s (snd (JsMap.delete sessionToken (sessions s))).

Definition owned_by (userId : string) (e : Event.t) : bool :=
  String.eqb (Event.userId e) userId.

Definition in_range (startDate endDate : AnyDate) (e : Event.t) : bool :=
  date_ge (Event.startDate e) startDate && date_le (Event.startDate e) endDate.

(** [(a, b) => a.startDate.getTime() - b.startDate.getTime()]; the sort reads
    only the sign of the result, which is that of the exact difference. *)
Definition by_startDate (a b : Event.t) : Z :=
  Event.startDate a - Event.startDate b.

Definition getEvents (s : t) (userId : string)
  (startDate endDate : Optional AnyDate) : list Event.t :=
  let userEvents := filter (owned_by userId) (JsMap.values (events s)) in
  let userEvents :=
    match startDate, endDate with
    | Some startDate, Some endDate =>
        filter (in_range startDate endDate) userEvents
    | _, _ => userEvents
    end in
  JsArray.sort by_startDate userEvents.

Definition getEvent (s : t) (id userId : string) : option Event.t :=
  match JsMap.get id (events s) with
  | Some event =>
      if String.eqb (Event.userId event) userId then Some event else None
  | None => None
  end.

(** [insertEvent : InsertEvent & { userId: string }] is passed as its two
    parts; [createdAt] and [updatedAt] are the two clock readings. *)
Definition createEvent (s : t) (uuid : string) (createdAt updatedAt : Date)
  (userId : string) (insertEvent : InsertEvent.t) : Event.t * t :=
  let event :=
    Event.mk uuid userId
      (InsertEvent.title insertEvent)
      (Js.string_or_null (InsertEvent.description insertEvent))
      (InsertEvent.startDate insertEvent)
      (Js.date_or_null (InsertEvent.endDate insertEvent))
      (Js.string_or (InsertEvent.category insertEvent) "personal")
      (Js.bool_or_false (InsertEvent.isRecurring insertEvent))
      (Js.string_or_null (InsertEvent.recurringPattern insertEvent))
      (Js.date_or_null (InsertEvent.recurringEndDate insertEvent))
      (Js.string_or_null (InsertEvent.encryptedData insertEvent))
      createdAt updatedAt in
  (event, with_events s (JsMap.set (Event.id event) event (events s))).

(** [{ ...event, ...updates, updatedAt: new Date() }] *)
Definition updated (event : Event.t) (updates : PartialInsertEvent.t)
  (now : Date) : Event.t :=
  Event.mk (Event.id event) (Event.userId event)
    (Js.spread (Event.title event) (PartialInsertEvent.title updates))
    (Js.spread (Event.description event)
       (PartialInsertEvent.description updates))
    (Js.spread (Event.startDate event) (PartialInsertEvent.startDate updates))
    (Js.spread (Event.endDate event) (PartialInsertEvent.endDate updates))
    (Js.spread (Event.category event) (PartialInsertEvent.category updates))
    (Js.spread (Event.isRecurring event)
       (PartialInsertEvent.isRecurring updates))
    (Js.spread (Event.recurringPattern event)
       (PartialInsertEvent.recurringPattern updates))
    (Js.spread (Event.recurringEndDate event)
       (PartialInsertEvent.recurringEndDate updates))
    (Js.spread (Event.encryptedData event)
       (PartialInsertEvent.encryptedData updates))
    (Event.createdAt event) now.

Definition updateEvent (s : t) (id userId : string)
  (updates : PartialInsertEvent.t) (now : Date) : option Event.t * t :=
  match JsMap.get id (events s) with
  | Some event =>
      if negb (String.eqb (Event.userId event) userId) then (None, s)
      else
        let updatedEvent := updated event updates now in
        (Some updatedEvent,
         with_events s (JsMap.set id updatedEvent (events s)))
  | None => (None, s)
  end.

Definition deleteEvent (s : t) (id userId : string) : bool * t :=
  match JsMap.get id (events s) with
  | Some event =>
      if negb (String.eqb (Event.userId event) userId) then (false, s)
      else
        let (deleted, m) := JsMap.delete id (events s) in
        (deleted, with_events s m)
  | None => (false, s)
  end.

Definition getEventReminders (s : t) (eventId : string) : list Reminder.t :=
  filter (fun r => String.eqb (Reminder.eventId r) eventId)
         (JsMap.values (reminders s)).

Definition createReminder (s : t) (uuid : string) (now : Date)
  (insertReminder : InsertReminder.t) : Reminder.t * t :=
  let reminder :=
    Reminder.mk uuid (InsertReminder.eventId insertReminder)
      (InsertReminder.minutesBefore insertReminder) (Some false) now in
  (reminder,
   with_reminders s (JsMap.set (Reminder.id reminder) reminder (reminders s))).

Definition deleteReminder (s : t) (id : string) : bool * t :=
  let (deleted, m) := JsMap.delete id (reminders s) in
  (deleted, with_reminders s m).

(** One call of the [forEach] callback. *)
Definition count_event (counts : JsMap.t Z) (event : Event.t) : JsMap.t Z :=
  JsMap.set (Event.category event)
    (Js.number_or_zero (JsMap.get (Event.category event) counts) + 1) counts.

Definition getEventCountsByCategory (s : t) (userId : string)
  : list CategoryCount.t :=
  let userEvents := filter (owned_by userId) (JsMap.values (events s)) in
  let counts := fold_left count_event userEvents JsMap.empty in
  map (fun '(category, count) => CategoryCount.mk category count)
      (JsMap.entries counts).

End MemStorage.

(** ** [class DatabaseStorage]

    The statements drizzle sends to PostgreSQL, read relationally: a table
    is the list of its rows, [where] keeps the rows that satisfy the
    condition, [const [row] = ...] takes the first row of the result, and an
    [insert] that breaks a constraint of [shared/schema.ts] throws (here:
    [None]).  [references(..., { onDelete: "cascade" })] removes the
    referencing rows with the referenced one.

    PostgreSQL fixes neither the order of rows that are equal under an
    [order by] nor the order of the groups of a [group by]; the model fixes
    one, and no statement below reads it. *)

Module DatabaseStorage.

Record t := mk {
  users : list User.t;
  events : list Event.t;
  reminders : list Reminder.t;
  userSessions : list UserSession.t
}.

Definition empty : t := mk [] [] [] [].

(** [and(eq(sessionToken, token), gte(expiresAt, now))] *)
Definition live_session (sessionToken : string) (now : Date)
  (r : UserSession.t) : bool :=
  String.eqb (UserSession.sessionToken r) sessionToken
  && (UserSession.expiresAt r >=? now).

Definition getSession (db : t) (now : Date) (sessionToken : string)
  : option UserSession.t :=
  hd_error (filter (live_session sessionToken now) (userSessions db)).

(** [id] is a primary key, [user_id] references [users.id] and
    [session_token] is unique. *)
Definition createSession (db : t) (uuid : string) (now : Date)
  (insertSession : InsertSession.t) : option (UserSession.t * t) :=
  let session :=
    UserSession.mk uuid (InsertSession.userId insertSession)
      (InsertSession.sessionToken insertSession)
      (InsertSession.expiresAt insertSession) now in
  if existsb (fun r => String.eqb (UserSession.id r) uuid) (userSessions db)
  then None
  else if negb (existsb (fun u => String.eqb (User.id u)
                                    (UserSession.userId session)) (users db))
  then None
  else if existsb (fun r => String.eqb (UserSession.sessionToken r)
                              (UserSession.sessionToken session))
            (userSessions db)
  then None
  else Some (session,
             mk (users db) (events db) (reminders db)
                (userSessions db ++ [session])).

Definition deleteSession (db : t) (sessionToken : string) : t :=
  mk (users db) (events db) (reminders db)
     (filter (fun r => negb (String.eqb (UserSession.sessionToken r)
                               sessionToken))
        (userSessions db)).

(** [eq(events.userId, userId)], and with both bounds
    [gte(events.startDate, startDate)] and [lte(events.startDate, endDate)]
    as well.  A bound is an instant here: what the driver does with a [Date]
    that holds no instant is not part of this repository. *)
Definition conditions (userId : string) (startDate endDate : Optional Date)
  (e : Event.t) : bool :=
  String.eqb (Event.userId e) userId
  && match startDate, endDate with
     | Some startDate, Some endDate =>
         (Event.startDate e >=? startDate) && (Event.startDate e <=? endDate)
     | _, _ => true
     end.

(** [orderBy(events.startDate)]: ascending, [start_date] is never null. *)
Definition orderBy (column : Event.t -> Z) (rows : list Event.t)
  : list Event.t :=
  JsArray.sort (fun a b => column a - column b) rows.

Definition getEvents (db : t) (userId : string)
  (startDate endDate : Optional Date) : list Event.t :=
  orderBy Event.startDate
    (filter (conditions userId startDate endDate) (events db)).

(** [insert(events).values(insertEvent)]: the values go in as given; a key
    that is absent takes the column's default ([category]: ["personal"],
    [is_recurring]: [false], the other nullable columns: null, both
    timestamps: [now()]).  [id] is a primary key and [user_id] references
    [users.id]. *)
Definition createEvent (db : t) (uuid : string) (now : Date)
  (userId : string) (insertEvent : InsertEvent.t) : option (Event.t * t) :=
  let default {A : Type} (x : Optional A) (d : A) : A :=
    match x with Some v => v | None => d end in
  let event :=
    Event.mk uuid userId
      (InsertEvent.title insertEvent)
      (default (InsertEvent.description insertEvent) None)
      (InsertEvent.startDate insertEvent)
      (InsertEvent.endDate insertEvent)
      (default (InsertEvent.category insertEvent) "personal")
      (default (InsertEvent.isRecurring insertEvent) (Some false))
      (default (InsertEvent.recurringPattern insertEvent) None)
      (InsertEvent.recurringEndDate insertEvent)
      (default (InsertEvent.encryptedData insertEvent) None)
      now now in
  if existsb (fun e => String.eqb (Event.id e) uuid) (events db) then None
  else if negb (existsb (fun u => String.eqb (User.id u) userId) (users db))
  then None
  else Some (event,
             mk (users db) (events db ++ [event]) (reminders db)
                (userSessions db)).

(** [and(eq(events.id, id), eq(events.userId, userId))] *)
Definition event_hit (id userId : string) (e : Event.t) : bool :=
  String.eqb (Event.id e) id && String.eqb (Event.userId e) userId.

Definition getEvent (db : t) (id userId : string) : option Event.t :=
  hd_error (filter (event_hit id userId) (events db)).

(** [set({ ...updates, updatedAt: new Date() })]: a column whose key is
    present takes the value, the others keep theirs. *)
Definition set_columns (row : Event.t) (updates : PartialInsertEvent.t)
  (now : Date) : Event.t :=
  Event.mk (Event.id row) (Event.userId row)
    (Js.spread (Event.title row) (PartialInsertEvent.title updates))
    (Js.spread (Event.description row)
       (PartialInsertEvent.description updates))
    (Js.spread (Event.startDate row) (PartialInsertEvent.startDate updates))
    (Js.spread (Event.endDate row) (PartialInsertEvent.endDate updates))
    (Js.spread (Event.category row) (PartialInsertEvent.category updates))
    (Js.spread (Event.isRecurring row)
       (PartialInsertEvent.isRecurring updates))
    (Js.spread (Event.recurringPattern row)
       (PartialInsertEvent.recurringPattern updates))
    (Js.spread (Event.recurringEndDate row)
       (PartialInsertEvent.recurringEndDate updates))
    (Js.spread (Event.encryptedData row)
       (PartialInsertEvent.encryptedData updates))
    (Event.createdAt row) now.

(** [update(events).set(...).where(...).returning()]: the rows that satisfy
    the condition are rewritten in place and returned as rewritten;
    [const [event] = ...] is the first of them. *)
Definition updateEvent (db : t) (id userId : string)
  (updates : PartialInsertEvent.t) (now : Date) : option Event.t * t :=
  let rows :=
    map (fun e => if event_hit id userId e
                  then set_columns e updates now else e) (events db) in
  (hd_error (filter (event_hit id userId) rows),
   mk (users db) rows (reminders db) (userSessions db)).

(** The reminders of a deleted event go with it
    ([reminders.eventId ... onDelete: "cascade"]). *)
Definition deleteEvent (db : t) (id userId : string) : bool * t :=
  let gone := filter (event_hit id userId) (events db) in
  let rowCount := Z.of_nat (List.length gone) in
  (if rowCount =? 0 then false else rowCount >? 0,
   mk (users db)
      (filter (fun e => negb (event_hit id userId e)) (events db))
      (filter (fun r => negb (existsb (fun e => String.eqb (Event.id e)
                                                  (Reminder.eventId r)) gone))
         (reminders db))
      (userSessions db)).

Definition getEventReminders (db : t) (eventId : string) : list Reminder.t :=
  filter (fun r => String.eqb (Reminder.eventId r) eventId) (reminders db).

(** [select category, count( * )::int from events where user_id = userId
    group by category]: one row per category that occurs among the selected
    rows, with the number of selected rows that carry it. *)
Definition getEventCountsByCategory (db : t) (userId : string)
  : list CategoryCount.t :=
  let rows := filter (fun e => String.eqb (Event.userId e) userId)
                (events db) in
  map (fun category =>
         CategoryCount.mk category
           (Z.of_nat (List.length
                        (filter (fun e => String.eqb (Event.category e)
                                            category) rows))))
      (nodup string_dec (map Event.category rows)).

(** The two backends hold the same sessions: every token is looked up to the
    same row, and the table respects the uniqueness of [session_token]. *)
Definition same_sessions (mem : MemStorage.t) (db : t) : Prop :=
  NoDup (map UserSession.sessionToken (userSessions db))
  /\ forall token,
       JsMap.get token (MemStorage.sessions mem)
       = find (fun r => String.eqb (UserSession.sessionToken r) token)
           (userSessions db).

End DatabaseStorage.

(** ** [interface IStorage], the part the middleware uses *)

Class IStorage (S : Type) := {
  getSession : S -> Date -> string -> option UserSession.t;
  deleteSession : S -> string -> S
}.

#[export] Instance MemStorage_IStorage : IStorage MemStorage.t := {
  getSession := MemStorage.getSession;
  deleteSession := MemStorage.deleteSession
}.

#[export] Instance DatabaseStorage_IStorage : IStorage DatabaseStorage.t := {
  getSession := DatabaseStorage.getSession;
  deleteSession := DatabaseStorage.deleteSession
}.

(** ** [server/routes.ts]: the authentication middleware *)

Module Routes.

(** What the middleware does with a request: answer it with a status and a
    message, or set [req.userId] and call [next()]. *)
Inductive Outcome :=
| Respond (status : Z) (message : string)
| Next (userId : string).

(** [req.headers.authorization?.replace('Bearer ', '')] *)
Definition bearer_token (authorization : option string) : option string :=
  option_map (JsString.replace "Bearer " "") authorization.

Definition authenticateUser {S : Type} `{IStorage S} (storage : S)
  (now : Date) (authorization : option string) : Outcome :=
  match bearer_token authorization with
  | None => Respond 401 "Authentication required"
  | Some sessionToken =>
      if negb (JsString.truthy sessionToken)
      then Respond 401 "Authentication required"
      else match getSession storage now sessionToken with
           | None => Respond 401 "Invalid or expired session"
           | Some session => Next (UserSession.userId session)
           end
  end.

(** The session [/api/auth/register] and [/api/auth/login] create:
    [randomBytes] is the result of [crypto.randomBytes(32)], [now] the value
    of [Date.now()]. *)
Definition new_session (userId : string) (randomBytes : list byte)
  (now : Date) : InsertSession.t :=
  InsertSession.mk userId (JsString.toString_hex randomBytes)
    (now + 7 * 24 * 60 * 60 * 1000).

Definition is_401 (o : Outcome) : bool :=
  match o with
  | Respond status _ => status =? 401
  | Next _ => false
  end.

End Routes.

(** ** The category enumeration named in [shared/schema.ts] *)

Definition categories : list string := ["work"; "personal"; "health"; "finance"].

(** ** Vocabulary of the statements *)

(** Ascending by [startDate]. *)
Definition ascending (a b : Event.t) : Prop :=
  Event.startDate a <= Event.startDate b.

(** The events a user owns, in the order of the map. *)
Definition owned_events (s : MemStorage.t) (userId : string) : list Event.t :=
  filter (fun e => String.eqb (Event.userId e) userId)
         (JsMap.values (MemStorage.events s)).

(** The rows of [events] a user owns, in the order of the table. *)
Definition owned_rows (db : DatabaseStorage.t) (userId : string)
  : list Event.t :=
  filter (fun e => String.eqb (Event.userId e) userId)
         (DatabaseStorage.events db).

(** [lo <= e.startDate <= hi]; no instant lies between bounds of which one
    is not an instant. *)
Definition within (lo hi : AnyDate) (e : Event.t) : bool :=
  match lo, hi with
  | ValidDate lo, ValidDate hi =>
      (lo <=? Event.startDate e) && (Event.startDate e <=? hi)
  | _, _ => false
  end.

(** The sum of the counts of a statistics answer. *)
Definition total (stats : list CategoryCount.t) : Z :=
  fold_right (fun r acc => CategoryCount.count r + acc) 0 stats.

(** How many of the events carry the category. *)
Definition tally (category : string) (l : list Event.t) : Z :=
  Z.of_nat (List.length
              (filter (fun e => String.eqb (Event.category e) category) l)).

(** The same row with another [updatedAt]. *)
Definition with_updatedAt (e : Event.t) (now : Date) : Event.t :=
  Event.mk (Event.id e) (Event.userId e) (Event.title e)
    (Event.description e) (Event.startDate e) (Event.endDate e)
    (Event.category e) (Event.isRecurring e) (Event.recurringPattern e)
    (Event.recurringEndDate e) (Event.encryptedData e) (Event.createdAt e)
    now.

(** Every stored event carries a category of the enumeration. *)
Definition category_invariant (s : MemStorage.t) : Prop :=
  Forall (fun e => In (Event.category e) categories)
         (JsMap.values (MemStorage.events s)).

(** Every stored session sits under a token as the routes issue them:
    hexadecimal and not empty. *)
Definition tokens_issued (s : MemStorage.t) : Prop :=
  Forall (fun token => JsString.is_hex token = true /\ token <> "")
         (JsMap.keys (MemStorage.sessions s)).

(** ** Sample data *)

Module Sample.

Definition standup : InsertEvent.t :=
  InsertEvent.mk "Standup" None 1704877200000 None (Some "work") None None
    None None.

Definition dentist : InsertEvent.t :=
  InsertEvent.mk "Dentist" (Some (Some "bring x-rays")) 1704963600000
    (Some 1704967200000) (Some "health") (Some (Some false)) None None None.

(** A valid input whose description is the empty string. *)
Definition blank_description : InsertEvent.t :=
  InsertEvent.mk "Standup" (Some (Some "")) 1704877200000 None (Some "work")
    None None None None.

(** An input the schema accepts ([category] is any string). *)
Definition holiday : InsertEvent.t :=
  InsertEvent.mk "Beach" None 1704877200000 None (Some "holiday") None None
    None None.

(** Alice has one event. *)
Definition one_event : MemStorage.t :=
  snd (MemStorage.createEvent MemStorage.empty "e1" 1704000000000
         1704000000000 "alice" standup).

(** Alice has two events, Bob has one. *)
Definition three_events : MemStorage.t :=
  let s := one_event in
  let s := snd (MemStorage.createEvent s "e2" 1704000001000 1704000001000
                  "bob" standup) in
  snd (MemStorage.createEvent s "e3" 1704000002000 1704000002000
         "alice" dentist).

(** Alice's event has one reminder. *)
Definition with_reminder : MemStorage.t :=
  snd (MemStorage.createReminder one_event "r1" 1704000003000
         (InsertReminder.mk "e1" 15)).

Definition session (token : string) (expiresAt : Date) : InsertSession.t :=
  InsertSession.mk "alice" token expiresAt.

(** One session that expires at 2000. *)
Definition one_session : MemStorage.t :=
  snd (MemStorage.createSession MemStorage.empty "s1" 1000
         (session "c0ffee" 2000)).

Definition one_session_db : DatabaseStorage.t :=
  DatabaseStorage.mk
    [User.mk "alice" "alice" "hash" "alpha-bravo" "00ff" 0] [] []
    [UserSession.mk "s1" "alice" "c0ffee" 2000 1000].

Definition rename : PartialInsertEvent.t :=
  PartialInsertEvent.mk (Some "Daily standup") None None None None None None
    None None.

(** Alice's event as a row of the table. *)
Definition one_row : DatabaseStorage.t :=
  DatabaseStorage.mk [] (JsMap.values (MemStorage.events one_event)) [] [].

(** U+4E2D, a character of three bytes and one code unit, and U+1F600, of
    four bytes and two code units. *)
Definition middle : string :=
  String (ascii_of_nat 228) (String (ascii_of_nat 184)
    (String (ascii_of_nat 173) EmptyString)).

Definition grin : string :=
  String (ascii_of_nat 240) (String (ascii_of_nat 159)
    (String (ascii_of_nat 152) (String (ascii_of_nat 128) EmptyString))).

(** The three events as rows of the table. *)
Definition three_rows : DatabaseStorage.t :=
  DatabaseStorage.mk [] (JsMap.values (MemStorage.events three_events)) [] [].

End Sample.

(** ** [shared/schema.ts]: the request schemas of the API

    [req.body] is read as far as a schema looks at it: a property that is
    absent, or is not a string, is [None]. *)

Module JsonBody.
Record t := mk {
  username : option string;
  password : option string;
  recoveryKey : option string
}.
End JsonBody.

Module LoginRequest.
Record t := mk {
  username : string;
  password : string
}.
End LoginRequest.

Module RegisterRequest.
Record t := mk {
  username : string;
  password : string;
  recoveryKey : string
}.
End RegisterRequest.

(** [z.string().min(lo)] and [.max(hi)] compare [x.length], the number of
    UTF-16 code units of the string. *)
Definition min_length (lo : nat) (x : string) : bool :=
  (lo <=? JsString.length x)%nat.

Definition max_length (hi : nat) (x : string) : bool :=
  (JsString.length x <=? hi)%nat.

(** [loginSchema.parse(req.body)]; [None] is the thrown [ZodError]. *)
Definition loginSchema (body : JsonBody.t) : option LoginRequest.t :=
  match JsonBody.username body, JsonBody.password body with
  | Some username, Some password =>
      if min_length 1 username && min_length 1 password
      then Some (LoginRequest.mk username password)
      else None
  | _, _ => None
  end.

(** [registerSchema.parse(req.body)] *)
Definition registerSchema (body : JsonBody.t) : option RegisterRequest.t :=
  match JsonBody.username body, JsonBody.password body,
        JsonBody.recoveryKey body with
  | Some username, Some password, Some recoveryKey =>
      if min_length 3 username && max_length 50 username
         && min_length 8 password
      then Some (RegisterRequest.mk username password recoveryKey)
      else None
  | _, _, _ => None
  end.

(** ** [server/routes.ts]: the handlers, over the in-memory store

    A handler takes the store, what the request carries and what the handler
    draws from its environment (random bytes, generated ids, clock
    readings), and returns the response and the store afterwards.  The body
    of a request that a drizzle-zod schema parses ([insertEventSchema],
    its [partial()], [insertReminderSchema]) is given by the result of the
    parse, [None] when it throws a [ZodError].  [bcrypt] is outside the
    repository: [bcrypt.hash] is a drawn value, [bcrypt.compare] a
    function the handlers are given. *)

Module Api.

Inductive Body :=
| Message (message : string)
| InvalidInput
| Auth (id username encryptionKey sessionToken : string)
| Profile (id username encryptionKey : string)
| EventList (events : list Event.t)
| EventRow (event : Event.t)
| ReminderList (reminders : list Reminder.t)
| ReminderRow (reminder : Reminder.t)
| StatList (stats : list CategoryCount.t).

Record Response := respond {
  status : Z;
  body : Body
}.

(** [res.json(body)] *)
Definition json (b : Body) : Response := respond 200 b.

(** What [/api/auth/register] draws. *)
Module RegisterEnv.
Record t := mk {
  hashedPassword : string;
  encryptionKeyBytes : list byte;
  userId : string;
  userCreatedAt : Date;
  sessionTokenBytes : list byte;
  dateNow : Date;
  sessionId : string;
  sessionCreatedAt : Date
}.
End RegisterEnv.

(** What [/api/auth/login] draws. *)
Module LoginEnv.
Record t := mk {
  sessionTokenBytes : list byte;
  dateNow : Date;
  sessionId : string;
  sessionCreatedAt : Date
}.
End LoginEnv.

(** [app.post('/api/auth/register', ...)] *)
Definition register (s : MemStorage.t) (body : JsonBody.t)
  (env : RegisterEnv.t) : Response * MemStorage.t :=
  match registerSchema body with
  | None => (respond 400 InvalidInput, s)
  | Some data =>
      match MemStorage.getUserByUsername s (RegisterRequest.username data) with
      | Some _ => (respond 400 (Message "Username already exists"), s)
      | None =>
          let hashedPassword := RegisterEnv.hashedPassword env in
          let encryptionKey :=
            JsString.toString_hex (RegisterEnv.encryptionKeyBytes env) in
          let (user, s1) :=
            MemStorage.createUser s (RegisterEnv.userId env)
              (RegisterEnv.userCreatedAt env)
              (InsertUser.mk (RegisterRequest.username data) hashedPassword
                 (RegisterRequest.recoveryKey data) encryptionKey) in
          let insertSession :=
            Routes.new_session (User.id user)
              (RegisterEnv.sessionTokenBytes env) (RegisterEnv.dateNow env) in
          let (_, s2) :=
            MemStorage.createSession s1 (RegisterEnv.sessionId env)
              (RegisterEnv.sessionCreatedAt env) insertSession in
          (json (Auth (User.id user) (User.username user)
                   (User.encryptionKey user)
                   (InsertSession.sessionToken insertSession)),
           s2)
      end
  end.

(** [app.post('/api/auth/login', ...)] *)
Definition login (bcrypt_compare : string -> string -> bool)
  (s : MemStorage.t) (body : JsonBody.t) (env : LoginEnv.t)
  : Response * MemStorage.t :=
  match loginSchema body with
  | None => (respond 400 InvalidInput, s)
  | Some data =>
      match MemStorage.getUserByUsername s (LoginRequest.username data) with
      | None => (respond 401 (Message "Invalid credentials"), s)
      | Some user =>
          if negb (bcrypt_compare (LoginRequest.password data)
                     (User.password user))
          then (respond 401 (Message "Invalid credentials"), s)
          else
            let insertSession :=
              Routes.new_session (User.id user)
                (LoginEnv.sessionTokenBytes env) (LoginEnv.dateNow env) in
            let (_, s1) :=
              MemStorage.createSession s (LoginEnv.sessionId env)
                (LoginEnv.sessionCreatedAt env) insertSession in
            (json (Auth (User.id user) (User.username user)
                     (User.encryptionKey user)
                     (InsertSession.sessionToken insertSession)),
             s1)
      end
  end.

(** [app.post('/api/auth/logout', ...)] *)
Definition logout (s : MemStorage.t) (authorization : option string)
  : Response * MemStorage.t :=
  let s' :=
    match Routes.bearer_token authorization with
    | Some sessionToken =>
        if JsString.truthy sessionToken
        then MemStorage.deleteSession s sessionToken
        else s
    | None => s
    end in
  (json (Message "Logged out successfully"), s').

(** A route behind [authenticateUser]: the middleware answers, or the
    handler runs with [req.userId]. *)
Definition authenticated (s : MemStorage.t) (now : Date)
  (authorization : option string)
  (handler : string -> Response * MemStorage.t) : Response * MemStorage.t :=
  match Routes.authenticateUser s now authorization with
  | Routes.Respond status message => (respond status (Message message), s)
  | Routes.Next userId => handler userId
  end.

(** [app.get('/api/auth/me', ...)] *)
Definition me (s : MemStorage.t) (now : Date) (authorization : option string)
  : Response * MemStorage.t :=
  authenticated s now authorization (fun userId =>
    match MemStorage.getUser s userId with
    | None => (respond 404 (Message "User not found"), s)
    | Some user =>
        (json (Profile (User.id user) (User.username user)
                 (User.encryptionKey user)), s)
    end).

(** [app.get('/api/events', ...)]; [startDate] and [endDate] are the dates
    built from the query, absent for an absent or empty parameter. *)
Definition listEvents (s : MemStorage.t) (now : Date)
  (authorization : option string) (startDate endDate : Optional AnyDate)
  : Response * MemStorage.t :=
  authenticated s now authorization (fun userId =>
    (json (EventList (MemStorage.getEvents s userId startDate endDate)), s)).

(** [app.post('/api/events', ...)] *)
Definition postEvent (s : MemStorage.t) (now : Date)
  (authorization : option string) (parsed : option InsertEvent.t)
  (uuid : string) (createdAt updatedAt : Date) : Response * MemStorage.t :=
  authenticated s now authorization (fun userId =>
    match parsed with
    | None => (respond 400 InvalidInput, s)
    | Some data =>
        let (event, s') :=
          MemStorage.createEvent s uuid createdAt updatedAt userId data in
        (respond 201 (EventRow event), s')
    end).

(** [app.put('/api/events/:id', ...)] *)
Definition putEvent (s : MemStorage.t) (now : Date)
  (authorization : option string) (id : string)
  (parsed : option PartialInsertEvent.t) (updatedAt : Date)
  : Response * MemStorage.t :=
  authenticated s now authorization (fun userId =>
    match parsed with
    | None => (respond 400 InvalidInput, s)
    | Some data =>
        match MemStorage.updateEvent s id userId data updatedAt with
        | (None, s') => (respond 404 (Message "Event not found"), s')
        | (Some event, s') => (json (EventRow event), s')
        end
    end).

(** [app.delete('/api/events/:id', ...)] *)
Definition deleteEvent (s : MemStorage.t) (now : Date)
  (authorization : option string) (id : string) : Response * MemStorage.t :=
  authenticated s now authorization (fun userId =>
    let (deleted, s') := MemStorage.deleteEvent s id userId in
    if negb deleted
    then (respond 404 (Message "Event not found"), s')
    else (json (Message "Event deleted successfully"), s')).

(** [app.get('/api/events/:eventId/reminders', ...)] *)
Definition listReminders (s : MemStorage.t) (now : Date)
  (authorization : option string) (eventId : string)
  : Response * MemStorage.t :=
  authenticated s now authorization (fun userId =>
    match MemStorage.getEvent s eventId userId with
    | None => (respond 404 (Message "Event not found"), s)
    | Some _ =>
        (json (ReminderList (MemStorage.getEventReminders s eventId)), s)
    end).

(** [app.post('/api/reminders', ...)] *)
Definition postReminder (s : MemStorage.t) (now : Date)
  (authorization : option string) (parsed : option InsertReminder.t)
  (uuid : string) (createdAt : Date) : Response * MemStorage.t :=
  authenticated s now authorization (fun userId =>
    match parsed with
    | None => (respond 400 InvalidInput, s)
    | Some data =>
        match MemStorage.getEvent s (InsertReminder.eventId data) userId with
        | None => (respond 404 (Message "Event not found"), s)
        | Some _ =>
            let (reminder, s') :=
              MemStorage.createReminder s uuid createdAt data in
            (respond 201 (ReminderRow reminder), s')
        end
    end).

(** [app.get('/api/stats/categories', ...)] *)
Definition categoryStats (s : MemStorage.t) (now : Date)
  (authorization : option string) : Response * MemStorage.t :=
  authenticated s now authorization (fun userId =>
    (json (StatList (MemStorage.getEventCountsByCategory s userId)), s)).

(** One request to the API. *)
Inductive Request :=
| PostRegister (body : JsonBody.t) (env : RegisterEnv.t)
| PostLogin (body : JsonBody.t) (env : LoginEnv.t)
| PostLogout (authorization : option string)
| GetMe (now : Date) (authorization : option string)
| GetEvents (now : Date) (authorization : option string)
    (startDate endDate : Optional AnyDate)
| PostEvent (now : Date) (authorization : option string)
    (parsed : option InsertEvent.t) (uuid : string)
    (createdAt updatedAt : Date)
| PutEvent (now : Date) (authorization : option string) (id : string)
    (parsed : option PartialInsertEvent.t) (updatedAt : Date)
| DeleteEvent (now : Date) (authorization : option string) (id : string)
| GetReminders (now : Date) (authorization : option string)
    (eventId : string)
| PostReminder (now : Date) (authorization : option string)
    (parsed : option InsertReminder.t) (uuid : string) (createdAt : Date)
| GetStats (now : Date) (authorization : option string).

Definition handle (bcrypt_compare : string -> string -> bool)
  (s : MemStorage.t) (r : Request) : Response * MemStorage.t :=
  match r with
  | PostRegister body env => register s body env
  | PostLogin body env => login bcrypt_compare s body env
  | PostLogout authorization => logout s authorization
  | GetMe now authorization => me s now authorization
  | GetEvents now authorization startDate endDate =>
      listEvents s now authorization startDate endDate
  | PostEvent now authorization parsed uuid createdAt updatedAt =>
      postEvent s now authorization parsed uuid createdAt updatedAt
  | PutEvent now authorization id parsed updatedAt =>
      putEvent s now authorization id parsed updatedAt
  | DeleteEvent now authorization id => deleteEvent s now authorization id
  | GetReminders now authorization eventId =>
      listReminders s now authorization eventId
  | PostReminder now authorization parsed uuid createdAt =>
      postReminder s now authorization parsed uuid createdAt
  | GetStats now authorization => categoryStats s now authorization
  end.

(** The store after a sequence of requests, each handled to its end before
    the next one begins.  (A handler awaits between its storage calls;
    requests that interleave there are not runs of this function.) *)
Definition run (bcrypt_compare : string -> string -> bool)
  (s : MemStorage.t) (requests : list Request) : MemStorage.t :=
  fold_left (fun s r => snd (handle bcrypt_compare s r)) requests s.

(** [crypto.randomBytes(32)] returns 32 bytes. *)
Definition draws_32_bytes (r : Request) : Prop :=
  match r with
  | PostRegister _ env =>
      List.length (RegisterEnv.encryptionKeyBytes env) = 32%nat
      /\ List.length (RegisterEnv.sessionTokenBytes env) = 32%nat
  | PostLogin _ env =>
      List.length (LoginEnv.sessionTokenBytes env) = 32%nat
  | _ => True
  end.

End Api.

(** ** [server/routes.ts]: the recovery key *)

Module RecoveryKey.

Definition words : list string :=
  [ "alpha"; "bravo"; "charlie"; "delta"; "echo"; "foxtrot"; "golf"; "hotel";
    "india"; "juliet"; "kilo"; "lima"; "mike"; "november"; "oscar"; "papa";
    "quebec"; "romeo"; "sierra"; "tango"; "uniform"; "victor"; "whiskey";
    "xray" ].

(** [array.join(separator)] on an array of strings. *)
Fixpoint join (separator : string) (parts : list string) : string :=
  match parts with
  | [] => EmptyString
  | [part] => part
  | part :: rest => part ++ separator ++ join separator rest
  end.

(** [words[i]]; the draws never leave the list, where the default is what
    [join] makes of [undefined]. *)
Definition word (i : nat) : string := nth i words EmptyString.

(** [Array.from({ length: 8 }, () => words[Math.floor(Math.random() *
    words.length)]).join('-')]: [draws] holds the eight values of
    [Math.floor(Math.random() * words.length)], each below 24. *)
Definition generate (draws : list nat) : string := join "-" (map word draws).

Definition well_drawn (draws : list nat) : Prop :=
  List.length draws = 8%nat /\ Forall (fun i => (i < 24)%nat) draws.

(** Reading a key back: the parts between the occurrences of a character. *)
Fixpoint split (c : ascii) (s : string) : list string :=
  match s with
  | EmptyString => [EmptyString]
  | String a s' =>
      if Ascii.eqb a c then EmptyString :: split c s'
      else match split c s' with
           | part :: parts => String a part :: parts
           | [] => [String a EmptyString]
           end
  end.

Fixpoint has_char (c : ascii) (s : string) : bool :=
  match s with
  | EmptyString => false
  | String a s' => Ascii.eqb a c || has_char c s'
  end.

End RecoveryKey.

(** ** Client code that reads the answers of the API *)

Module Client.

(** [getCategoryCount] of the sidebar: the count of the entry for the
    category, 0 when the answer has none. *)
Definition getCategoryCount (categoryStats : list CategoryCount.t)
  (category : string) : Z :=
  match find (fun s => String.eqb (CategoryCount.category s) category)
          categoryStats with
  | Some stat => CategoryCount.count stat
  | None => 0
  end.

(** The category an event read from a JSON file is imported with:
    [['work', 'personal', 'health', 'finance'].includes(event.category) ?
    event.category : 'personal'].  [event.category] is any JSON value; one
    that is not a string is [None]. *)
Definition import_category (category : option string) : string :=
  match category with
  | Some c =>
      if existsb (String.eqb c) categories then c else "personal"
  | None => "personal"
  end.

End Client.

(** ** More vocabulary *)

(** The events with a given start, in the order of the list. *)
Definition starting_at (d : Date) (l : list Event.t) : list Event.t :=
  filter (fun e => Event.startDate e =? d) l.

(** No two users share a username. *)
Definition usernames_unique (s : MemStorage.t) : Prop :=
  NoDup (map User.username (JsMap.values (MemStorage.users s))).

(** Every entry of the map sits under the key read off its value. *)
Definition keyed {V : Type} (key : V -> string) (m : JsMap.t V) : Prop :=
  Forall (fun kv => key (snd kv) = fst kv) m.

(** What every store the API can reach satisfies. *)
Record store_invariant (s : MemStorage.t) : Prop := {
  users_wf : JsMap.wf (MemStorage.users s);
  events_wf : JsMap.wf (MemStorage.events s);
  reminders_wf : JsMap.wf (MemStorage.reminders s);
  sessions_wf : JsMap.wf (MemStorage.sessions s);
  users_keyed : keyed User.id (MemStorage.users s);
  events_keyed : keyed Event.id (MemStorage.events s);
  reminders_keyed : keyed Reminder.id (MemStorage.reminders s);
  sessions_keyed : keyed UserSession.sessionToken (MemStorage.sessions s);
  users_unique : usernames_unique s;
  usernames_sized :
    Forall (fun u => (3 <= JsString.length (User.username u) <= 50)%nat)
           (JsMap.values (MemStorage.users s));
  tokens_sized :
    Forall (fun token => JsString.is_hex token = true
                         /\ String.length token = 64%nat)
           (JsMap.keys (MemStorage.sessions s));
  sessions_of_users :
    Forall (fun x => JsMap.has (UserSession.userId x) (MemStorage.users s)
                     = true)
           (JsMap.values (MemStorage.sessions s));
  events_of_users :
    Forall (fun e => JsMap.has (Event.userId e) (MemStorage.users s) = true)
           (JsMap.values (MemStorage.events s))
}.

(** The events a response shows. *)
Definition body_events (b : Api.Body) : list Event.t :=
  match b with
  | Api.EventList events => events
  | Api.EventRow event => [event]
  | _ => []
  end.

(** The clock reading and the header the middleware sees, for the requests
    that pass through it. *)
Definition credentials (r : Api.Request) : option (Date * option string) :=
  match r with
  | Api.PostRegister _ _ | Api.PostLogin _ _ | Api.PostLogout _ => None
  | Api.GetMe now authorization
  | Api.GetEvents now authorization _ _
  | Api.PostEvent now authorization _ _ _ _
  | Api.PutEvent now authorization _ _ _
  | Api.DeleteEvent now authorization _
  | Api.GetReminders now authorization _
  | Api.PostReminder now authorization _ _ _
  | Api.GetStats now authorization => Some (now, authorization)
  end.

(** ** A scenario: Alice and Bob use the API *)

Module Scenario.

(** A stand-in for [bcrypt.compare]: the hash of a password is the password
    behind a tag. *)
Definition compare (password hash : string) : bool :=
  String.eqb hash ("$2b$" ++ password).

Definition bytes (b : byte) : list byte := repeat b 32.

Definition alice_body : JsonBody.t :=
  JsonBody.mk (Some "alice") (Some "Secret123!") (Some "alpha-bravo").

Definition bob_body : JsonBody.t :=
  JsonBody.mk (Some "bob") (Some "hunter2hunter2") (Some "kilo-lima").

Definition alice_env : Api.RegisterEnv.t :=
  Api.RegisterEnv.mk "$2b$Secret123!" (bytes x11) "u-alice" 1000
    (bytes xa1) 1000 "s-alice" 1000.

Definition bob_env : Api.RegisterEnv.t :=
  Api.RegisterEnv.mk "$2b$hunter2hunter2" (bytes x22) "u-bob" 2000
    (bytes xb0) 2000 "s-bob" 2000.

Definition alice_token : string := JsString.toString_hex (bytes xa1).
Definition bob_token : string := JsString.toString_hex (bytes xb0).

Definition bearer (token : string) : option string :=
  Some ("Bearer " ++ token)%string.

(** Alice and Bob register, Alice creates an event and a reminder for it. *)
Definition requests : list Api.Request :=
  [ Api.PostRegister alice_body alice_env;
    Api.PostRegister bob_body bob_env;
    Api.PostEvent 3000 (bearer alice_token) (Some Sample.standup) "e1"
      3000 3000;
    Api.PostReminder 4000 (bearer alice_token)
      (Some (InsertReminder.mk "e1" 15)) "r1" 4000 ].

Definition registered : MemStorage.t :=
  Api.run compare MemStorage.empty
    [ Api.PostRegister alice_body alice_env;
      Api.PostRegister bob_body bob_env ].

Definition store : MemStorage.t := Api.run compare MemStorage.empty requests.

End Scenario.

(** * Facts *)

Local Open Scope list_scope.

(** ** The map *)

Section JsMapFacts.
Context {V : Type}.
Implicit Types (m : JsMap.t V) (k : string) (v : V).

Lemma JsMap_get_set_same k v m : JsMap.get k (JsMap.set k v m) = Some v.
Proof.
  induction m as [|[k' v'] m IH]; simpl.
  - now rewrite String.eqb_refl.
  - destruct (String.eqb k k') eqn:E; simpl; rewrite E; auto.
Qed.

Lemma JsMap_get_set_other k k' v m :
  k <> k' -> JsMap.get k' (JsMap.set k v m) = JsMap.get k' m.
Proof.
  intros Hk. induction m as [|[k0 v0] m IH]; simpl.
  - destruct (String.eqb_spec k' k); congruence.
  - destruct (String.eqb_spec k k0) as [->|]; simpl.
    + destruct (String.eqb_spec k' k0); congruence.
    + now rewrite IH.
Qed.

Lemma JsMap_set_set k v1 v2 m :
  JsMap.set k v2 (JsMap.set k v1 m) = JsMap.set k v2 m.
Proof.
  induction m as [|[k' v'] m IH]; simpl.
  - now rewrite String.eqb_refl.
  - destruct (String.eqb k k') eqn:E; simpl; rewrite E; congruence.
Qed.

Lemma JsMap_get_remove_same k m : JsMap.get k (JsMap.remove k m) = None.
Proof.
  induction m as [|[k' v'] m IH]; simpl; auto.
  destruct (String.eqb k k') eqn:E; simpl; try rewrite E; auto.
Qed.

Lemma JsMap_get_remove_other k k' m :
  k <> k' -> JsMap.get k' (JsMap.remove k m) = JsMap.get k' m.
Proof.
  intros Hk. induction m as [|[k0 v0] m IH]; simpl; auto.
  destruct (String.eqb_spec k k0) as [->|]; simpl.
  - destruct (String.eqb_spec k' k0); congruence.
  - now rewrite IH.
Qed.

Lemma JsMap_remove_absent k m : JsMap.get k m = None -> JsMap.remove k m = m.
Proof.
  induction m as [|[k' v'] m IH]; simpl; auto.
  destruct (String.eqb k k'); [discriminate|].
  intros H. now rewrite IH.
Qed.

Lemma JsMap_get_In k v m : JsMap.get k m = Some v -> In (k, v) m.
Proof.
  induction m as [|[k' v'] m IH]; simpl; [discriminate|].
  destruct (String.eqb_spec k k') as [->|].
  - intros [= ->]. now left.
  - auto.
Qed.

Lemma JsMap_get_None_keys k m : JsMap.get k m = None <-> ~ In k (JsMap.keys m).
Proof.
  induction m as [|[k' v'] m IH]; simpl.
  - tauto.
  - destruct (String.eqb_spec k k') as [->|]; split; intros H.
    + discriminate.
    + exfalso. apply H. now left.
    + intros [E|Hin]; [congruence|]. now apply IH in H.
    + apply IH. tauto.
Qed.

Lemma JsMap_keys_set k v m :
  JsMap.keys (JsMap.set k v m)
  = if JsMap.has k m then JsMap.keys m else JsMap.keys m ++ [k].
Proof.
  unfold JsMap.has.
  induction m as [|[k' v'] m IH]; simpl; auto.
  destruct (String.eqb k k'); simpl; auto.
  rewrite IH. now destruct (JsMap.get k m).
Qed.

Lemma JsMap_wf_set k v m : JsMap.wf m -> JsMap.wf (JsMap.set k v m).
Proof.
  unfold JsMap.wf. intros Hm. rewrite JsMap_keys_set.
  unfold JsMap.has. destruct (JsMap.get k m) eqn:E; auto.
  apply JsMap_get_None_keys in E.
  apply NoDup_rev in Hm. rewrite <- (rev_involutive (_ ++ _)).
  apply NoDup_rev. rewrite rev_app_distr. simpl.
  constructor; auto. now rewrite <- in_rev.
Qed.

Lemma JsMap_keys_remove k m :
  JsMap.keys (JsMap.remove k m)
  = filter (fun k' => negb (String.eqb k k')) (JsMap.keys m).
Proof.
  induction m as [|[k' v'] m IH]; simpl; auto.
  destruct (String.eqb k k'); simpl; now rewrite IH.
Qed.

Lemma JsMap_wf_remove k m : JsMap.wf m -> JsMap.wf (JsMap.remove k m).
Proof.
  unfold JsMap.wf. rewrite JsMap_keys_remove. apply NoDup_filter.
Qed.

End JsMapFacts.

(** ** The sort *)

Section JsArrayFacts.
Context {A : Type} (compareFn : A -> A -> Z).

Lemma JsArray_insert_perm x l :
  Permutation (JsArray.insert compareFn x l) (x :: l).
Proof.
  induction l as [|y l IH]; simpl; auto.
  destruct (compareFn x y <=? 0); auto.
  rewrite IH. apply perm_swap.
Qed.

Lemma JsArray_sort_perm l : Permutation (JsArray.sort compareFn l) l.
Proof.
  induction l as [|x l IH]; simpl; auto.
  rewrite JsArray_insert_perm. now constructor.
Qed.

End JsArrayFacts.

Section SortByKey.
Context {A : Type} (compareFn : A -> A -> Z).
Hypothesis compare_total :
  forall x y, compareFn x y > 0 -> compareFn y x <= 0.

Let le (x y : A) : Prop := compareFn x y <= 0.

Lemma JsArray_insert_sorted x l :
  Sorted le l -> Sorted le (JsArray.insert compareFn x l).
Proof.
  induction 1 as [|y l Hl IH Hhd]; simpl.
  - repeat constructor.
  - destruct (Z.leb_spec (compareFn x y) 0) as [Hxy|Hxy].
    + repeat constructor; auto.
    + constructor; auto.
      destruct l as [|z l]; simpl in *.
      * constructor. apply compare_total. lia.
      * destruct (compareFn x z <=? 0).
        -- constructor. apply compare_total. lia.
        -- constructor. now inversion Hhd.
Qed.

Lemma JsArray_sort_sorted l : Sorted le (JsArray.sort compareFn l).
Proof.
  induction l as [|x l IH]; simpl.
  - constructor.
  - now apply JsArray_insert_sorted.
Qed.

End SortByKey.

(** ** [getEvents] *)

Lemma Sorted_weaken {A : Type} (R1 R2 : A -> A -> Prop) (l : list A) :
  (forall a b, R1 a b -> R2 a b) -> Sorted R1 l -> Sorted R2 l.
Proof.
  intros Hsub. induction 1 as [|a l Hl IH Hhd]; constructor; auto.
  destruct Hhd; constructor; auto.
Qed.

Lemma by_startDate_ascending l :
  StronglySorted ascending (JsArray.sort MemStorage.by_startDate l).
Proof.
  apply Sorted_StronglySorted.
  - intros a b c. unfold ascending. lia.
  - apply Sorted_weaken
      with (R1 := fun a b => MemStorage.by_startDate a b <= 0).
    + unfold ascending, MemStorage.by_startDate. intros; lia.
    + apply JsArray_sort_sorted.
      unfold MemStorage.by_startDate. intros; lia.
Qed.

Lemma owned_by_filter s userId :
  filter (MemStorage.owned_by userId) (JsMap.values (MemStorage.events s))
  = owned_events s userId.
Proof. reflexivity. Qed.

Lemma in_range_within lo hi e : MemStorage.in_range lo hi e = within lo hi e.
Proof.
  unfold MemStorage.in_range, within.
  destruct lo, hi; simpl; auto using andb_false_r.
  now rewrite Z.geb_leb.
Qed.

Lemma filter_andb {A : Type} (f g : A -> bool) (l : list A) :
  filter (fun x => f x && g x) l = filter g (filter f l).
Proof.
  induction l as [|x l IH]; simpl; auto.
  destruct (f x); simpl; [destruct (g x)|]; now rewrite IH.
Qed.

Lemma db_getEvents_both db userId lo hi :
  Permutation (DatabaseStorage.getEvents db userId (Some lo) (Some hi))
    (filter (within (ValidDate lo) (ValidDate hi)) (owned_rows db userId)).
Proof.
  unfold DatabaseStorage.getEvents, DatabaseStorage.orderBy, owned_rows.
  rewrite JsArray_sort_perm, <- filter_andb.
  erewrite filter_ext; [reflexivity|]. intros e.
  unfold DatabaseStorage.conditions, within. now rewrite Z.geb_leb.
Qed.

Lemma db_getEvents_open db userId startDate endDate :
  startDate = None \/ endDate = None ->
  Permutation (DatabaseStorage.getEvents db userId startDate endDate)
    (owned_rows db userId).
Proof.
  intros Hopen.
  unfold DatabaseStorage.getEvents, DatabaseStorage.orderBy, owned_rows.
  rewrite JsArray_sort_perm.
  erewrite filter_ext; [reflexivity|]. intros e.
  unfold DatabaseStorage.conditions.
  destruct Hopen as [-> | ->]; [|destruct startDate]; apply andb_true_r.
Qed.

(** C3. In both storage classes, [getEvents] with both bounds returns
    exactly the owned events whose [startDate] lies in the closed interval
    of the bounds, each as often as it is stored (in [MemStorage]: none when
    a bound is an invalid date); with a bound omitted it returns all owned
    events; the result is always in ascending order of [startDate]. *)
Theorem getEvents_filter_contract (userId : string) :
  (forall s : MemStorage.t,
      (forall lo hi : AnyDate,
          Permutation (MemStorage.getEvents s userId (Some lo) (Some hi))
                      (filter (within lo hi) (owned_events s userId)))
      /\ (forall lo hi : Date,
             forall e, In e (MemStorage.getEvents s userId
                               (Some (ValidDate lo)) (Some (ValidDate hi)))
                       <-> In e (JsMap.values (MemStorage.events s))
                           /\ Event.userId e = userId
                           /\ lo <= Event.startDate e <= hi)
      /\ (forall bound : Optional AnyDate,
             Permutation (MemStorage.getEvents s userId None bound)
                         (owned_events s userId)
             /\ Permutation (MemStorage.getEvents s userId bound None)
                            (owned_events s userId))
      /\ (forall startDate endDate : Optional AnyDate,
             StronglySorted ascending
               (MemStorage.getEvents s userId startDate endDate)))
  /\ (forall db : DatabaseStorage.t,
         (forall lo hi : Date,
             Permutation (DatabaseStorage.getEvents db userId (Some lo)
                            (Some hi))
                         (filter (within (ValidDate lo) (ValidDate hi))
                                 (owned_rows db userId)))
         /\ (forall lo hi : Date,
                forall e, In e (DatabaseStorage.getEvents db userId (Some lo)
                                  (Some hi))
                          <-> In e (DatabaseStorage.events db)
                              /\ Event.userId e = userId
                              /\ lo <= Event.startDate e <= hi)
         /\ (forall bound : Optional Date,
                Permutation (DatabaseStorage.getEvents db userId None bound)
                            (owned_rows db userId)
                /\ Permutation (DatabaseStorage.getEvents db userId bound
                                  None)
                               (owned_rows db userId))
         /\ (forall startDate endDate : Optional Date,
                StronglySorted ascending
                  (DatabaseStorage.getEvents db userId startDate endDate))).
Proof.
  assert (forall (l rows : list Event.t) lo hi,
             Permutation l (filter (within (ValidDate lo) (ValidDate hi))
                              (filter (fun e => String.eqb (Event.userId e)
                                                  userId) rows)) ->
             forall e, In e l <-> In e rows /\ Event.userId e = userId
                                  /\ lo <= Event.startDate e <= hi)
    as Hmember.
  { intros l rows lo hi Hperm e. split.
    - intros Hin. eapply Permutation_in in Hin; [|exact Hperm].
      apply filter_In in Hin. destruct Hin as [Hin Hwithin].
      apply filter_In in Hin. destruct Hin as [Hin Hown].
      apply String.eqb_eq in Hown. simpl in Hwithin.
      apply andb_true_iff in Hwithin. rewrite !Z.leb_le in Hwithin.
      tauto.
    - intros (Hin & Hown & Hlo & Hhi).
      eapply Permutation_in; [symmetry; exact Hperm|].
      apply filter_In. split.
      + apply filter_In. split; [exact Hin|now apply String.eqb_eq].
      + simpl. apply andb_true_iff. rewrite !Z.leb_le. tauto. }
  split.
  - intros s.
    assert (forall lo hi : AnyDate,
               Permutation (MemStorage.getEvents s userId (Some lo) (Some hi))
                 (filter (within lo hi) (owned_events s userId))) as Hboth.
    { intros lo hi. unfold MemStorage.getEvents.
      rewrite owned_by_filter, JsArray_sort_perm.
      erewrite filter_ext; [reflexivity|]. apply in_range_within. }
    split; [exact Hboth|]. split.
    { intros lo hi. apply (Hmember _ _ lo hi), Hboth. }
    unfold MemStorage.getEvents. rewrite owned_by_filter.
    split.
    + intros bound. split; [|destruct bound]; apply JsArray_sort_perm.
    + intros sd ed. apply by_startDate_ascending.
  - intros db. split; [apply db_getEvents_both|]. split.
    { intros lo hi. apply (Hmember _ _ lo hi), db_getEvents_both. }
    split.
    + intros bound. split; apply db_getEvents_open; auto.
    + intros sd ed. apply by_startDate_ascending.
Qed.

Example getEvents_three_events :
  map Event.id (MemStorage.getEvents Sample.three_events "alice" None None)
  = ["e1"; "e3"]
  /\ map Event.id
       (MemStorage.getEvents Sample.three_events "alice"
          (Some (ValidDate 1704877200000)) (Some (ValidDate 1704877200000)))
     = ["e1"]
  /\ map Event.id
       (MemStorage.getEvents Sample.three_events "alice"
          (Some (ValidDate 1704877200001)) (Some (ValidDate 1704963600000)))
     = ["e3"]
  /\ map Event.id
       (MemStorage.getEvents Sample.three_events "alice"
          (Some (ValidDate 1704877200001)) None)
     = ["e1"; "e3"]
  /\ MemStorage.getEvents Sample.three_events "alice"
       (Some InvalidDate) (Some (ValidDate 1704963600000))
     = [].
Proof. repeat split. Qed.

Example getEvents_three_rows :
  map Event.id (DatabaseStorage.getEvents Sample.three_rows "alice" None None)
  = ["e1"; "e3"]
  /\ map Event.id
       (DatabaseStorage.getEvents Sample.three_rows "alice"
          (Some 1704877200000) (Some 1704877200000))
     = ["e1"]
  /\ map Event.id
       (DatabaseStorage.getEvents Sample.three_rows "alice"
          (Some 1704877200001) (Some 1704963600000))
     = ["e3"]
  /\ map Event.id
       (DatabaseStorage.getEvents Sample.three_rows "alice"
          (Some 1704877200001) None)
     = ["e1"; "e3"].
Proof. repeat split. Qed.

(** ** Ownership *)

Lemma getEvents_owner s userId startDate endDate e :
  In e (MemStorage.getEvents s userId startDate endDate) ->
  Event.userId e = userId.
Proof.
  unfold MemStorage.getEvents. intros Hin.
  eapply Permutation_in in Hin; [|apply JsArray_sort_perm].
  assert (In e (filter (MemStorage.owned_by userId)
                  (JsMap.values (MemStorage.events s)))) as Hown.
  { destruct startDate, endDate; auto; apply filter_In in Hin; tauto. }
  apply filter_In in Hown. destruct Hown as [_ Hown].
  now apply String.eqb_eq in Hown.
Qed.

Lemma createEvent_stored s uuid createdAt updatedAt userId insertEvent :
  let (e, s') :=
    MemStorage.createEvent s uuid createdAt updatedAt userId insertEvent in
  JsMap.get (Event.id e) (MemStorage.events s') = Some e
  /\ Event.id e = uuid /\ Event.userId e = userId.
Proof.
  simpl. now rewrite JsMap_get_set_same.
Qed.

(** C1. An event stored under [id] with owner [U1] is out of reach of any
    other user [U2]: [getEvents] for [U2] returns only events of [U2] (so
    never this one), [getEvent] and [updateEvent] with the right id return
    nothing and change nothing, and [deleteEvent] returns [false] and leaves
    the event in place. *)
Theorem ownership_scoping (s : MemStorage.t) (id U1 U2 : string)
  (e : Event.t) :
  JsMap.get id (MemStorage.events s) = Some e ->
  Event.userId e = U1 ->
  U1 <> U2 ->
  (forall startDate endDate e',
      In e' (MemStorage.getEvents s U2 startDate endDate) ->
      Event.userId e' = U2 /\ e' <> e)
  /\ MemStorage.getEvent s id U2 = None
  /\ (forall updates now,
         MemStorage.updateEvent s id U2 updates now = (None, s))
  /\ MemStorage.deleteEvent s id U2 = (false, s)
  /\ JsMap.get id (MemStorage.events (snd (MemStorage.deleteEvent s id U2)))
     = Some e.
Proof.
  intros Hget Hown Hneq.
  assert (String.eqb (Event.userId e) U2 = false) as Hneqb.
  { apply String.eqb_neq. congruence. }
  assert (MemStorage.deleteEvent s id U2 = (false, s)) as Hdel.
  { unfold MemStorage.deleteEvent. now rewrite Hget, Hneqb. }
  split; [|split; [|split; [|split]]].
  - intros startDate endDate e' Hin. apply getEvents_owner in Hin.
    split; [exact Hin|]. intros ->. congruence.
  - unfold MemStorage.getEvent. now rewrite Hget, Hneqb.
  - intros updates now. unfold MemStorage.updateEvent.
    now rewrite Hget, Hneqb.
  - exact Hdel.
  - now rewrite Hdel.
Qed.

(** Alice creates an event; Bob then tries the four operations with the
    right id. *)
Lemma ownership_scoping_witness :
  let s := Sample.one_event in
  (forall startDate endDate e',
      In e' (MemStorage.getEvents s "bob" startDate endDate) ->
      Event.userId e' = "bob")
  /\ MemStorage.getEvent s "e1" "alice" <> None
  /\ MemStorage.getEvent s "e1" "bob" = None
  /\ (forall updates now,
         MemStorage.updateEvent s "e1" "bob" updates now = (None, s))
  /\ MemStorage.deleteEvent s "e1" "bob" = (false, s).
Proof.
  pose proof (ownership_scoping Sample.one_event "e1" "alice" "bob"
                (fst (MemStorage.createEvent MemStorage.empty "e1"
                        1704000000000 1704000000000 "alice" Sample.standup))
                eq_refl eq_refl ltac:(discriminate)) as H.
  cbv zeta. destruct H as (H1 & H2 & H3 & H4 & _).
  repeat split; auto.
  - intros sd ed e' Hin. now apply (H1 sd ed e').
  - discriminate.
Defined.

(** ** Sessions *)

Lemma with_sessions_same s : MemStorage.with_sessions s (MemStorage.sessions s) = s.
Proof. now destruct s. Qed.

Lemma getSession_live s now token session :
  MemStorage.getSession s now token = Some session ->
  JsMap.get token (MemStorage.sessions s) = Some session
  /\ now < UserSession.expiresAt session.
Proof.
  unfold MemStorage.getSession.
  destruct (JsMap.get token (MemStorage.sessions s)) as [x|]; [|discriminate].
  destruct (Z.gtb_spec (UserSession.expiresAt x) now); [|discriminate].
  intros [= ->]. auto.
Qed.

(** C2. A session whose [expiresAt] is before the check time is not
    returned; after [deleteSession] the token resolves to nothing at any
    later check; deleting a token that is not stored leaves the store as it
    was, so deleting twice is deleting once. *)
Theorem session_lifecycle (s : MemStorage.t) (token : string) :
  (forall (session : UserSession.t) (now : Date),
      JsMap.get token (MemStorage.sessions s) = Some session ->
      UserSession.expiresAt session < now ->
      MemStorage.getSession s now token = None)
  /\ (forall now : Date,
         MemStorage.getSession (MemStorage.deleteSession s token) now token
         = None)
  /\ (JsMap.get token (MemStorage.sessions s) = None ->
      MemStorage.deleteSession s token = s)
  /\ MemStorage.deleteSession (MemStorage.deleteSession s token) token
     = MemStorage.deleteSession s token.
Proof.
  repeat split.
  - intros session now Hget Hpast. unfold MemStorage.getSession.
    rewrite Hget.
    destruct (Z.gtb_spec (UserSession.expiresAt session) now); [lia|easy].
  - intros now. unfold MemStorage.getSession, MemStorage.deleteSession.
    simpl. now rewrite JsMap_get_remove_same.
  - intros Habsent. unfold MemStorage.deleteSession. simpl.
    rewrite JsMap_remove_absent by assumption. apply with_sessions_same.
  - unfold MemStorage.deleteSession. simpl.
    rewrite (JsMap_remove_absent token (JsMap.remove token _)); auto.
    apply JsMap_get_remove_same.
Qed.

(** The session of [Sample.one_session] expires at 2000: it is gone at 2001,
    gone after logout, and a second logout changes nothing. *)
Lemma session_lifecycle_witness :
  MemStorage.getSession Sample.one_session 1999 "c0ffee" <> None
  /\ MemStorage.getSession Sample.one_session 2001 "c0ffee" = None
  /\ MemStorage.getSession
       (MemStorage.deleteSession Sample.one_session "c0ffee") 1999 "c0ffee"
     = None
  /\ MemStorage.deleteSession Sample.one_session "absent"
     = Sample.one_session.
Proof.
  destruct (session_lifecycle Sample.one_session "c0ffee") as (H1 & H2 & _).
  destruct (session_lifecycle Sample.one_session "absent") as (_ & _ & H3 & _).
  split; [|split; [|split]].
  - discriminate.
  - eapply H1; [reflexivity|]. simpl. lia.
  - apply H2.
  - apply H3. reflexivity.
Defined.

(** ** The two backends on sessions *)

Section Backends.
Implicit Types (rows : list UserSession.t) (token : string) (now : Date).

Let has_token token (r : UserSession.t) : bool :=
  String.eqb (UserSession.sessionToken r) token.

Lemma live_session_absent rows token now :
  ~ In token (map UserSession.sessionToken rows) ->
  filter (DatabaseStorage.live_session token now) rows = [].
Proof.
  induction rows as [|r rows IH]; simpl; auto.
  intros Hnot. unfold DatabaseStorage.live_session at 1.
  destruct (String.eqb_spec (UserSession.sessionToken r) token); simpl.
  - exfalso. apply Hnot. now left.
  - apply IH. tauto.
Qed.

Lemma db_getSession_find rows token now :
  NoDup (map UserSession.sessionToken rows) ->
  hd_error (filter (DatabaseStorage.live_session token now) rows)
  = match find (has_token token) rows with
    | Some r => if UserSession.expiresAt r >=? now then Some r else None
    | None => None
    end.
Proof.
  induction rows as [|r rows IH]; simpl; auto.
  intros Hnd. inversion Hnd as [|? ? Hnot Hnd']; subst.
  unfold DatabaseStorage.live_session at 1. unfold has_token at 1.
  destruct (String.eqb_spec (UserSession.sessionToken r) token) as [<-|];
    simpl.
  - destruct (UserSession.expiresAt r >=? now); simpl; auto.
    now rewrite live_session_absent.
  - now apply IH.
Qed.

Lemma find_app_fresh rows token (r : UserSession.t) :
  find (has_token token) (rows ++ [r])
  = match find (has_token token) rows with
    | Some x => Some x
    | None => if has_token token r then Some r else None
    end.
Proof.
  induction rows as [|x rows IH]; simpl; auto.
  now destruct (has_token token x).
Qed.

Lemma existsb_find_token rows token :
  existsb (fun r => String.eqb (UserSession.sessionToken r) token) rows
  = false ->
  find (has_token token) rows = None
  /\ ~ In token (map UserSession.sessionToken rows).
Proof.
  induction rows as [|x rows IH]; simpl; auto.
  unfold has_token at 1.
  destruct (String.eqb_spec (UserSession.sessionToken x) token); simpl;
    [discriminate|].
  intros H. destruct (IH H). split; auto. tauto.
Qed.

Lemma find_filter_other rows token token' :
  find (has_token token')
    (filter (fun r => negb (String.eqb (UserSession.sessionToken r) token))
       rows)
  = if String.eqb token token' then None else find (has_token token') rows.
Proof.
  induction rows as [|x rows IH]; simpl.
  - now destruct (String.eqb token token').
  - unfold has_token at 2.
    destruct (String.eqb_spec (UserSession.sessionToken x) token) as [E|E];
      simpl.
    + rewrite IH.
      destruct (String.eqb_spec token token') as [E'|E']; auto.
      destruct (String.eqb_spec (UserSession.sessionToken x) token');
        congruence.
    + unfold has_token at 1.
      destruct (String.eqb_spec (UserSession.sessionToken x) token') as [E'|E'].
      * destruct (String.eqb_spec token token'); congruence.
      * apply IH.
Qed.

End Backends.

Lemma same_sessions_empty :
  DatabaseStorage.same_sessions MemStorage.empty DatabaseStorage.empty.
Proof. split; [constructor|reflexivity]. Qed.

(** [createSession] keeps the two backends in step whenever the insert
    succeeds in the database. *)
Lemma same_sessions_createSession mem db uuid now insertSession session db' :
  DatabaseStorage.same_sessions mem db ->
  DatabaseStorage.createSession db uuid now insertSession
  = Some (session, db') ->
  fst (MemStorage.createSession mem uuid now insertSession) = session
  /\ DatabaseStorage.same_sessions
       (snd (MemStorage.createSession mem uuid now insertSession)) db'.
Proof.
  intros [Hnd Hsame]. unfold DatabaseStorage.createSession.
  destruct (existsb _ (DatabaseStorage.userSessions db)); [discriminate|].
  destruct (negb _); [discriminate|].
  destruct (existsb _ (DatabaseStorage.userSessions db)) eqn:Hfresh;
    [discriminate|].
  intros [= <- <-]. simpl in *.
  apply existsb_find_token in Hfresh. destruct Hfresh as [Hfind Hnot].
  split; [reflexivity|]. split; simpl.
  - rewrite map_app. simpl.
    apply NoDup_rev in Hnd. rewrite <- (rev_involutive (_ ++ _)).
    apply NoDup_rev. rewrite rev_app_distr. simpl.
    constructor; auto. now rewrite <- in_rev.
  - intros token. rewrite find_app_fresh. simpl.
    destruct (String.eqb_spec (InsertSession.sessionToken insertSession) token)
      as [<-|Hother].
    + now rewrite JsMap_get_set_same, Hfind.
    + rewrite JsMap_get_set_other by assumption. rewrite Hsame.
      match goal with |- ?x = _ => now destruct x end.
Qed.

Lemma same_sessions_deleteSession mem db token :
  DatabaseStorage.same_sessions mem db ->
  DatabaseStorage.same_sessions (MemStorage.deleteSession mem token)
    (DatabaseStorage.deleteSession db token).
Proof.
  intros [Hnd Hsame]. split; simpl.
  - clear Hsame. induction (DatabaseStorage.userSessions db) as [|r rows IH];
      simpl; [constructor|].
    inversion Hnd as [|? ? Hnot Hnd']; subst.
    destruct (String.eqb (UserSession.sessionToken r) token); simpl; auto.
    constructor; auto.
    intros Hin. apply Hnot. apply in_map_iff in Hin.
    destruct Hin as (x & Hx & Hin). apply filter_In in Hin.
    apply in_map_iff. exists x. tauto.
  - intros token'. rewrite find_filter_other.
    destruct (String.eqb_spec token token') as [<-|Hother].
    + apply JsMap_get_remove_same.
    + rewrite JsMap_get_remove_other by assumption. apply Hsame.
Qed.

Lemma sample_same_sessions :
  DatabaseStorage.same_sessions Sample.one_session Sample.one_session_db.
Proof.
  split; simpl.
  - repeat constructor. simpl. tauto.
  - intros token. now rewrite String.eqb_sym.
Qed.

(** C4. On stores that hold the same sessions, a session whose [expiresAt]
    equals the check time is returned by [DatabaseStorage.getSession] and
    not by [MemStorage.getSession]; whenever the token is unknown or its
    session expires at another instant, the two return the same. *)
Theorem getSession_expiry_boundary (mem : MemStorage.t)
  (db : DatabaseStorage.t) (token : string) (now : Date) :
  DatabaseStorage.same_sessions mem db ->
  (forall session,
      JsMap.get token (MemStorage.sessions mem) = Some session ->
      UserSession.expiresAt session = now ->
      DatabaseStorage.getSession db now token = Some session
      /\ MemStorage.getSession mem now token = None)
  /\ ((forall session,
          JsMap.get token (MemStorage.sessions mem) = Some session ->
          UserSession.expiresAt session <> now) ->
      DatabaseStorage.getSession db now token
      = MemStorage.getSession mem now token).
Proof.
  intros [Hnd Hsame].
  unfold DatabaseStorage.getSession, MemStorage.getSession.
  rewrite db_getSession_find by assumption. rewrite <- Hsame.
  split.
  - intros session -> <-.
    rewrite Z.geb_leb, Z.leb_refl.
    destruct (Z.gtb_spec (UserSession.expiresAt session)
                (UserSession.expiresAt session)); [lia|auto].
  - intros Hnever.
    destruct (JsMap.get token (MemStorage.sessions mem)) as [session|]; auto.
    specialize (Hnever session eq_refl).
    destruct (Z.geb_spec (UserSession.expiresAt session) now),
             (Z.gtb_spec (UserSession.expiresAt session) now); auto; lia.
Qed.

(** A session that expires at 2000, checked at 2000 and at 1999. *)
Lemma getSession_expiry_boundary_witness :
  DatabaseStorage.same_sessions Sample.one_session Sample.one_session_db
  /\ DatabaseStorage.getSession Sample.one_session_db 2000 "c0ffee"
     = Some (UserSession.mk "s1" "alice" "c0ffee" 2000 1000)
  /\ MemStorage.getSession Sample.one_session 2000 "c0ffee" = None
  /\ DatabaseStorage.getSession Sample.one_session_db 1999 "c0ffee"
     = MemStorage.getSession Sample.one_session 1999 "c0ffee".
Proof.
  split; [exact sample_same_sessions|].
  destruct (getSession_expiry_boundary Sample.one_session
              Sample.one_session_db "c0ffee" 2000 sample_same_sessions)
    as [Hat _].
  destruct (getSession_expiry_boundary Sample.one_session
              Sample.one_session_db "c0ffee" 1999 sample_same_sessions)
    as [_ Hoff].
  split; [|split].
  - apply Hat; reflexivity.
  - apply (Hat (UserSession.mk "s1" "alice" "c0ffee" 2000 1000));
      reflexivity.
  - apply Hoff. intros session [= <-]. simpl. lia.
Defined.

(** ** Statistics *)

Section Counting.
Implicit Types (counts : JsMap.t Z) (l : list Event.t) (e : Event.t).

Let sum counts : Z := fold_right Z.add 0 (JsMap.values counts).

(** What the loop maintains: the map is a map, it holds the tally of every
    category seen so far and nothing else, and its values add up to the
    number of events seen. *)
Let counted counts l : Prop :=
  JsMap.wf counts
  /\ (forall c, JsMap.get c counts
                = if tally c l =? 0 then None else Some (tally c l))
  /\ sum counts = Z.of_nat (List.length l).

Lemma number_or_zero_id (n : Z) : Js.number_or_zero (Some n) = n.
Proof. simpl. destruct (Z.eqb_spec n 0); congruence. Qed.

Lemma sum_set k v counts :
  sum (JsMap.set k v counts)
  = sum counts - Js.number_or_zero (JsMap.get k counts) + v.
Proof.
  unfold sum. induction counts as [|[k' v'] m IH]; simpl.
  - lia.
  - destruct (String.eqb k k'); simpl.
    + fold (Js.number_or_zero (Some v')). rewrite number_or_zero_id. lia.
    + rewrite IH. lia.
Qed.

Lemma tally_snoc c l e :
  tally c (l ++ [e])
  = tally c l + (if String.eqb (Event.category e) c then 1 else 0).
Proof.
  unfold tally. rewrite filter_app, length_app. simpl.
  destruct (String.eqb (Event.category e) c); simpl; lia.
Qed.

Lemma tally_nonneg c l : 0 <= tally c l.
Proof. unfold tally. lia. Qed.

Lemma counted_step counts l e :
  counted counts l -> counted (MemStorage.count_event counts e) (l ++ [e]).
Proof.
  intros (Hwf & Hget & Hsum). unfold MemStorage.count_event.
  split; [|split].
  - now apply JsMap_wf_set.
  - intros c. rewrite tally_snoc. pose proof (tally_nonneg c l) as Hpos.
    destruct (String.eqb_spec (Event.category e) c) as [<-|Hother].
    + rewrite JsMap_get_set_same, Hget.
      destruct (Z.eqb_spec (tally (Event.category e) l) 0) as [->|Hnz].
      * reflexivity.
      * rewrite number_or_zero_id.
        destruct (Z.eqb_spec (tally (Event.category e) l + 1) 0); [lia|].
        reflexivity.
    + rewrite JsMap_get_set_other by assumption. rewrite Hget.
      now rewrite Z.add_0_r.
  - rewrite sum_set, Hsum, length_app. simpl. lia.
Qed.

Lemma counted_fold l : forall counts seen,
  counted counts seen ->
  counted (fold_left MemStorage.count_event l counts) (seen ++ l).
Proof.
  induction l as [|e l IH]; intros counts seen H; simpl.
  - now rewrite app_nil_r.
  - replace (seen ++ e :: l) with ((seen ++ [e]) ++ l)
      by now rewrite <- app_assoc.
    apply IH. now apply counted_step.
Qed.

Lemma counted_entries counts l :
  counted counts l ->
  let stats :=
    map (fun '(category, count) => CategoryCount.mk category count)
        (JsMap.entries counts) in
  total stats = Z.of_nat (List.length l)
  /\ NoDup (map CategoryCount.category stats)
  /\ (forall r, In r stats ->
        CategoryCount.count r = tally (CategoryCount.category r) l
        /\ CategoryCount.count r > 0).
Proof.
  intros (Hwf & Hget & Hsum). cbv zeta. unfold JsMap.entries.
  split; [|split].
  - rewrite <- Hsum. unfold sum, JsMap.values. clear.
    induction counts as [|[k v] m IH]; simpl; congruence.
  - replace (map CategoryCount.category _) with (JsMap.keys counts);
      [exact Hwf|].
    unfold JsMap.keys. rewrite map_map. apply map_ext. now intros [k v].
  - intros r Hin. apply in_map_iff in Hin.
    destruct Hin as ([k v] & <- & Hin). simpl.
    assert (JsMap.get k counts = Some v) as Hk.
    { clear Hget Hsum. unfold JsMap.wf in Hwf.
      induction counts as [|[k' v'] m IH]; simpl in *; [tauto|].
      inversion Hwf as [|? ? Hnot Hnd]; subst.
      destruct Hin as [[= -> ->]|Hin].
      - now rewrite String.eqb_refl.
      - destruct (String.eqb_spec k k') as [->|]; auto.
        exfalso. apply Hnot. change k' with (fst (k', v)).
        now apply in_map. }
    rewrite Hget in Hk. pose proof (tally_nonneg k l).
    destruct (Z.eqb_spec (tally k l) 0); [discriminate|].
    injection Hk as <-. split; [reflexivity|lia].
Qed.

End Counting.

(** *** The grouping of the database *)

Lemma tally_cons c e l :
  tally c (e :: l)
  = (if String.eqb (Event.category e) c then 1 else 0) + tally c l.
Proof.
  unfold tally. cbn [filter].
  destruct (String.eqb (Event.category e) c); cbn [List.length]; lia.
Qed.

Lemma tally_In e l : In e l -> tally (Event.category e) l > 0.
Proof.
  induction l as [|x l IH]; [contradiction|].
  intros [->|Hin]; rewrite tally_cons.
  - rewrite String.eqb_refl. pose proof (tally_nonneg (Event.category e) l).
    lia.
  - specialize (IH Hin). destruct (String.eqb _ _); lia.
Qed.

Lemma total_cons r stats :
  total (r :: stats) = CategoryCount.count r + total stats.
Proof. reflexivity. Qed.

Lemma total_groups_cons (groups : list string) e l :
  NoDup groups ->
  total (map (fun c => CategoryCount.mk c (tally c (e :: l))) groups)
  = (if in_dec string_dec (Event.category e) groups then 1 else 0)
    + total (map (fun c => CategoryCount.mk c (tally c l)) groups).
Proof.
  induction 1 as [|c groups Hnot Hnodup IH].
  - reflexivity.
  - cbn [map]. rewrite !total_cons, IH. cbn [CategoryCount.count].
    rewrite tally_cons.
    destruct (in_dec string_dec (Event.category e) (c :: groups))
      as [Hin|Hout];
      destruct (in_dec string_dec (Event.category e) groups) as [Hin'|Hout'];
      destruct (String.eqb_spec (Event.category e) c) as [Heq|Hne];
      try lia; exfalso; cbn [In] in *; intuition congruence.
Qed.

Lemma total_groups (groups : list string) (l : list Event.t) :
  NoDup groups ->
  (forall e, In e l -> In (Event.category e) groups) ->
  total (map (fun c => CategoryCount.mk c (tally c l)) groups)
  = Z.of_nat (List.length l).
Proof.
  intros Hnodup. induction l as [|e l IH]; intros Hcover.
  - clear. induction groups as [|c groups IH]; [reflexivity|].
    cbn [map]. now rewrite total_cons, IH.
  - rewrite total_groups_cons by exact Hnodup.
    rewrite IH by (intros x Hx; apply Hcover; now right).
    destruct (in_dec string_dec (Event.category e) groups) as [_|Hout].
    + cbn [List.length]. lia.
    + exfalso. apply Hout, Hcover. now left.
Qed.

Lemma db_getEventCountsByCategory_groups db userId :
  DatabaseStorage.getEventCountsByCategory db userId
  = map (fun c => CategoryCount.mk c (tally c (owned_rows db userId)))
      (nodup string_dec (map Event.category (owned_rows db userId))).
Proof. reflexivity. Qed.

(** C5. In both storage classes, the counts of [getEventCountsByCategory]
    add up to the number of events the user owns; no category is listed
    twice; every listed count is the number of owned events of that
    category and is positive, so a category without owned events is not
    listed. *)
Theorem countByCategory_aggregation (userId : string) :
  (forall s : MemStorage.t,
      let stats := MemStorage.getEventCountsByCategory s userId in
      total stats = Z.of_nat (List.length (owned_events s userId))
      /\ NoDup (map CategoryCount.category stats)
      /\ (forall r, In r stats ->
            CategoryCount.count r
            = tally (CategoryCount.category r) (owned_events s userId)
            /\ CategoryCount.count r > 0))
  /\ (forall db : DatabaseStorage.t,
         let stats := DatabaseStorage.getEventCountsByCategory db userId in
         total stats = Z.of_nat (List.length (owned_rows db userId))
         /\ NoDup (map CategoryCount.category stats)
         /\ (forall r, In r stats ->
               CategoryCount.count r
               = tally (CategoryCount.category r) (owned_rows db userId)
               /\ CategoryCount.count r > 0)).
Proof.
  split.
  - intros s. unfold MemStorage.getEventCountsByCategory.
    rewrite owned_by_filter.
    apply counted_entries.
    apply (counted_fold (owned_events s userId) JsMap.empty []).
    split; [constructor|split; reflexivity].
  - intros db. cbv zeta. rewrite db_getEventCountsByCategory_groups.
    split; [|split].
    + apply total_groups; [apply NoDup_nodup|].
      intros e He. apply nodup_In. now apply in_map.
    + rewrite map_map. cbn [CategoryCount.category]. rewrite map_id.
      apply NoDup_nodup.
    + intros r Hr. apply in_map_iff in Hr. destruct Hr as (c & <- & Hc).
      cbn [CategoryCount.category CategoryCount.count].
      split; [reflexivity|].
      apply nodup_In, in_map_iff in Hc. destruct Hc as (e & <- & He).
      now apply tally_In.
Qed.

Example countByCategory_three_events :
  MemStorage.getEventCountsByCategory Sample.three_events "alice"
  = [CategoryCount.mk "work" 1; CategoryCount.mk "health" 1]
  /\ MemStorage.getEventCountsByCategory Sample.three_events "carol" = [].
Proof. split; reflexivity. Qed.

Example countByCategory_three_rows :
  DatabaseStorage.getEventCountsByCategory Sample.three_rows "alice"
  = [CategoryCount.mk "work" 1; CategoryCount.mk "health" 1]
  /\ DatabaseStorage.getEventCountsByCategory Sample.three_rows "carol" = [].
Proof. split; reflexivity. Qed.

(** ** Creating and reading back *)

(** What the round trip does keep: the generated id and the two clock
    readings are on the row, the required fields and the nullable dates are
    the input's, an optional field that was given a truthy value has that
    value, and an omitted optional field has its default. *)
Lemma createEvent_getEvent_roundtrip (s : MemStorage.t) (uuid : string)
  (createdAt updatedAt : Date) (userId : string) (i : InsertEvent.t) :
  let (e, s') := MemStorage.createEvent s uuid createdAt updatedAt userId i in
  MemStorage.getEvent s' (Event.id e) userId = Some e
  /\ Event.id e = uuid /\ Event.userId e = userId
  /\ Event.createdAt e = createdAt /\ Event.updatedAt e = updatedAt
  /\ Event.title e = InsertEvent.title i
  /\ Event.startDate e = InsertEvent.startDate i
  /\ Event.endDate e = InsertEvent.endDate i
  /\ Event.recurringEndDate e = InsertEvent.recurringEndDate i
  /\ (forall d, InsertEvent.description i = Some (Some d) -> d <> "" ->
                Event.description e = Some d)
  /\ (forall c, InsertEvent.category i = Some c -> c <> "" ->
                Event.category e = c)
  /\ (forall b, InsertEvent.isRecurring i = Some (Some b) ->
                Event.isRecurring e = Some b)
  /\ (forall p, InsertEvent.recurringPattern i = Some (Some p) -> p <> "" ->
                Event.recurringPattern e = Some p)
  /\ (forall x, InsertEvent.encryptedData i = Some (Some x) -> x <> "" ->
                Event.encryptedData e = Some x)
  /\ (InsertEvent.description i = None -> Event.description e = None)
  /\ (InsertEvent.category i = None -> Event.category e = "personal")
  /\ (InsertEvent.isRecurring i = None -> Event.isRecurring e = Some false)
  /\ (InsertEvent.recurringPattern i = None ->
      Event.recurringPattern e = None)
  /\ (InsertEvent.encryptedData i = None -> Event.encryptedData e = None).
Proof.
  assert (forall x, x <> "" -> JsString.truthy x = true) as Htruthy.
  { intros x Hx. unfold JsString.truthy.
    now destruct (String.eqb_spec x ""). }
  simpl. unfold MemStorage.getEvent. simpl.
  rewrite JsMap_get_set_same. simpl. rewrite String.eqb_refl.
  repeat split; try (now destruct (InsertEvent.endDate i));
    try (now destruct (InsertEvent.recurringEndDate i));
    try (intros x -> Hx; simpl; now rewrite Htruthy);
    try (intros ->; reflexivity).
  intros [|] ->; reflexivity.
Qed.

(** C6, at an input the schema accepts: the description is the empty string.
    The row read back has no description ([x || null] takes the empty string
    for absent), where the round trip promises the input's value; the
    database path stores the empty string as given. *)
Theorem createEvent_blank_description_lost :
  let i := Sample.blank_description in
  let (e, s) :=
    MemStorage.createEvent MemStorage.empty "e1" 1704000000000 1704000000000
      "alice" i in
  InsertEvent.description i = Some (Some "")
  /\ MemStorage.getEvent s (Event.id e) "alice" = Some e
  /\ Event.description e = None
  /\ option_map (fun r => Event.description (fst r))
       (DatabaseStorage.createEvent Sample.one_session_db "e1" 1704000000000
          "alice" i)
     = Some (Some "").
Proof. repeat split. Qed.

(** ** Updating *)

Lemma spread_twice {A : Type} (old : A) (upd : Optional A) :
  Js.spread (Js.spread old upd) upd = Js.spread old upd.
Proof. now destruct upd. Qed.

Lemma updated_twice e updates now1 now2 :
  MemStorage.updated (MemStorage.updated e updates now1) updates now2
  = with_updatedAt (MemStorage.updated e updates now1) now2.
Proof.
  unfold MemStorage.updated, with_updatedAt. simpl.
  now rewrite !spread_twice.
Qed.

Lemma updated_later e updates now1 now2 :
  with_updatedAt (MemStorage.updated e updates now1) now2
  = MemStorage.updated e updates now2.
Proof. reflexivity. Qed.

(** *** The [update] statement *)

Lemma set_columns_updated e updates now :
  DatabaseStorage.set_columns e updates now
  = MemStorage.updated e updates now.
Proof. reflexivity. Qed.

Lemma db_update_returning id userId updates now rows :
  filter (DatabaseStorage.event_hit id userId)
    (map (fun e => if DatabaseStorage.event_hit id userId e
                   then DatabaseStorage.set_columns e updates now else e)
       rows)
  = map (fun e => DatabaseStorage.set_columns e updates now)
      (filter (DatabaseStorage.event_hit id userId) rows).
Proof.
  induction rows as [|e rows IH]; [reflexivity|]. cbn [map filter].
  destruct (DatabaseStorage.event_hit id userId e) eqn:Hhit.
  - change (DatabaseStorage.event_hit id userId
              (DatabaseStorage.set_columns e updates now))
      with (DatabaseStorage.event_hit id userId e).
    rewrite Hhit. cbn [map]. now rewrite IH.
  - now rewrite Hhit.
Qed.

Lemma db_update_twice id userId updates now1 now2 rows :
  map (fun e => if DatabaseStorage.event_hit id userId e
                then DatabaseStorage.set_columns e updates now2 else e)
    (map (fun e => if DatabaseStorage.event_hit id userId e
                   then DatabaseStorage.set_columns e updates now1 else e)
       rows)
  = map (fun e => if DatabaseStorage.event_hit id userId e
                  then DatabaseStorage.set_columns e updates now2 else e)
      rows.
Proof.
  rewrite map_map. apply map_ext. intros e.
  destruct (DatabaseStorage.event_hit id userId e) eqn:Hhit.
  - change (DatabaseStorage.event_hit id userId
              (DatabaseStorage.set_columns e updates now1))
      with (DatabaseStorage.event_hit id userId e).
    rewrite Hhit, !set_columns_updated, updated_twice. reflexivity.
  - now rewrite Hhit.
Qed.

Lemma db_update_miss id userId updates now rows :
  (forall e, In e rows -> Event.id e = id -> Event.userId e <> userId) ->
  map (fun e => if DatabaseStorage.event_hit id userId e
                then DatabaseStorage.set_columns e updates now else e) rows
  = rows
  /\ filter (DatabaseStorage.event_hit id userId) rows = [].
Proof.
  intros Hmiss.
  assert (forall e, In e rows -> DatabaseStorage.event_hit id userId e = false)
    as Hfalse.
  { intros e He. unfold DatabaseStorage.event_hit.
    destruct (String.eqb_spec (Event.id e) id) as [Hid|]; [|reflexivity].
    apply String.eqb_neq. now apply Hmiss. }
  clear Hmiss. induction rows as [|e rows IH]; [now split|].
  cbn [map filter]. rewrite (Hfalse e) by now left.
  destruct IH as [-> ->]; [|now split].
  intros x Hx. apply Hfalse. now right.
Qed.

(** C7. In both storage classes: on an event the caller owns, a partial
    update applied a second time returns and stores the row of the first
    application with only [updatedAt] moved to the second clock reading, and
    leaves the store as one application at that reading would; [updatedAt]
    does not go back when the clock does not.  A successful [updateEvent]
    stores the row it returns, with [updatedAt] the clock reading; on an
    unknown id or somebody else's event it returns nothing and changes
    nothing. *)
Theorem updateEvent_idempotent (id userId : string)
  (updates : PartialInsertEvent.t) :
  (forall s : MemStorage.t,
      (forall (e : Event.t) (now1 now2 : Date),
          JsMap.get id (MemStorage.events s) = Some e ->
          Event.userId e = userId ->
          let (r1, s1) := MemStorage.updateEvent s id userId updates now1 in
          let (r2, s2) := MemStorage.updateEvent s1 id userId updates now2 in
          exists e1,
            r1 = Some e1
            /\ r2 = Some (with_updatedAt e1 now2)
            /\ JsMap.get id (MemStorage.events s2)
               = Some (with_updatedAt e1 now2)
            /\ (r2, s2) = MemStorage.updateEvent s id userId updates now2
            /\ (now1 <= now2 ->
                Event.updatedAt e1
                <= Event.updatedAt (with_updatedAt e1 now2)))
      /\ (forall (now : Date) (e' : Event.t),
             fst (MemStorage.updateEvent s id userId updates now) = Some e' ->
             Event.updatedAt e' = now
             /\ JsMap.get id
                  (MemStorage.events
                     (snd (MemStorage.updateEvent s id userId updates now)))
                = Some e')
      /\ (forall now : Date,
             JsMap.get id (MemStorage.events s) = None
             \/ (exists e, JsMap.get id (MemStorage.events s) = Some e
                           /\ Event.userId e <> userId) ->
             MemStorage.updateEvent s id userId updates now = (None, s)))
  /\ (forall db : DatabaseStorage.t,
         (forall (e : Event.t) (now1 now2 : Date),
             In e (DatabaseStorage.events db) ->
             Event.id e = id ->
             Event.userId e = userId ->
             let (r1, db1) :=
               DatabaseStorage.updateEvent db id userId updates now1 in
             let (r2, db2) :=
               DatabaseStorage.updateEvent db1 id userId updates now2 in
             exists e1,
               r1 = Some e1
               /\ r2 = Some (with_updatedAt e1 now2)
               /\ DatabaseStorage.getEvent db2 id userId
                  = Some (with_updatedAt e1 now2)
               /\ (r2, db2)
                  = DatabaseStorage.updateEvent db id userId updates now2
               /\ (now1 <= now2 ->
                   Event.updatedAt e1
                   <= Event.updatedAt (with_updatedAt e1 now2)))
         /\ (forall (now : Date) (e' : Event.t),
                fst (DatabaseStorage.updateEvent db id userId updates now)
                = Some e' ->
                Event.updatedAt e' = now
                /\ DatabaseStorage.getEvent
                     (snd (DatabaseStorage.updateEvent db id userId updates
                             now)) id userId
                   = Some e')
         /\ (forall now : Date,
                (forall e, In e (DatabaseStorage.events db) ->
                           Event.id e = id -> Event.userId e <> userId) ->
                DatabaseStorage.updateEvent db id userId updates now
                = (None, db))).
Proof.
  split.
  - intros s. split; [|split].
    + intros e now1 now2 Hget Hown. unfold MemStorage.updateEvent.
      rewrite Hget. apply String.eqb_eq in Hown. rewrite Hown. simpl.
      rewrite JsMap_get_set_same. simpl. rewrite Hown. simpl.
      exists (MemStorage.updated e updates now1).
      rewrite updated_twice, JsMap_get_set_same, JsMap_set_set, updated_later.
      repeat split. simpl. auto.
    + intros now e'. unfold MemStorage.updateEvent.
      destruct (JsMap.get id (MemStorage.events s)) as [e|]; [|discriminate].
      destruct (String.eqb (Event.userId e) userId); simpl; [|discriminate].
      intros [= <-]. split; [reflexivity|apply JsMap_get_set_same].
    + intros now [Hnone|(e & Hget & Hother)]; unfold MemStorage.updateEvent.
      * now rewrite Hnone.
      * rewrite Hget. apply String.eqb_neq in Hother. now rewrite Hother.
  - intros db. split; [|split].
    + intros e now1 now2 Hin Hid Hown.
      unfold DatabaseStorage.updateEvent, DatabaseStorage.getEvent.
      cbn [DatabaseStorage.events DatabaseStorage.users
           DatabaseStorage.reminders DatabaseStorage.userSessions].
      rewrite db_update_twice, !db_update_returning.
      destruct (filter (DatabaseStorage.event_hit id userId)
                  (DatabaseStorage.events db)) as [|e0 hits] eqn:Hhits.
      * exfalso. assert (In e []) as Hfalse; [|exact Hfalse].
        rewrite <- Hhits. apply filter_In. split; [exact Hin|].
        unfold DatabaseStorage.event_hit.
        now rewrite Hid, Hown, !String.eqb_refl.
      * cbn [map hd_error].
        exists (DatabaseStorage.set_columns e0 updates now1).
        repeat split. cbn. auto.
    + intros now e'.
      unfold DatabaseStorage.updateEvent, DatabaseStorage.getEvent.
      cbn [fst snd DatabaseStorage.events]. intros Hret.
      split; [|exact Hret].
      rewrite db_update_returning in Hret.
      destruct (filter _ _) as [|e0 hits]; [discriminate|].
      cbn [map hd_error] in Hret. now injection Hret as <-.
    + intros now Hmiss. unfold DatabaseStorage.updateEvent.
      rewrite db_update_returning.
      destruct (db_update_miss id userId updates now _ Hmiss) as [-> ->].
      now destruct db.
Qed.

(** Alice renames her event at 5 and again at 9; Bob's attempt and an
    unknown id change nothing. *)
Lemma updateEvent_idempotent_witness :
  (let s := Sample.one_event in
   let (r1, s1) := MemStorage.updateEvent s "e1" "alice" Sample.rename 5 in
   let (r2, s2) := MemStorage.updateEvent s1 "e1" "alice" Sample.rename 9 in
   (exists e1, r1 = Some e1 /\ r2 = Some (with_updatedAt e1 9)
               /\ Event.updatedAt e1 <= Event.updatedAt (with_updatedAt e1 9))
   /\ MemStorage.updateEvent s "e1" "bob" Sample.rename 5 = (None, s)
   /\ MemStorage.updateEvent s "e0" "alice" Sample.rename 5 = (None, s))
  /\ (let db := Sample.one_row in
      let (r1, db1) :=
        DatabaseStorage.updateEvent db "e1" "alice" Sample.rename 5 in
      let (r2, db2) :=
        DatabaseStorage.updateEvent db1 "e1" "alice" Sample.rename 9 in
      (exists e1, r1 = Some e1 /\ r2 = Some (with_updatedAt e1 9)
                  /\ Event.updatedAt e1
                     <= Event.updatedAt (with_updatedAt e1 9))
      /\ DatabaseStorage.updateEvent db "e1" "bob" Sample.rename 5
         = (None, db)
      /\ DatabaseStorage.updateEvent db "e0" "alice" Sample.rename 5
         = (None, db)).
Proof.
  split; (split; [|split]).
  - destruct (updateEvent_idempotent "e1" "alice" Sample.rename)
      as (Hmem & _).
    destruct (Hmem Sample.one_event) as (Htwice & _).
    destruct (Htwice (fst (MemStorage.createEvent MemStorage.empty "e1"
                             1704000000000 1704000000000 "alice"
                             Sample.standup)) 5 9 eq_refl eq_refl)
      as (e1 & H1 & H2 & _ & _ & Hmono).
    exists e1. split; [exact H1|]. split; [exact H2|].
    apply Hmono. lia.
  - apply (updateEvent_idempotent "e1" "bob" Sample.rename).
    right. eexists. split; [reflexivity|discriminate].
  - apply (updateEvent_idempotent "e0" "alice" Sample.rename).
    left. reflexivity.
  - destruct (updateEvent_idempotent "e1" "alice" Sample.rename)
      as (_ & Hdb).
    destruct (Hdb Sample.one_row) as (Htwice & _).
    destruct (Htwice (fst (MemStorage.createEvent MemStorage.empty "e1"
                             1704000000000 1704000000000 "alice"
                             Sample.standup)) 5 9
                (or_introl eq_refl) eq_refl eq_refl)
      as (e1 & H1 & H2 & _ & _ & Hmono).
    exists e1. split; [exact H1|]. split; [exact H2|].
    apply Hmono. lia.
  - apply (updateEvent_idempotent "e1" "bob" Sample.rename).
    intros e [<-|[]] _. discriminate.
  - apply (updateEvent_idempotent "e0" "alice" Sample.rename).
    intros e [<-|[]]. discriminate.
Defined.

Example updateEvent_one_row :
  let (r, db) :=
    DatabaseStorage.updateEvent Sample.one_row "e1" "alice" Sample.rename 5 in
  option_map Event.title r = Some "Daily standup"
  /\ option_map Event.updatedAt r = Some 5
  /\ DatabaseStorage.getEvent db "e1" "alice" = r.
Proof. repeat split. Qed.

(** ** Categories *)

Lemma JsMap_values_set_Forall {V : Type} (P : V -> Prop) k v
  (m : JsMap.t V) :
  Forall P (JsMap.values m) -> P v -> Forall P (JsMap.values (JsMap.set k v m)).
Proof.
  unfold JsMap.values. intros Hm Hv.
  induction m as [|[k' v'] m IH]; simpl.
  - auto.
  - inversion Hm; subst. destruct (String.eqb k k'); simpl; auto.
Qed.

Lemma JsMap_values_remove_Forall {V : Type} (P : V -> Prop) k
  (m : JsMap.t V) :
  Forall P (JsMap.values m) -> Forall P (JsMap.values (JsMap.remove k m)).
Proof.
  unfold JsMap.values. intros Hm.
  induction m as [|[k' v'] m IH]; simpl; auto.
  inversion Hm; subst. destruct (String.eqb k k'); simpl; auto.
Qed.

Lemma JsMap_get_values {V : Type} k v (m : JsMap.t V) :
  JsMap.get k m = Some v -> In v (JsMap.values m).
Proof.
  intros H. apply JsMap_get_In in H. unfold JsMap.values.
  change v with (snd (k, v)). now apply in_map.
Qed.

(** C8. The category enumeration is not enforced: [insertEventSchema]
    accepts any string as category and the store persists it, so after
    creating an event with the category ["holiday"], or moving a stored
    event to it, a stored event carries a category that is none of work,
    personal, health and finance. *)
Lemma category_not_enforced :
  category_invariant MemStorage.empty
  /\ ~ category_invariant
         (snd (MemStorage.createEvent MemStorage.empty "e1" 1704000000000
                 1704000000000 "alice" Sample.holiday))
  /\ category_invariant Sample.one_event
  /\ ~ category_invariant
         (snd (MemStorage.updateEvent Sample.one_event "e1" "alice"
                 (PartialInsertEvent.mk None None None None (Some "holiday")
                    None None None None)
                 1704000005000)).
Proof.
  assert (~ In "holiday" categories) as Hout.
  { simpl. intros [H|[H|[H|[H|[]]]]]; discriminate. }
  unfold category_invariant. split; [|split; [|split]].
  - constructor.
  - intros H. apply Forall_inv in H. exact (Hout H).
  - constructor; [simpl; auto|constructor].
  - intros H. apply Forall_inv in H. exact (Hout H).
Qed.

(** No operation of the store introduces a category of its own: the
    category of a row is the one supplied ([createEvent]: ["personal"] in
    place of a falsy one; [updateEvent]: the stored one when the key is
    absent).  The stored categories therefore stay within the enumeration
    as long as the supplied ones do. *)
Theorem category_invariant_preserved (s : MemStorage.t) :
  category_invariant s ->
  (forall uuid createdAt updatedAt userId i,
      let e := fst (MemStorage.createEvent s uuid createdAt updatedAt
                      userId i) in
      Event.category e = Js.string_or (InsertEvent.category i) "personal"
      /\ ((forall c, InsertEvent.category i = Some c ->
                     c = "" \/ In c categories) ->
          category_invariant
            (snd (MemStorage.createEvent s uuid createdAt updatedAt
                    userId i))))
  /\ (forall id userId updates now,
         (forall e', fst (MemStorage.updateEvent s id userId updates now)
                     = Some e' ->
                     forall e, JsMap.get id (MemStorage.events s) = Some e ->
                     Event.category e'
                     = Js.spread (Event.category e)
                         (PartialInsertEvent.category updates))
         /\ ((forall c, PartialInsertEvent.category updates = Some c ->
                        In c categories) ->
             category_invariant
               (snd (MemStorage.updateEvent s id userId updates now))))
  /\ (forall id userId,
         category_invariant (snd (MemStorage.deleteEvent s id userId))).
Proof.
  unfold category_invariant. intros Hinv. split; [|split].
  - intros uuid createdAt updatedAt userId i. split; [reflexivity|].
    intros Hcat. simpl. apply JsMap_values_set_Forall; auto. simpl.
    unfold Js.string_or.
    destruct (InsertEvent.category i) as [c|]; [|simpl; auto].
    unfold JsString.truthy.
    destruct (String.eqb_spec c ""); simpl; auto.
    destruct (Hcat c eq_refl); [contradiction|assumption].
  - intros id userId updates now. unfold MemStorage.updateEvent.
    destruct (JsMap.get id (MemStorage.events s)) as [e|] eqn:Hget;
      [|split; [discriminate|auto]].
    destruct (String.eqb (Event.userId e) userId); simpl;
      [|split; [discriminate|auto]].
    split.
    + intros e' [= <-] e0 [= <-]. reflexivity.
    + intros Hcat. apply JsMap_values_set_Forall; auto. simpl.
      destruct (PartialInsertEvent.category updates) as [c|]; simpl; auto.
      rewrite Forall_forall in Hinv. apply Hinv.
      eapply JsMap_get_values; eauto.
  - intros id userId. unfold MemStorage.deleteEvent.
    destruct (JsMap.get id (MemStorage.events s)) as [e|]; auto.
    destruct (String.eqb (Event.userId e) userId); simpl; auto.
    now apply JsMap_values_remove_Forall.
Qed.

(** Alice's store with one work event: a health event is added and the
    first one is moved to finance. *)
Lemma category_invariant_preserved_witness :
  category_invariant Sample.one_event
  /\ category_invariant
       (snd (MemStorage.createEvent Sample.one_event "e3" 1704000002000
               1704000002000 "alice" Sample.dentist))
  /\ category_invariant
       (snd (MemStorage.updateEvent Sample.one_event "e1" "alice"
               (PartialInsertEvent.mk None None None None (Some "finance")
                  None None None None)
               1704000005000)).
Proof.
  assert (category_invariant Sample.one_event) as Hinv.
  { constructor; [simpl; auto|constructor]. }
  split; [exact Hinv|].
  destruct (category_invariant_preserved Sample.one_event Hinv)
    as (Hcreate & Hupdate & _).
  split.
  - apply Hcreate. intros c [= <-]. right. simpl. auto.
  - apply Hupdate. intros c [= <-]. simpl. auto.
Defined.

(** ** Reminders of a deleted event *)

Lemma deleteEvent_reminders s id userId :
  MemStorage.reminders (snd (MemStorage.deleteEvent s id userId))
  = MemStorage.reminders s.
Proof.
  unfold MemStorage.deleteEvent.
  destruct (JsMap.get id (MemStorage.events s)) as [e|]; auto.
  now destruct (String.eqb (Event.userId e) userId).
Qed.

(** In memory the reminders of an event outlive it. *)
Lemma deleteEvent_getEventReminders s id userId eventId :
  MemStorage.getEventReminders (snd (MemStorage.deleteEvent s id userId))
    eventId
  = MemStorage.getEventReminders s eventId.
Proof.
  unfold MemStorage.getEventReminders. now rewrite deleteEvent_reminders.
Qed.

Lemma filter_filter_nil {A : Type} (p q : A -> bool) (l : list A) :
  (forall x, p x = true -> q x = false) -> filter p (filter q l) = [].
Proof.
  intros Hpq. induction l as [|x l IH]; simpl; auto.
  destruct (q x) eqn:Hq; simpl; auto.
  destruct (p x) eqn:Hp; auto.
  rewrite (Hpq x Hp) in Hq. discriminate.
Qed.

(** In the database they go with it: once [deleteEvent] has removed a row,
    no reminder of that event is left. *)
Lemma db_deleteEvent_cascade db id userId :
  fst (DatabaseStorage.deleteEvent db id userId) = true ->
  DatabaseStorage.getEventReminders
    (snd (DatabaseStorage.deleteEvent db id userId)) id = [].
Proof.
  unfold DatabaseStorage.deleteEvent, DatabaseStorage.getEventReminders.
  cbn [fst snd DatabaseStorage.reminders].
  destruct (filter (DatabaseStorage.event_hit id userId)
              (DatabaseStorage.events db)) as [|e gone] eqn:Hgone;
    [discriminate|].
  intros _.
  assert (Event.id e = id) as He.
  { assert (In e (e :: gone)) as Hin by now left.
    rewrite <- Hgone in Hin. apply filter_In in Hin.
    destruct Hin as [_ Hhit]. unfold DatabaseStorage.event_hit in Hhit.
    apply andb_true_iff in Hhit. now apply String.eqb_eq. }
  apply filter_filter_nil. intros r Hr. apply String.eqb_eq in Hr.
  cbn [existsb]. rewrite He, Hr, String.eqb_refl. reflexivity.
Qed.

(** C9, at a store where Alice's event has a reminder: [deleteEvent]
    returns [true], the event is gone, and [getEventReminders] still
    returns the reminder. *)
Theorem deleteEvent_keeps_reminders :
  let s := Sample.with_reminder in
  let (deleted, s') := MemStorage.deleteEvent s "e1" "alice" in
  deleted = true
  /\ MemStorage.getEvent s' "e1" "alice" = None
  /\ MemStorage.getEventReminders s' "e1"
     = [Reminder.mk "r1" "e1" 15 (Some false) 1704000003000].
Proof. repeat split. Qed.

(** ** [replace] *)

Section ReplaceFacts.
Implicit Types (p r s t : string) (i : nat).

Lemma prefix_app p t : String.prefix p (p ++ t)%string = true.
Proof.
  induction p as [|c p IH]; simpl.
  - now destruct t.
  - destruct (ascii_dec c c); [exact IH|congruence].
Qed.

Lemma prefix_split p s :
  String.prefix p s = true -> exists t, s = (p ++ t)%string.
Proof.
  revert s. induction p as [|c p IH]; intros s H.
  - now exists s.
  - destruct s as [|d s]; simpl in H; [discriminate|].
    destruct (ascii_dec c d) as [<-|]; [|discriminate].
    destruct (IH s H) as [t ->]. now exists t.
Qed.

Lemma drop_app p t : JsString.drop (String.length p) (p ++ t)%string = t.
Proof. induction p; simpl; auto. Qed.

Lemma occurs_at_0 p s :
  JsString.occurs_at p 0 s <-> String.prefix p s = true.
Proof.
  split.
  - intros (pre & post & -> & Hlen).
    destruct pre; [|discriminate]. simpl. apply prefix_app.
  - intros H. destruct (prefix_split p s H) as [t ->].
    now exists EmptyString, t.
Qed.

Lemma occurs_at_S p i c s :
  JsString.occurs_at p (S i) (String c s) <-> JsString.occurs_at p i s.
Proof.
  split.
  - intros (pre & post & Heq & Hlen).
    destruct pre as [|d pre]; [discriminate|].
    simpl in Heq, Hlen. injection Heq as -> ->. injection Hlen as Hlen.
    now exists pre, post.
  - intros (pre & post & -> & <-). now exists (String c pre), post.
Qed.

Lemma replace_unfold p r s :
  JsString.replace p r s
  = if String.prefix p s
    then (r ++ JsString.drop (String.length p) s)%string
    else match s with
         | EmptyString => EmptyString
         | String c s' => String c (JsString.replace p r s')
         end.
Proof. now destruct s. Qed.

Lemma replace_prefix p r t :
  JsString.replace p r (p ++ t)%string = (r ++ t)%string.
Proof. now rewrite replace_unfold, prefix_app, drop_app. Qed.

(** [replace] rewrites the first occurrence and nothing else: either the
    pattern occurs, [pre] is what stands before its first occurrence and
    [post] what follows it, or it does not occur and the string is
    unchanged. *)
Lemma replace_first p r s :
  (exists pre post,
      s = (pre ++ p ++ post)%string
      /\ (forall i, (i < String.length pre)%nat -> ~ JsString.occurs_at p i s)
      /\ JsString.replace p r s = (pre ++ r ++ post)%string)
  \/ (~ JsString.occurs p s /\ JsString.replace p r s = s).
Proof.
  assert (forall s, String.prefix p s = true ->
            exists pre post,
              s = (pre ++ p ++ post)%string
              /\ (forall i, (i < String.length pre)%nat ->
                            ~ JsString.occurs_at p i s)
              /\ JsString.replace p r s = (pre ++ r ++ post)%string)
    as Hhead.
  { intros s0 Hp. destruct (prefix_split _ _ Hp) as [t ->].
    exists EmptyString, t. simpl. split; [reflexivity|].
    split; [intros i Hi; inversion Hi|apply replace_prefix]. }
  induction s as [|c s IH].
  - destruct (String.prefix p "") eqn:Hp.
    + left. now apply Hhead.
    + right. split; [|now rewrite replace_unfold, Hp].
      intros (i & pre & post & Heq & _).
      destruct pre; [|discriminate]. simpl in Heq.
      rewrite Heq, prefix_app in Hp. discriminate.
  - destruct (String.prefix p (String c s)) eqn:Hp.
    + left. now apply Hhead.
    + assert (~ JsString.occurs_at p 0 (String c s)) as H0.
      { rewrite occurs_at_0. congruence. }
      rewrite replace_unfold, Hp.
      destruct IH as [(pre & post & Heq & Hfirst & Hrep)|[Hnone Hrep]].
      * left. exists (String c pre), post. simpl.
        split; [congruence|]. split; [|congruence].
        intros [|i] Hi; [exact H0|].
        rewrite occurs_at_S. apply Hfirst. lia.
      * right. split; [|congruence].
        intros ([|i] & Hocc); [exact (H0 Hocc)|].
        apply occurs_at_S in Hocc. apply Hnone. now exists i.
Qed.

Lemma replace_absent p r s :
  ~ JsString.occurs p s -> JsString.replace p r s = s.
Proof.
  intros Hnone.
  destruct (replace_first p r s) as [(pre & post & Heq & _)|[_ H]]; auto.
  exfalso. apply Hnone. exists (String.length pre), pre, post. auto.
Qed.

Lemma is_hex_app s t :
  JsString.is_hex (s ++ t)%string = JsString.is_hex s && JsString.is_hex t.
Proof.
  induction s as [|c s IH]; simpl; auto.
  now rewrite IH, andb_assoc.
Qed.

(** A hexadecimal token holds no ["Bearer "]. *)
Lemma is_hex_no_bearer t :
  JsString.is_hex t = true -> ~ JsString.occurs "Bearer " t.
Proof.
  intros Hhex (i & pre & post & -> & _).
  rewrite is_hex_app in Hhex. apply andb_true_iff in Hhex.
  destruct Hhex as [_ Hhex]. simpl in Hhex. discriminate.
Qed.

End ReplaceFacts.

Example replace_examples :
  JsString.replace "Bearer " "" "Bearer c0ffee" = "c0ffee"
  /\ JsString.replace "Bearer " "" "c0ffee" = "c0ffee"
  /\ JsString.replace "Bearer " "" "Bearer Bearer c0ffee" = "Bearer c0ffee"
  /\ JsString.replace "Bearer " "" "Token Bearer c0ffee" = "Token c0ffee"
  /\ JsString.replace "Bearer " "" "bearer c0ffee" = "bearer c0ffee".
Proof. repeat split. Qed.

(** ** The tokens the routes issue *)

Lemma hex_of_byte_is_hex b : JsString.is_hex (JsString.hex_of_byte b) = true.
Proof. destruct b; reflexivity. Qed.

Lemma toString_hex_is_hex buffer :
  JsString.is_hex (JsString.toString_hex buffer) = true.
Proof.
  induction buffer as [|b buffer IH]; cbn [JsString.toString_hex]; auto.
  now rewrite is_hex_app, hex_of_byte_is_hex.
Qed.

Lemma toString_hex_length buffer :
  String.length (JsString.toString_hex buffer)
  = (2 * List.length buffer)%nat.
Proof.
  induction buffer as [|b buffer IH]; simpl; auto.
  rewrite IH. lia.
Qed.

Lemma tokens_issued_empty : tokens_issued MemStorage.empty.
Proof. constructor. Qed.

(** Creating the session of a login keeps the invariant. *)
Lemma tokens_issued_createSession s uuid now userId randomBytes :
  randomBytes <> [] ->
  tokens_issued s ->
  tokens_issued
    (snd (MemStorage.createSession s uuid now
            (Routes.new_session userId randomBytes now))).
Proof.
  unfold tokens_issued. intros Hbytes Hs. simpl.
  rewrite JsMap_keys_set. destruct (JsMap.has _ _); auto.
  apply Forall_app. split; auto. constructor; [|constructor].
  split; [apply toString_hex_is_hex|].
  intros Hempty. apply (f_equal String.length) in Hempty.
  rewrite toString_hex_length in Hempty.
  destruct randomBytes; [congruence|discriminate].
Qed.

Lemma tokens_issued_deleteSession s token :
  tokens_issued s -> tokens_issued (MemStorage.deleteSession s token).
Proof.
  unfold tokens_issued. simpl. rewrite JsMap_keys_remove.
  rewrite !Forall_forall. intros Hs k Hin.
  apply filter_In in Hin. now apply Hs.
Qed.

(** Under the invariant the empty token resolves to nothing. *)
Lemma getSession_empty_token s now :
  tokens_issued s -> MemStorage.getSession s now "" = None.
Proof.
  unfold tokens_issued. rewrite Forall_forall. intros Hs.
  assert (~ In "" (JsMap.keys (MemStorage.sessions s))) as H.
  { intros Hin. now destruct (Hs _ Hin). }
  apply JsMap_get_None_keys in H.
  unfold MemStorage.getSession. now rewrite H.
Qed.

Example toString_hex_example :
  JsString.toString_hex [x00; xff; xc0; x1e]%byte = "00ffc01e".
Proof. reflexivity. Qed.

(** ** The middleware *)

(** C10. The token the middleware looks up is the [Authorization] header
    with the first occurrence of ["Bearer "] removed, wherever it stands,
    and nothing else changed.  A header that is a bare token (one that holds
    no ["Bearer "], as every issued, hexadecimal token) has the outcome of
    the same token behind the prefix.  When no session is stored under the
    empty token, the answer is 401 exactly when the header is absent or the
    token resolves to no live session. *)
Theorem bearer_prefix_optional {S : Type} `{IStorage S} (storage : S)
  (now : Date) :
  (forall header : string,
      (exists pre post,
          header = (pre ++ "Bearer " ++ post)%string
          /\ (forall i, (i < String.length pre)%nat ->
                        ~ JsString.occurs_at "Bearer " i header)
          /\ Routes.bearer_token (Some header) = Some (pre ++ post)%string)
      \/ (~ JsString.occurs "Bearer " header
          /\ Routes.bearer_token (Some header) = Some header))
  /\ (forall token : string,
         ~ JsString.occurs "Bearer " token ->
         Routes.authenticateUser storage now (Some token)
         = Routes.authenticateUser storage now
             (Some ("Bearer " ++ token)%string))
  /\ (getSession storage now "" = None ->
      forall authorization : option string,
        Routes.is_401 (Routes.authenticateUser storage now authorization)
        = true
        <-> authorization = None
            \/ exists token,
                 Routes.bearer_token authorization = Some token
                 /\ getSession storage now token = None).
Proof.
  split; [|split].
  - intros header. unfold Routes.bearer_token. simpl.
    destruct (replace_first "Bearer " "" header)
      as [(pre & post & Heq & Hfirst & Hrep)|[Hnone Hrep]].
    + left. exists pre, post. rewrite Hrep. auto.
    + right. rewrite Hrep. auto.
  - intros token Hnone. unfold Routes.authenticateUser, Routes.bearer_token.
    cbn [option_map].
    now rewrite (replace_absent _ _ _ Hnone), (replace_prefix "Bearer " "").
  - intros Hempty [header|]; unfold Routes.authenticateUser; simpl.
    + set (token := JsString.replace "Bearer " "" header).
      unfold JsString.truthy.
      destruct (String.eqb_spec token "") as [E|E]; simpl.
      * split; [|reflexivity]. intros _. right. exists token.
        split; [reflexivity|]. now rewrite E.
      * destruct (getSession storage now token) eqn:Hs; simpl.
        -- split; [discriminate|].
           intros [Habs|(tok & Htok & Hgone)]; [discriminate|].
           injection Htok as <-. congruence.
        -- split; [|reflexivity]. intros _. right. now exists token.
    + split; auto.
Qed.

Lemma bearer_hex_token {S : Type} `{IStorage S} (storage : S) (now : Date)
  (token : string) :
  JsString.is_hex token = true ->
  Routes.authenticateUser storage now (Some token)
  = Routes.authenticateUser storage now (Some ("Bearer " ++ token)%string).
Proof.
  intros Hhex.
  destruct (replace_first "Bearer " "" token)
    as [(pre & post & Heq & _)|[Hnone _]].
  - exfalso. apply (is_hex_no_bearer token Hhex).
    exists (String.length pre), pre, post. auto.
  - unfold Routes.authenticateUser, Routes.bearer_token. cbn [option_map].
    now rewrite (replace_absent _ _ _ Hnone), (replace_prefix "Bearer " "").
Qed.

(** The session of [Sample.one_session]: bare and prefixed token before
    expiry, the prefixed token after expiry, and no header at all. *)
Lemma bearer_prefix_optional_witness :
  Routes.authenticateUser Sample.one_session 1500 (Some "c0ffee")
  = Routes.Next "alice"
  /\ Routes.authenticateUser Sample.one_session 1500 (Some "Bearer c0ffee")
     = Routes.Next "alice"
  /\ Routes.is_401
       (Routes.authenticateUser Sample.one_session 2500
          (Some "Bearer c0ffee")) = true
  /\ Routes.is_401 (Routes.authenticateUser Sample.one_session 1500 None)
     = true.
Proof.
  destruct (bearer_prefix_optional Sample.one_session 1500)
    as (_ & Hbare & H401).
  destruct (bearer_prefix_optional Sample.one_session 2500)
    as (_ & _ & H401').
  split; [reflexivity|]. split; [|split].
  - change "Bearer c0ffee" with ("Bearer " ++ "c0ffee")%string.
    rewrite <- (Hbare "c0ffee"); [reflexivity|].
    apply is_hex_no_bearer. reflexivity.
  - apply H401'; [reflexivity|]. right. exists "c0ffee".
    split; reflexivity.
  - apply H401; [reflexivity|]. now left.
Defined.

(** * Further facts: the rest of the store, the handlers, the client *)

(** ** More on the map *)

Section JsMapMore.
Context {V : Type}.
Implicit Types (m : JsMap.t V) (k : string) (v : V).

Lemma JsMap_values_set_fresh k v m :
  JsMap.get k m = None -> JsMap.values (JsMap.set k v m) = JsMap.values m ++ [v].
Proof.
  unfold JsMap.values. induction m as [|[k' v'] m IH]; simpl; auto.
  destruct (String.eqb k k'); [discriminate|].
  intros H. simpl. now rewrite IH.
Qed.

Lemma JsMap_has_set k k' v m :
  JsMap.has k' m = true -> JsMap.has k' (JsMap.set k v m) = true.
Proof.
  unfold JsMap.has. destruct (String.eqb_spec k k') as [->|Hk].
  - now rewrite JsMap_get_set_same.
  - now rewrite JsMap_get_set_other.
Qed.

Lemma JsMap_has_set_same k v m : JsMap.has k (JsMap.set k v m) = true.
Proof. unfold JsMap.has. now rewrite JsMap_get_set_same. Qed.

Lemma JsMap_keys_set_present k v m :
  JsMap.has k m = true -> JsMap.keys (JsMap.set k v m) = JsMap.keys m.
Proof. intros H. now rewrite JsMap_keys_set, H. Qed.

Lemma JsMap_values_set_In k v m x :
  In x (JsMap.values (JsMap.set k v m)) -> x = v \/ In x (JsMap.values m).
Proof.
  unfold JsMap.values. induction m as [|[k' v'] m IH]; simpl.
  - intros [<-|[]]. now left.
  - destruct (String.eqb k k'); simpl.
    + intros [<-|H]; auto.
    + intros [<-|H]; auto. destruct (IH H); auto.
Qed.

Lemma JsMap_values_remove_In k m x :
  In x (JsMap.values (JsMap.remove k m)) -> In x (JsMap.values m).
Proof.
  unfold JsMap.values. induction m as [|[k' v'] m IH]; simpl; auto.
  destruct (String.eqb k k'); simpl; intuition.
Qed.

Lemma JsMap_keyed_set (key : V -> string) k v m :
  key v = k -> keyed key m -> keyed key (JsMap.set k v m).
Proof.
  unfold keyed. intros Hk Hm.
  induction m as [|[k' v'] m IH]; simpl.
  - repeat constructor. exact Hk.
  - apply Forall_cons_iff in Hm. destruct Hm as [Hhead Htail].
    destruct (String.eqb_spec k k') as [E|E]; constructor; auto.
    simpl. congruence.
Qed.

Lemma JsMap_keyed_remove (key : V -> string) k m :
  keyed key m -> keyed key (JsMap.remove k m).
Proof.
  unfold keyed. intros Hm.
  induction m as [|[k' v'] m IH]; simpl; auto.
  apply Forall_cons_iff in Hm. destruct Hm as [Hhead Htail].
  destruct (String.eqb k k'); auto.
Qed.

Lemma JsMap_set_NoDup_image {B : Type} (f : V -> B) k v m :
  NoDup (map f (JsMap.values m)) ->
  ~ In (f v) (map f (JsMap.values m)) ->
  NoDup (map f (JsMap.values (JsMap.set k v m))).
Proof.
  unfold JsMap.values. induction m as [|[k' v'] m IH]; simpl.
  - intros _ _. repeat constructor. auto.
  - intros Hnd Hnot. inversion Hnd as [|? ? Hv' Hnd']; subst.
    destruct (String.eqb k k'); simpl.
    + constructor; auto.
    + constructor; [|apply IH; auto].
      intros Hin. apply in_map_iff in Hin. destruct Hin as (x & Hx & Hin).
      apply (JsMap_values_set_In k v m x) in Hin.
      destruct Hin as [->|Hin].
      * apply Hnot. now left.
      * apply Hv'. rewrite <- Hx. now apply in_map.
Qed.

End JsMapMore.

(** ** Creating, deleting and updating events *)

Lemma getEvents_of_owned s userId startDate endDate :
  MemStorage.getEvents s userId startDate endDate
  = JsArray.sort MemStorage.by_startDate
      (match startDate, endDate with
       | Some lo, Some hi =>
           filter (MemStorage.in_range lo hi) (owned_events s userId)
       | _, _ => owned_events s userId
       end).
Proof. reflexivity. Qed.

(** X1. An event created under an id that is not in use is added behind the
    events its owner had; the lists of every other user, whatever the
    bounds, and what [getEvent] finds under any other id stay as they
    were. *)
Theorem createEvent_adds_one (s : MemStorage.t) (uuid : string)
  (createdAt updatedAt : Date) (userId : string) (i : InsertEvent.t) :
  JsMap.get uuid (MemStorage.events s) = None ->
  let (e, s') := MemStorage.createEvent s uuid createdAt updatedAt userId i in
  owned_events s' userId = owned_events s userId ++ [e]
  /\ Permutation (MemStorage.getEvents s' userId None None)
       (e :: MemStorage.getEvents s userId None None)
  /\ (forall other startDate endDate,
         other <> userId ->
         MemStorage.getEvents s' other startDate endDate
         = MemStorage.getEvents s other startDate endDate)
  /\ (forall id' u,
         id' <> uuid ->
         MemStorage.getEvent s' id' u = MemStorage.getEvent s id' u).
Proof.
  intros Hfresh. cbn [MemStorage.createEvent].
  set (e := Event.mk uuid userId _ _ _ _ _ _ _ _ _ _ _).
  assert (forall u,
             owned_events (MemStorage.with_events s
                             (JsMap.set (Event.id e) e (MemStorage.events s)))
               u
             = owned_events s u
               ++ (if String.eqb userId u then [e] else [])) as Howned.
  { intros u. unfold owned_events. cbn [MemStorage.events
      MemStorage.with_events].
    rewrite JsMap_values_set_fresh by exact Hfresh.
    now rewrite filter_app. }
  split; [|split; [|split]].
  - rewrite Howned. now rewrite String.eqb_refl.
  - rewrite !getEvents_of_owned, Howned, String.eqb_refl.
    rewrite !JsArray_sort_perm.
    rewrite Permutation_app_comm. reflexivity.
  - intros other sd ed Hother. rewrite !getEvents_of_owned, Howned.
    destruct (String.eqb_spec userId other); [congruence|].
    now rewrite app_nil_r.
  - intros id' u Hid. unfold MemStorage.getEvent.
    cbn [MemStorage.events MemStorage.with_events].
    rewrite JsMap_get_set_other; auto.
Qed.

(** Bob creates an event in the store where Alice has one. *)
Lemma createEvent_adds_one_witness :
  let (e, s') :=
    MemStorage.createEvent Sample.one_event "e2" 1704000001000 1704000001000
      "bob" Sample.standup in
  owned_events s' "bob" = [e]
  /\ MemStorage.getEvents s' "alice" None None
     = MemStorage.getEvents Sample.one_event "alice" None None
  /\ MemStorage.getEvent s' "e1" "alice"
     = MemStorage.getEvent Sample.one_event "e1" "alice".
Proof.
  pose proof (createEvent_adds_one Sample.one_event "e2" 1704000001000
                1704000001000 "bob" Sample.standup eq_refl) as H.
  cbn [MemStorage.createEvent] in *.
  destruct H as (H1 & _ & H3 & H4).
  split; [exact H1|]. split.
  - apply H3. discriminate.
  - apply H4. discriminate.
Defined.

(** X2. [deleteEvent] answers [true] exactly when [getEvent] finds the
    event for that user.  Then nobody finds anything under the id any more,
    and an event under another id is found as before; on [false] the store
    is untouched. *)
Theorem deleteEvent_effect (s : MemStorage.t) (id userId : string) :
  let (deleted, s') := MemStorage.deleteEvent s id userId in
  (deleted = true <-> MemStorage.getEvent s id userId <> None)
  /\ (deleted = true -> forall u, MemStorage.getEvent s' id u = None)
  /\ (deleted = false -> s' = s)
  /\ (forall id' u,
         id' <> id ->
         MemStorage.getEvent s' id' u = MemStorage.getEvent s id' u).
Proof.
  unfold MemStorage.deleteEvent, MemStorage.getEvent.
  destruct (JsMap.get id (MemStorage.events s)) as [e|] eqn:Hget.
  - destruct (String.eqb (Event.userId e) userId); simpl.
    + unfold JsMap.has. rewrite Hget.
      split; [split; [discriminate|reflexivity]|].
      split; [|split; [discriminate|]].
      * intros _ u. now rewrite JsMap_get_remove_same.
      * intros id' u Hid. rewrite JsMap_get_remove_other; auto.
    + split; [split; [discriminate|congruence]|].
      split; [discriminate|]. split; reflexivity.
  - split; [split; [discriminate|congruence]|].
    split; [discriminate|]. split; reflexivity.
Qed.

(** X3. A successful [updateEvent] returns the event with the id, the owner
    and the creation time it had; it neither adds, removes nor reorders map
    entries, and an event under another id is found as before. *)
Theorem updateEvent_preserves (s : MemStorage.t) (id userId : string)
  (updates : PartialInsertEvent.t) (now : Date) (e : Event.t) :
  JsMap.get id (MemStorage.events s) = Some e ->
  Event.userId e = userId ->
  let (r, s') := MemStorage.updateEvent s id userId updates now in
  (exists e', r = Some e'
              /\ Event.id e' = Event.id e
              /\ Event.userId e' = Event.userId e
              /\ Event.createdAt e' = Event.createdAt e)
  /\ JsMap.keys (MemStorage.events s') = JsMap.keys (MemStorage.events s)
  /\ (forall id' u,
         id' <> id ->
         MemStorage.getEvent s' id' u = MemStorage.getEvent s id' u).
Proof.
  intros Hget Hown. unfold MemStorage.updateEvent. rewrite Hget.
  apply String.eqb_eq in Hown. rewrite Hown. simpl.
  split; [eexists; repeat split|]. split.
  - apply JsMap_keys_set_present. unfold JsMap.has. now rewrite Hget.
  - intros id' u Hid. unfold MemStorage.getEvent. simpl.
    rewrite JsMap_get_set_other; auto.
Qed.

(** Alice renames her event. *)
Lemma updateEvent_preserves_witness :
  let (r, s') :=
    MemStorage.updateEvent Sample.three_events "e1" "alice" Sample.rename 9 in
  option_map Event.userId r = Some "alice"
  /\ JsMap.keys (MemStorage.events s') = ["e1"; "e2"; "e3"]
  /\ MemStorage.getEvent s' "e2" "bob"
     = MemStorage.getEvent Sample.three_events "e2" "bob".
Proof.
  assert (exists e, JsMap.get "e1" (MemStorage.events Sample.three_events)
                    = Some e /\ Event.userId e = "alice") as (e & Hget & Hown).
  { eexists. split; reflexivity. }
  pose proof (updateEvent_preserves Sample.three_events "e1" "alice"
                Sample.rename 9 e Hget Hown) as H.
  destruct (MemStorage.updateEvent Sample.three_events "e1" "alice"
              Sample.rename 9) as [r s'] eqn:Hrun.
  destruct H as ((e' & -> & _ & Huser & _) & Hkeys & Hother).
  split; [simpl; congruence|]. split.
  - rewrite Hkeys. reflexivity.
  - apply Hother. discriminate.
Defined.

(** ** Order among events of equal start *)

Lemma insert_starting_at d x l :
  starting_at d (JsArray.insert MemStorage.by_startDate x l)
  = starting_at d (x :: l).
Proof.
  unfold starting_at. induction l as [|y l IH]; auto.
  cbn [JsArray.insert]. unfold MemStorage.by_startDate at 1.
  destruct (Z.leb_spec (Event.startDate x - Event.startDate y) 0) as [H|H];
    auto.
  cbn [filter] in *. rewrite IH.
  destruct (Z.eqb_spec (Event.startDate y) d),
           (Z.eqb_spec (Event.startDate x) d); auto; lia.
Qed.

Lemma sort_starting_at d l :
  starting_at d (JsArray.sort MemStorage.by_startDate l) = starting_at d l.
Proof.
  induction l as [|x l IH]; auto.
  cbn [JsArray.sort fold_right]. fold (JsArray.sort MemStorage.by_startDate l).
  rewrite insert_starting_at. unfold starting_at in *. cbn [filter].
  now rewrite IH.
Qed.

(** X4. Events that start at the same instant come out of [getEvents] in
    the order the map holds them, which is the order they were created
    in. *)
Theorem getEvents_stable (s : MemStorage.t) (userId : string) (d : Date) :
  (starting_at d (MemStorage.getEvents s userId None None)
   = starting_at d (owned_events s userId))
  /\ (forall lo hi,
         starting_at d (MemStorage.getEvents s userId (Some lo) (Some hi))
         = starting_at d (filter (within lo hi) (owned_events s userId))).
Proof.
  split.
  - rewrite getEvents_of_owned. apply sort_starting_at.
  - intros lo hi. rewrite getEvents_of_owned, sort_starting_at.
    f_equal. apply filter_ext. apply in_range_within.
Qed.

Example getEvents_ties :
  let s := snd (MemStorage.createEvent Sample.three_events "e0" 5 5 "alice"
                  Sample.standup) in
  map Event.id (MemStorage.getEvents s "alice" None None) = ["e1"; "e0"; "e3"].
Proof. reflexivity. Qed.

(** ** Reminders *)

(** X5. A reminder created under an id that is not in use is appended to
    the reminders of its event, untriggered and with the given offset, and
    the reminders of every other event stay as they were.  The store does
    not ask whether the event exists. *)
Theorem createReminder_listed (s : MemStorage.t) (uuid : string) (now : Date)
  (i : InsertReminder.t) :
  JsMap.get uuid (MemStorage.reminders s) = None ->
  let (r, s') := MemStorage.createReminder s uuid now i in
  r = Reminder.mk uuid (InsertReminder.eventId i)
        (InsertReminder.minutesBefore i) (Some false) now
  /\ MemStorage.getEventReminders s' (InsertReminder.eventId i)
     = MemStorage.getEventReminders s (InsertReminder.eventId i) ++ [r]
  /\ (forall eventId,
         eventId <> InsertReminder.eventId i ->
         MemStorage.getEventReminders s' eventId
         = MemStorage.getEventReminders s eventId)
  /\ MemStorage.events s' = MemStorage.events s.
Proof.
  intros Hfresh. unfold MemStorage.createReminder, MemStorage.getEventReminders.
  cbn [MemStorage.reminders MemStorage.with_reminders MemStorage.events
       Reminder.id].
  rewrite JsMap_values_set_fresh by exact Hfresh.
  split; [reflexivity|]. split; [|split; [|reflexivity]].
  - rewrite filter_app. cbn [filter Reminder.eventId].
    now rewrite String.eqb_refl.
  - intros eventId Hother. rewrite filter_app. cbn [filter Reminder.eventId].
    destruct (String.eqb_spec (InsertReminder.eventId i) eventId);
      [congruence|].
    now rewrite app_nil_r.
Qed.

(** A reminder for an event nobody created. *)
Lemma createReminder_listed_witness :
  let (r, s') :=
    MemStorage.createReminder MemStorage.empty "r1" 7
      (InsertReminder.mk "no-such-event" 30) in
  MemStorage.getEventReminders s' "no-such-event" = [r]
  /\ Reminder.isTriggered r = Some false
  /\ MemStorage.getEventReminders s' "e1" = [].
Proof.
  pose proof (createReminder_listed MemStorage.empty "r1" 7
                (InsertReminder.mk "no-such-event" 30) eq_refl) as H.
  cbn [MemStorage.createReminder] in *.
  destruct H as (Hr & Hlist & Hother & _).
  split; [exact Hlist|]. split; [reflexivity|].
  apply (Hother "e1"). discriminate.
Defined.

(** X6. [deleteReminder] answers [true] exactly when a reminder is stored
    under the id; afterwards none is, no listing has gained a reminder, a
    reminder stored under another id is still stored, and the events are
    untouched.  On [false] the store is as it was. *)
Theorem deleteReminder_effect (s : MemStorage.t) (id : string) :
  let (deleted, s') := MemStorage.deleteReminder s id in
  (deleted = true <-> JsMap.get id (MemStorage.reminders s) <> None)
  /\ JsMap.get id (MemStorage.reminders s') = None
  /\ (forall eventId r,
         In r (MemStorage.getEventReminders s' eventId) ->
         In r (MemStorage.getEventReminders s eventId))
  /\ (forall id',
         id' <> id ->
         JsMap.get id' (MemStorage.reminders s')
         = JsMap.get id' (MemStorage.reminders s))
  /\ (deleted = false -> s' = s)
  /\ MemStorage.events s' = MemStorage.events s.
Proof.
  unfold MemStorage.deleteReminder, JsMap.delete, JsMap.has.
  cbn [MemStorage.reminders MemStorage.with_reminders MemStorage.events].
  split; [|split; [|split; [|split; [|split]]]].
  - destruct (JsMap.get id (MemStorage.reminders s)); split;
      congruence || discriminate.
  - apply JsMap_get_remove_same.
  - intros eventId r. unfold MemStorage.getEventReminders.
    cbn [MemStorage.reminders]. rewrite !filter_In.
    intros [Hin Hev]. split; [|exact Hev].
    eapply JsMap_values_remove_In. exact Hin.
  - intros id' Hid. rewrite JsMap_get_remove_other; auto.
  - destruct (JsMap.get id (MemStorage.reminders s)) eqn:Hget;
      [discriminate|].
    intros _. rewrite JsMap_remove_absent by exact Hget. now destruct s.
  - reflexivity.
Qed.

(** ** Users *)

Lemma getUserByUsername_None s username :
  MemStorage.getUserByUsername s username = None
  <-> ~ In username (map User.username (JsMap.values (MemStorage.users s))).
Proof.
  unfold MemStorage.getUserByUsername.
  induction (JsMap.values (MemStorage.users s)) as [|u l IH]; simpl.
  - tauto.
  - destruct (String.eqb_spec (User.username u) username) as [E|E].
    + split; [discriminate|]. intros H. exfalso. apply H. now left.
    + rewrite IH. tauto.
Qed.

Lemma getUserByUsername_Some s username user :
  MemStorage.getUserByUsername s username = Some user ->
  In user (JsMap.values (MemStorage.users s))
  /\ User.username user = username.
Proof.
  unfold MemStorage.getUserByUsername. intros H.
  apply find_some in H. destruct H as [Hin Heq].
  now apply String.eqb_eq in Heq.
Qed.

Lemma find_unique {A : Type} (p : A -> bool) (l : list A) (x : A) :
  In x l -> p x = true -> (forall y, In y l -> p y = true -> y = x) ->
  find p l = Some x.
Proof.
  induction l as [|y l IH]; simpl; [tauto|].
  intros Hin Hx Huniq. destruct (p y) eqn:Hy.
  - f_equal. apply Huniq; auto.
  - destruct Hin as [->|Hin]; [congruence|]. apply IH; auto.
Qed.

Lemma find_app_found {A : Type} (p : A -> bool) (l l' : list A) (x : A) :
  find p l = Some x -> find p (l ++ l') = Some x.
Proof.
  induction l as [|y l IH]; simpl; [discriminate|].
  destruct (p y); auto.
Qed.

(** X7. [createUser] stores the user it returns under the generated id,
    with the fields of the input.  When the username was free, the user is
    the one [getUserByUsername] finds; when it was taken, [createUser]
    still succeeds (under a new id) and [getUserByUsername] keeps finding
    the earlier user: uniqueness of usernames is not the store's doing. *)
Theorem createUser_lookup (s : MemStorage.t) (uuid : string) (now : Date)
  (i : InsertUser.t) :
  let (user, s') := MemStorage.createUser s uuid now i in
  user = User.mk uuid (InsertUser.username i) (InsertUser.password i)
           (InsertUser.recoveryKey i) (InsertUser.encryptionKey i) now
  /\ MemStorage.getUser s' uuid = Some user
  /\ (MemStorage.getUserByUsername s (InsertUser.username i) = None ->
      MemStorage.getUserByUsername s' (InsertUser.username i) = Some user)
  /\ (forall earlier,
         MemStorage.getUserByUsername s (InsertUser.username i)
         = Some earlier ->
         MemStorage.getUser s uuid = None ->
         MemStorage.getUser s' uuid = Some user
         /\ MemStorage.getUserByUsername s' (InsertUser.username i)
            = Some earlier).
Proof.
  unfold MemStorage.createUser, MemStorage.getUser.
  cbn [MemStorage.users MemStorage.with_users User.id].
  set (user := User.mk uuid _ _ _ _ now).
  split; [reflexivity|]. split; [apply JsMap_get_set_same|]. split.
  - intros Hfree. apply getUserByUsername_None in Hfree.
    unfold MemStorage.getUserByUsername.
    cbn [MemStorage.users MemStorage.with_users].
    apply find_unique.
    + clear Hfree. unfold JsMap.values.
      induction (MemStorage.users s) as [|[k v] m IH]; simpl; auto.
      destruct (String.eqb uuid k); simpl; auto.
    + apply String.eqb_refl.
    + intros y Hin Hy. apply JsMap_values_set_In in Hin.
      destruct Hin as [->|Hin]; auto.
      exfalso. apply Hfree. apply String.eqb_eq in Hy. rewrite <- Hy.
      now apply in_map.
  - intros earlier Hfound Hnew. split; [apply JsMap_get_set_same|].
    unfold MemStorage.getUserByUsername in *.
    cbn [MemStorage.users MemStorage.with_users].
    rewrite JsMap_values_set_fresh by exact Hnew.
    now apply find_app_found.
Qed.

(** Two users called "alice". *)
Lemma createUser_lookup_witness :
  let i := InsertUser.mk "alice" "hash" "alpha-bravo" "00ff" in
  let (first, s1) := MemStorage.createUser MemStorage.empty "u1" 1 i in
  let (second, s2) := MemStorage.createUser s1 "u2" 2 i in
  MemStorage.getUserByUsername s1 "alice" = Some first
  /\ MemStorage.getUser s2 "u2" = Some second
  /\ MemStorage.getUserByUsername s2 "alice" = Some first.
Proof.
  cbv zeta.
  pose proof (createUser_lookup MemStorage.empty "u1" 1
                (InsertUser.mk "alice" "hash" "alpha-bravo" "00ff")) as H1.
  destruct (MemStorage.createUser MemStorage.empty "u1" 1 _)
    as [first s1] eqn:E1.
  pose proof (createUser_lookup s1 "u2" 2
                (InsertUser.mk "alice" "hash" "alpha-bravo" "00ff")) as H2.
  destruct (MemStorage.createUser s1 "u2" 2 _) as [second s2] eqn:E2.
  destruct H1 as (_ & _ & Hfree & _). destruct H2 as (_ & _ & _ & Htaken).
  injection E1 as <- <-.
  assert (MemStorage.getUserByUsername
            (MemStorage.with_users MemStorage.empty
               (JsMap.set "u1"
                  (User.mk "u1" "alice" "hash" "alpha-bravo" "00ff" 1)
                  (MemStorage.users MemStorage.empty))) "alice"
          = Some (User.mk "u1" "alice" "hash" "alpha-bravo" "00ff" 1)) as Hf.
  { apply Hfree. reflexivity. }
  split; [exact Hf|].
  destruct (Htaken _ Hf eq_refl) as [Hu Hn]. split; assumption.
Defined.

(** ** The sidebar and the import *)

Lemma find_entry (counts : JsMap.t Z) (c : string) :
  find (fun s => String.eqb (CategoryCount.category s) c)
    (map (fun '(category, count) => CategoryCount.mk category count)
         (JsMap.entries counts))
  = option_map (CategoryCount.mk c) (JsMap.get c counts).
Proof.
  unfold JsMap.entries. induction counts as [|[k v] m IH]; simpl; auto.
  rewrite (String.eqb_sym k c).
  destruct (String.eqb_spec c k) as [->|]; auto.
Qed.

(** X8. The number the sidebar shows for a category is the number of events
    of that category the user owns: the count of the statistics answer when
    the category is listed there, and 0, filled in by the client, when it
    is not. *)
Theorem sidebar_count (s : MemStorage.t) (userId category : string) :
  Client.getCategoryCount (MemStorage.getEventCountsByCategory s userId)
    category
  = tally category (owned_events s userId).
Proof.
  unfold Client.getCategoryCount, MemStorage.getEventCountsByCategory.
  rewrite owned_by_filter, find_entry.
  destruct (counted_fold (owned_events s userId) JsMap.empty [])
    as (_ & Hget & _).
  { split; [constructor|split; reflexivity]. }
  simpl in Hget. rewrite Hget.
  destruct (Z.eqb_spec (tally category (owned_events s userId)) 0) as [E|E];
    simpl; congruence.
Qed.

Example sidebar_three_events :
  map (Client.getCategoryCount
         (MemStorage.getEventCountsByCategory Sample.three_events "alice"))
      categories
  = [1; 0; 1; 0].
Proof. reflexivity. Qed.

Lemma import_category_listed c : In (Client.import_category c) categories.
Proof.
  unfold Client.import_category. destruct c as [c|]; [|simpl; auto].
  destruct (existsb (String.eqb c) categories) eqn:E; [|simpl; auto].
  apply existsb_exists in E. destruct E as (x & Hin & Hx).
  apply String.eqb_eq in Hx. now subst.
Qed.

(** X9. Whatever a JSON file gives as category, the event built from it by
    the import carries a category of the enumeration (the file's own when
    it is one of the four, [personal] otherwise), [createEvent] stores just
    that category, and a store whose categories are within the enumeration
    stays so. *)
Theorem import_category_stored (s : MemStorage.t) (uuid : string)
  (createdAt updatedAt : Date) (userId : string) (i : InsertEvent.t)
  (fileCategory : option string) :
  InsertEvent.category i = Some (Client.import_category fileCategory) ->
  let (e, s') := MemStorage.createEvent s uuid createdAt updatedAt userId i in
  Event.category e = Client.import_category fileCategory
  /\ In (Event.category e) categories
  /\ (forall c, fileCategory = Some c -> In c categories ->
                Event.category e = c)
  /\ (category_invariant s -> category_invariant s').
Proof.
  intros Hcat. cbn [MemStorage.createEvent]. cbn [Event.category].
  assert (Js.string_or (InsertEvent.category i) "personal"
          = Client.import_category fileCategory) as Hstored.
  { rewrite Hcat. unfold Js.string_or, JsString.truthy.
    destruct (String.eqb_spec (Client.import_category fileCategory) "")
      as [E|E]; auto.
    pose proof (import_category_listed fileCategory) as Hin.
    rewrite E in Hin. simpl in Hin.
    destruct Hin as [H|[H|[H|[H|[]]]]]; discriminate. }
  rewrite Hstored.
  split; [reflexivity|]. split; [apply import_category_listed|]. split.
  - intros c -> Hin. unfold Client.import_category.
    replace (existsb (String.eqb c) categories) with true; auto.
    symmetry. apply existsb_exists. exists c. split; auto.
    apply String.eqb_refl.
  - intros Hinv. unfold category_invariant.
    cbn [MemStorage.events MemStorage.with_events].
    apply JsMap_values_set_Forall; auto.
    cbn [Event.category]. apply import_category_listed.
Qed.

(** A file that says "holiday", one that says "health", one that says
    nothing. *)
Lemma import_category_stored_witness :
  let imported c :=
    InsertEvent.mk "Beach" None 1704877200000 None
      (Some (Client.import_category c)) None None None None in
  let stored c :=
    Event.category
      (fst (MemStorage.createEvent MemStorage.empty "e1" 5 5 "alice"
              (imported c))) in
  stored (Some "holiday") = "personal"
  /\ stored (Some "health") = "health"
  /\ stored None = "personal".
Proof.
  cbv zeta.
  pose proof (fun c =>
    import_category_stored MemStorage.empty "e1" 5 5 "alice"
      (InsertEvent.mk "Beach" None 1704877200000 None
         (Some (Client.import_category c)) None None None None)
      c eq_refl) as H.
  cbn [MemStorage.createEvent fst] in *.
  split; [|split].
  - destruct (H (Some "holiday")) as (-> & _). reflexivity.
  - destruct (H (Some "health")) as (_ & _ & Hkeep & _).
    apply Hkeep; [reflexivity|simpl; auto].
  - destruct (H None) as (-> & _). reflexivity.
Defined.

(** ** Sessions, once more *)

(** X10. A session just created is returned under its token up to, and not
    at, its expiry; it takes the place of a session the token had before;
    what the other tokens resolve to is unchanged. *)
Theorem createSession_getSession (s : MemStorage.t) (uuid : string)
  (createdAt : Date) (i : InsertSession.t) :
  let (session, s') := MemStorage.createSession s uuid createdAt i in
  session = UserSession.mk uuid (InsertSession.userId i)
              (InsertSession.sessionToken i) (InsertSession.expiresAt i)
              createdAt
  /\ (forall now,
         MemStorage.getSession s' now (InsertSession.sessionToken i)
         = if now <? InsertSession.expiresAt i then Some session else None)
  /\ (forall now token,
         token <> InsertSession.sessionToken i ->
         MemStorage.getSession s' now token = MemStorage.getSession s now token)
  /\ MemStorage.users s' = MemStorage.users s
  /\ MemStorage.events s' = MemStorage.events s.
Proof.
  unfold MemStorage.createSession, MemStorage.getSession.
  cbn [MemStorage.sessions MemStorage.with_sessions UserSession.sessionToken
       MemStorage.users MemStorage.events].
  split; [reflexivity|]. split; [|split; [|split; reflexivity]].
  - intros now. rewrite JsMap_get_set_same. cbn [UserSession.expiresAt].
    now rewrite Z.gtb_ltb.
  - intros now token Hother. rewrite JsMap_get_set_other; auto.
Qed.

(** ** The middleware over the in-memory store *)

Lemma authenticateUser_bearer s now token :
  token <> "" ->
  Routes.authenticateUser s now (Some ("Bearer " ++ token)%string)
  = match MemStorage.getSession s now token with
    | None => Routes.Respond 401 "Invalid or expired session"
    | Some session => Routes.Next (UserSession.userId session)
    end.
Proof.
  intros Hne. unfold Routes.authenticateUser, Routes.bearer_token.
  cbn [option_map]. rewrite (replace_prefix "Bearer " ""). cbn [append].
  unfold JsString.truthy. destruct (String.eqb_spec token ""); [congruence|].
  reflexivity.
Qed.

Lemma authenticateUser_Next s now authorization userId :
  Routes.authenticateUser s now authorization = Routes.Next userId ->
  exists token session,
    Routes.bearer_token authorization = Some token
    /\ MemStorage.getSession s now token = Some session
    /\ UserSession.userId session = userId.
Proof.
  unfold Routes.authenticateUser.
  destruct (Routes.bearer_token authorization) as [token|]; [|discriminate].
  destruct (negb (JsString.truthy token)); [discriminate|].
  change (getSession s now token) with (MemStorage.getSession s now token).
  destruct (MemStorage.getSession s now token) as [session|] eqn:Hs;
    [|discriminate].
  intros [= <-]. now exists token, session.
Qed.

Lemma authenticateUser_same_sessions s s' now authorization :
  MemStorage.sessions s' = MemStorage.sessions s ->
  Routes.authenticateUser s' now authorization
  = Routes.authenticateUser s now authorization.
Proof.
  intros H. unfold Routes.authenticateUser.
  destruct (Routes.bearer_token authorization) as [token|]; auto.
  change (@getSession MemStorage.t _) with MemStorage.getSession.
  unfold MemStorage.getSession. now rewrite H.
Qed.

Lemma toString_hex_32 buffer :
  List.length buffer = 32%nat ->
  JsString.is_hex (JsString.toString_hex buffer) = true
  /\ String.length (JsString.toString_hex buffer) = 64%nat
  /\ JsString.toString_hex buffer <> "".
Proof.
  intros H. split; [apply toString_hex_is_hex|].
  assert (String.length (JsString.toString_hex buffer) = 64%nat) as Hlen.
  { rewrite toString_hex_length, H. reflexivity. }
  split; auto. intros E. rewrite E in Hlen. discriminate.
Qed.

(** ** Logging out *)

(** X11. Logging out always answers 200.  Afterwards the header that was
    presented no longer authenticates, at any time, and every other token
    resolves as before. *)
Theorem logout_revokes (s : MemStorage.t) (authorization : option string) :
  let (r, s') := Api.logout s authorization in
  r = Api.json (Api.Message "Logged out successfully")
  /\ (forall now,
         Routes.is_401 (Routes.authenticateUser s' now authorization) = true)
  /\ (forall now token,
         Routes.bearer_token authorization <> Some token ->
         MemStorage.getSession s' now token = MemStorage.getSession s now token)
  /\ MemStorage.users s' = MemStorage.users s
  /\ MemStorage.events s' = MemStorage.events s.
Proof.
  unfold Api.logout. split; [reflexivity|].
  unfold Routes.authenticateUser.
  destruct (Routes.bearer_token authorization) as [token|];
    [|repeat split; reflexivity].
  destruct (JsString.truthy token) eqn:Htruthy; cbn [negb].
  - split; [|split; [|split; reflexivity]].
    + intros now.
      change (@getSession MemStorage.t _) with MemStorage.getSession.
      unfold MemStorage.getSession, MemStorage.deleteSession.
      cbn [MemStorage.sessions MemStorage.with_sessions JsMap.delete snd].
      now rewrite JsMap_get_remove_same.
    + intros now token' Hother.
      unfold MemStorage.getSession, MemStorage.deleteSession.
      cbn [MemStorage.sessions MemStorage.with_sessions JsMap.delete snd].
      rewrite JsMap_get_remove_other; auto. congruence.
  - repeat split; reflexivity.
Qed.

(** ** Registering and logging in *)

Lemma getUserByUsername_created s uuid now i :
  MemStorage.getUserByUsername s (InsertUser.username i) = None ->
  MemStorage.getUserByUsername (snd (MemStorage.createUser s uuid now i))
    (InsertUser.username i)
  = Some (fst (MemStorage.createUser s uuid now i)).
Proof.
  intros Hfree. apply getUserByUsername_None in Hfree.
  unfold MemStorage.getUserByUsername, MemStorage.createUser.
  cbn [fst snd MemStorage.users MemStorage.with_users User.id].
  apply find_unique.
  - clear Hfree. unfold JsMap.values.
    induction (MemStorage.users s) as [|[k v] m IH]; simpl; auto.
    destruct (String.eqb uuid k); simpl; auto.
  - apply String.eqb_refl.
  - intros y Hin Hy. apply JsMap_values_set_In in Hin.
    destruct Hin as [->|Hin]; auto.
    exfalso. apply Hfree. apply String.eqb_eq in Hy. rewrite <- Hy.
    now apply in_map.
Qed.

(** What a registration that answers 200 has done. *)
Lemma register_ok s body env r s' :
  Api.register s body env = (r, s') ->
  Api.status r = 200 ->
  exists data,
    registerSchema body = Some data
    /\ MemStorage.getUserByUsername s (RegisterRequest.username data) = None
    /\ let user :=
         User.mk (Api.RegisterEnv.userId env) (RegisterRequest.username data)
           (Api.RegisterEnv.hashedPassword env)
           (RegisterRequest.recoveryKey data)
           (JsString.toString_hex (Api.RegisterEnv.encryptionKeyBytes env))
           (Api.RegisterEnv.userCreatedAt env) in
       let token :=
         JsString.toString_hex (Api.RegisterEnv.sessionTokenBytes env) in
       let session :=
         UserSession.mk (Api.RegisterEnv.sessionId env)
           (Api.RegisterEnv.userId env) token
           (Api.RegisterEnv.dateNow env + 7 * 24 * 60 * 60 * 1000)
           (Api.RegisterEnv.sessionCreatedAt env) in
       r = Api.json (Api.Auth (User.id user) (User.username user)
                       (User.encryptionKey user) token)
       /\ s' = MemStorage.mk
                 (JsMap.set (User.id user) user (MemStorage.users s))
                 (MemStorage.events s) (MemStorage.reminders s)
                 (JsMap.set token session (MemStorage.sessions s)).
Proof.
  unfold Api.register.
  destruct (registerSchema body) as [data|]; [|intros [= <- _]; discriminate].
  destruct (MemStorage.getUserByUsername s (RegisterRequest.username data))
    eqn:Hfree; [intros [= <- _]; discriminate|].
  intros [= <- <-] _. exists data.
  split; [reflexivity|]. split; [exact Hfree|]. cbv zeta.
  split; reflexivity.
Qed.

(** A sequence that is open when the bytes end, or is broken off, still
    gives a code unit. *)
Lemma utf16_units_open s k a lo up :
  (1 <= JsString.utf16_units (JsString.utf8 (S k) a lo up) s)%nat.
Proof.
  revert k a lo up. induction s as [|c s IH]; intros k a lo up.
  - cbn. lia.
  - cbn [JsString.utf16_units JsString.needed JsString.astral
         JsString.lower JsString.upper].
    destruct (_ && _).
    + destruct k as [|k]; [destruct a; lia|apply IH].
    + destruct (JsString.utf8_lead _). lia.
Qed.

(** Only the empty string has length 0. *)
Lemma JsString_length_pos x : x <> "" -> (1 <= JsString.length x)%nat.
Proof.
  destruct x as [|c x]; [congruence|]. intros _.
  unfold JsString.length.
  cbn [JsString.utf16_units JsString.utf8_start JsString.needed].
  unfold JsString.utf8_lead.
  repeat match goal with
         | |- context [if ?b then (_, _) else _] => destruct b
         end;
    cbn [Nat.add]; solve [lia | apply utf16_units_open].
Qed.

(** On ASCII the length is the number of bytes. *)
Lemma JsString_length_ascii x :
  Forall (fun c => (nat_of_ascii c < 128)%nat) (list_ascii_of_string x) ->
  JsString.length x = String.length x.
Proof.
  unfold JsString.length. induction x as [|c x IH]; [reflexivity|].
  cbn [list_ascii_of_string]. intros Hascii.
  apply Forall_cons_iff in Hascii. destruct Hascii as [Hc Hx].
  cbn [JsString.utf16_units JsString.utf8_start JsString.needed
       String.length].
  unfold JsString.utf8_lead. apply Nat.ltb_lt in Hc. rewrite Hc.
  now rewrite IH.
Qed.

Example JsString_length_samples :
  JsString.length "alice" = 5%nat
  /\ String.length (Sample.middle ++ Sample.middle)%string = 6%nat
  /\ JsString.length (Sample.middle ++ Sample.middle)%string = 2%nat
  /\ JsString.length Sample.grin = 2%nat
  /\ registerSchema
       (JsonBody.mk (Some (Sample.middle ++ Sample.middle)%string)
          (Some "correct horse") (Some "alpha-bravo"))
     = None
  /\ registerSchema
       (JsonBody.mk (Some (Sample.middle ++ Sample.middle ++ Sample.middle)
                       %string)
          (Some "correct horse") (Some "alpha-bravo"))
     <> None.
Proof. repeat split; discriminate. Qed.

Lemma registerSchema_loginSchema body data :
  registerSchema body = Some data ->
  loginSchema body
  = Some (LoginRequest.mk (RegisterRequest.username data)
            (RegisterRequest.password data)).
Proof.
  unfold registerSchema, loginSchema, min_length, max_length.
  destruct (JsonBody.username body) as [u|]; [|discriminate].
  destruct (JsonBody.password body) as [p|]; [|discriminate].
  destruct (JsonBody.recoveryKey body) as [k|]; [|discriminate].
  destruct (Nat.leb_spec 3 (JsString.length u)); [|discriminate].
  destruct (Nat.leb_spec (JsString.length u) 50); [|discriminate].
  destruct (Nat.leb_spec 8 (JsString.length p)); [|discriminate].
  intros [= <-]. cbn [RegisterRequest.username RegisterRequest.password].
  destruct (Nat.leb_spec 1 (JsString.length u)); [|lia].
  destruct (Nat.leb_spec 1 (JsString.length p)); [|lia].
  reflexivity.
Qed.

(** X12. A registration that answers 200 returns the generated user id, the
    username as sent, and an encryption key and a session token of 64
    hexadecimal digits each.  Until seven days after the registration the
    token, sent as [Bearer <token>], authenticates as the new user, and
    [GET /api/auth/me] answers with that user's id, username and key. *)
Theorem register_then_authenticated (s : MemStorage.t) (body : JsonBody.t)
  (env : Api.RegisterEnv.t) :
  List.length (Api.RegisterEnv.encryptionKeyBytes env) = 32%nat ->
  List.length (Api.RegisterEnv.sessionTokenBytes env) = 32%nat ->
  let (r, s') := Api.register s body env in
  Api.status r = 200 ->
  exists username key token,
    JsonBody.username body = Some username
    /\ r = Api.json (Api.Auth (Api.RegisterEnv.userId env) username key token)
    /\ (JsString.is_hex key = true /\ String.length key = 64%nat)
    /\ (JsString.is_hex token = true /\ String.length token = 64%nat)
    /\ forall now,
         now < Api.RegisterEnv.dateNow env + 7 * 24 * 60 * 60 * 1000 ->
         Routes.authenticateUser s' now (Some ("Bearer " ++ token)%string)
         = Routes.Next (Api.RegisterEnv.userId env)
         /\ Api.me s' now (Some ("Bearer " ++ token)%string)
            = (Api.json (Api.Profile (Api.RegisterEnv.userId env) username
                           key), s').
Proof.
  intros Hkey Htoken.
  destruct (Api.register s body env) as [r s'] eqn:Hrun.
  intros Hok. destruct (register_ok _ _ _ _ _ Hrun Hok)
    as (data & Hparse & Hfree & Hr & Hs').
  cbv zeta in Hr, Hs'. cbn [User.id User.username User.encryptionKey] in Hr.
  destruct (toString_hex_32 _ Hkey) as (Hk1 & Hk2 & _).
  destruct (toString_hex_32 _ Htoken) as (Ht1 & Ht2 & Ht3).
  exists (RegisterRequest.username data),
    (JsString.toString_hex (Api.RegisterEnv.encryptionKeyBytes env)),
    (JsString.toString_hex (Api.RegisterEnv.sessionTokenBytes env)).
  split.
  { unfold registerSchema in Hparse.
    destruct (JsonBody.username body) as [u|]; [|discriminate].
    destruct (JsonBody.password body); [|discriminate].
    destruct (JsonBody.recoveryKey body); [|discriminate].
    destruct (_ && _); [|discriminate]. now injection Hparse as <-. }
  split; [exact Hr|]. split; [auto|]. split; [auto|].
  intros now Hnow.
  assert (Routes.authenticateUser s' now
            (Some ("Bearer "
                   ++ JsString.toString_hex
                        (Api.RegisterEnv.sessionTokenBytes env))%string)
          = Routes.Next (Api.RegisterEnv.userId env)) as Hauth.
  { rewrite authenticateUser_bearer by exact Ht3.
    unfold MemStorage.getSession. rewrite Hs'. cbn [MemStorage.sessions].
    rewrite JsMap_get_set_same. cbn [UserSession.expiresAt].
    destruct (Z.gtb_spec
                (Api.RegisterEnv.dateNow env + 7 * 24 * 60 * 60 * 1000) now);
      [reflexivity|lia]. }
  split; [exact Hauth|].
  unfold Api.me, Api.authenticated. rewrite Hauth.
  unfold MemStorage.getUser. rewrite Hs' at 1. cbn [MemStorage.users User.id].
  now rewrite JsMap_get_set_same.
Qed.

(** Alice registers in the empty store. *)
Lemma register_then_authenticated_witness :
  let (r, s') :=
    Api.register MemStorage.empty Scenario.alice_body Scenario.alice_env in
  Api.status r = 200
  /\ Routes.authenticateUser s' 5000 (Scenario.bearer Scenario.alice_token)
     = Routes.Next "u-alice"
  /\ fst (Api.me s' 5000 (Scenario.bearer Scenario.alice_token))
     = Api.json (Api.Profile "u-alice" "alice"
                   (JsString.toString_hex (Scenario.bytes x11))).
Proof.
  pose proof (register_then_authenticated MemStorage.empty
                Scenario.alice_body Scenario.alice_env eq_refl eq_refl) as H.
  destruct (Api.register MemStorage.empty Scenario.alice_body
              Scenario.alice_env) as [r s'] eqn:Hrun.
  assert (Api.status r = 200) as Hok.
  { injection Hrun as <- _. reflexivity. }
  destruct (H Hok) as (username & key & token & Hu & Hr & _ & _ & Hlive).
  assert (r = Api.json (Api.Auth "u-alice" "alice"
                          (JsString.toString_hex (Scenario.bytes x11))
                          Scenario.alice_token)) as Hr'.
  { injection Hrun as <- _. reflexivity. }
  assert (username = "alice" /\ key = JsString.toString_hex (Scenario.bytes x11)
          /\ token = Scenario.alice_token) as (-> & -> & ->).
  { rewrite Hr' in Hr. unfold Api.json in Hr. repeat split; congruence. }
  destruct (Hlive 5000) as [Hauth Hme]; [simpl; lia|].
  split; [exact Hok|]. split; [exact Hauth|].
  unfold Scenario.bearer. now rewrite Hme.
Defined.

(** X13. After a registration that answered 200, logging in with the same
    username and password, where [bcrypt.compare] accepts the password
    against the stored hash, answers 200 with the same user id, username
    and encryption key and a fresh token of 64 hexadecimal digits that
    authenticates as that user for seven days.  A password that
    [bcrypt.compare] rejects and a username nobody has get the same 401
    answer, and the store is as it was. *)
Theorem register_then_login (bcrypt_compare : string -> string -> bool)
  (s : MemStorage.t) (body : JsonBody.t) (env : Api.RegisterEnv.t)
  (lenv : Api.LoginEnv.t) (username password : string) :
  JsonBody.username body = Some username ->
  JsonBody.password body = Some password ->
  bcrypt_compare password (Api.RegisterEnv.hashedPassword env) = true ->
  List.length (Api.LoginEnv.sessionTokenBytes lenv) = 32%nat ->
  let (r1, s1) := Api.register s body env in
  Api.status r1 = 200 ->
  (let (r2, s2) := Api.login bcrypt_compare s1 body lenv in
   let token := JsString.toString_hex (Api.LoginEnv.sessionTokenBytes lenv) in
   r2 = Api.json
          (Api.Auth (Api.RegisterEnv.userId env) username
             (JsString.toString_hex (Api.RegisterEnv.encryptionKeyBytes env))
             token)
   /\ forall now,
        now < Api.LoginEnv.dateNow lenv + 7 * 24 * 60 * 60 * 1000 ->
        Routes.authenticateUser s2 now (Some ("Bearer " ++ token)%string)
        = Routes.Next (Api.RegisterEnv.userId env))
  /\ (forall wrong,
         wrong <> "" ->
         bcrypt_compare wrong (Api.RegisterEnv.hashedPassword env) = false ->
         Api.login bcrypt_compare s1
           (JsonBody.mk (Some username) (Some wrong) None) lenv
         = (Api.respond 401 (Api.Message "Invalid credentials"), s1))
  /\ (forall nobody anything,
         nobody <> "" -> anything <> "" ->
         MemStorage.getUserByUsername s1 nobody = None ->
         Api.login bcrypt_compare s1
           (JsonBody.mk (Some nobody) (Some anything) None) lenv
         = (Api.respond 401 (Api.Message "Invalid credentials"), s1)).
Proof.
  intros Hu Hp Hcompare Htoken.
  destruct (Api.register s body env) as [r1 s1] eqn:Hrun. intros Hok.
  destruct (register_ok _ _ _ _ _ Hrun Hok)
    as (data & Hparse & Hfree & _ & Hs1).
  cbv zeta in Hs1.
  pose proof (registerSchema_loginSchema _ _ Hparse) as Hlogin.
  assert (RegisterRequest.username data = username
          /\ RegisterRequest.password data = password) as [Hdu Hdp].
  { unfold registerSchema in Hparse. rewrite Hu, Hp in Hparse.
    destruct (JsonBody.recoveryKey body); [|discriminate].
    destruct (_ && _); [|discriminate]. now injection Hparse as <-. }
  rewrite Hdu in *. rewrite Hdp in *.
  set (user := User.mk (Api.RegisterEnv.userId env) username
                 (Api.RegisterEnv.hashedPassword env)
                 (RegisterRequest.recoveryKey data)
                 (JsString.toString_hex (Api.RegisterEnv.encryptionKeyBytes env))
                 (Api.RegisterEnv.userCreatedAt env)) in *.
  assert (MemStorage.getUserByUsername s1 username = Some user) as Hfound.
  { pose proof (getUserByUsername_created s (Api.RegisterEnv.userId env)
                  (Api.RegisterEnv.userCreatedAt env)
                  (InsertUser.mk username (Api.RegisterEnv.hashedPassword env)
                     (RegisterRequest.recoveryKey data)
                     (JsString.toString_hex
                        (Api.RegisterEnv.encryptionKeyBytes env)))
                  Hfree) as H.
    unfold MemStorage.getUserByUsername in *. rewrite Hs1.
    exact H. }
  assert (forall x, x <> "" -> min_length 1 x = true) as Hmin.
  { intros x Hx. unfold min_length. apply Nat.leb_le.
    now apply JsString_length_pos. }
  split; [|split].
  - unfold Api.login. rewrite Hlogin.
    cbn [LoginRequest.username LoginRequest.password].
    rewrite Hfound. cbn [User.password user]. rewrite Hcompare.
    cbn [negb MemStorage.createSession Routes.new_session
         InsertSession.sessionToken User.id User.username User.encryptionKey
         user].
    split; [reflexivity|]. intros now Hnow.
    destruct (toString_hex_32 _ Htoken) as (_ & _ & Hne).
    rewrite authenticateUser_bearer by exact Hne.
    unfold MemStorage.getSession.
    cbn [MemStorage.sessions MemStorage.with_sessions
         UserSession.sessionToken InsertSession.sessionToken
         InsertSession.userId InsertSession.expiresAt].
    rewrite JsMap_get_set_same. unfold Routes.new_session.
    cbn [UserSession.expiresAt InsertSession.expiresAt InsertSession.userId].
    destruct (Z.gtb_spec
                (Api.LoginEnv.dateNow lenv + 7 * 24 * 60 * 60 * 1000) now);
      [reflexivity|lia].
  - intros wrong Hwrong Hreject. unfold Api.login, loginSchema.
    cbn [JsonBody.username JsonBody.password].
    assert (min_length 1 username = true) as Hmu.
    { apply registerSchema_loginSchema in Hparse. unfold loginSchema in Hparse.
      rewrite Hu, Hp in Hparse.
      destruct (min_length 1 username); [reflexivity|discriminate]. }
    rewrite Hmu, (Hmin wrong Hwrong).
    cbn [andb LoginRequest.username LoginRequest.password].
    rewrite Hfound. cbn [User.password user]. now rewrite Hreject.
  - intros nobody anything Hn Ha Hnone. unfold Api.login, loginSchema.
    cbn [JsonBody.username JsonBody.password].
    rewrite (Hmin nobody Hn), (Hmin anything Ha).
    cbn [andb LoginRequest.username LoginRequest.password].
    now rewrite Hnone.
Qed.

(** Alice registers and logs in; a wrong password and an unknown name. *)
Lemma register_then_login_witness :
  let lenv := Api.LoginEnv.mk (Scenario.bytes x5c) 9000 "s2" 9000 in
  let s1 :=
    snd (Api.register MemStorage.empty Scenario.alice_body
           Scenario.alice_env) in
  Api.status (fst (Api.login Scenario.compare s1 Scenario.alice_body lenv))
  = 200
  /\ Api.login Scenario.compare s1
       (JsonBody.mk (Some "alice") (Some "guess") None) lenv
     = (Api.respond 401 (Api.Message "Invalid credentials"), s1)
  /\ Api.login Scenario.compare s1
       (JsonBody.mk (Some "carol") (Some "Secret123!") None) lenv
     = (Api.respond 401 (Api.Message "Invalid credentials"), s1).
Proof.
  cbv zeta.
  pose proof (register_then_login Scenario.compare MemStorage.empty
                Scenario.alice_body Scenario.alice_env
                (Api.LoginEnv.mk (Scenario.bytes x5c) 9000 "s2" 9000)
                "alice" "Secret123!" eq_refl eq_refl eq_refl eq_refl) as H.
  destruct (Api.register MemStorage.empty Scenario.alice_body
              Scenario.alice_env) as [r1 s1] eqn:Hrun.
  assert (Api.status r1 = 200) as Hok.
  { injection Hrun as <- _. reflexivity. }
  destruct (H Hok) as (Hlogin & Hwrong & Hnobody). cbn [snd].
  split; [|split].
  - destruct (Api.login Scenario.compare s1 Scenario.alice_body _)
      as [r2 s2]. destruct Hlogin as [-> _]. reflexivity.
  - apply Hwrong; [discriminate|reflexivity].
  - apply Hnobody; try discriminate.
    injection Hrun as _ <-. reflexivity.
Defined.

(** ** Requests of other users *)

Section FilterValues.
Context {V : Type} (f : V -> bool).
Implicit Types (m : JsMap.t V) (k : string) (v : V).

Lemma filter_values_set k v old m :
  JsMap.get k m = Some old -> f old = false -> f v = false ->
  filter f (JsMap.values (JsMap.set k v m)) = filter f (JsMap.values m).
Proof.
  unfold JsMap.values. intros Hget Hold Hv.
  induction m as [|[k' v'] m IH]; simpl in *; [discriminate|].
  destruct (String.eqb k k'); simpl.
  - injection Hget as ->. now rewrite Hold, Hv.
  - now rewrite IH.
Qed.

Lemma filter_values_remove k old m :
  JsMap.wf m -> JsMap.get k m = Some old -> f old = false ->
  filter f (JsMap.values (JsMap.remove k m)) = filter f (JsMap.values m).
Proof.
  unfold JsMap.wf, JsMap.values. intros Hwf Hget Hold.
  induction m as [|[k' v'] m IH]; simpl in *; [discriminate|].
  inversion Hwf as [|? ? Hnot Hwf']; subst.
  destruct (String.eqb_spec k k') as [->|Hk]; simpl.
  - injection Hget as ->. rewrite Hold.
    apply JsMap_get_None_keys in Hnot.
    now rewrite (JsMap_remove_absent _ _ Hnot).
  - now rewrite IH.
Qed.

End FilterValues.

Lemma authenticated_401 s now authorization handler :
  (forall userId, Routes.authenticateUser s now authorization
                  <> Routes.Next userId) ->
  exists message,
    Api.authenticated s now authorization handler
    = (Api.respond 401 (Api.Message message), s).
Proof.
  unfold Api.authenticated, Routes.authenticateUser. intros Hnot.
  destruct (Routes.bearer_token authorization) as [token|]; [|eauto].
  destruct (negb (JsString.truthy token)); [eauto|].
  destruct (getSession s now token) as [session|] eqn:Hs; [|eauto].
  exfalso. apply (Hnot (UserSession.userId session)).
  unfold Routes.authenticateUser. reflexivity.
Qed.

Lemma authenticateUser_cases (s : MemStorage.t) now authorization :
  (exists userId,
      Routes.authenticateUser s now authorization = Routes.Next userId)
  \/ (exists message,
         Routes.authenticateUser s now authorization
         = Routes.Respond 401 message).
Proof.
  unfold Routes.authenticateUser.
  destruct (Routes.bearer_token authorization) as [token|]; [|eauto].
  destruct (negb (JsString.truthy token)); [eauto|].
  destruct (getSession s now token); eauto.
Qed.

(** X14. A request that does not carry a live session of a user leaves the
    events of that user as they are, whatever it asks for: creating (under
    an id not in use), updating or deleting events, or creating reminders.
    The handlers that only read change nothing at all. *)
Theorem foreign_requests_leave_events (s : MemStorage.t) (now : Date)
  (authorization : option string) (victim : string) :
  JsMap.wf (MemStorage.events s) ->
  Routes.authenticateUser s now authorization <> Routes.Next victim ->
  (forall parsed uuid createdAt updatedAt,
      JsMap.get uuid (MemStorage.events s) = None ->
      owned_events
        (snd (Api.postEvent s now authorization parsed uuid createdAt
                updatedAt)) victim
      = owned_events s victim)
  /\ (forall id parsed updatedAt,
         owned_events (snd (Api.putEvent s now authorization id parsed
                              updatedAt)) victim
         = owned_events s victim)
  /\ (forall id,
         owned_events (snd (Api.deleteEvent s now authorization id)) victim
         = owned_events s victim)
  /\ (forall parsed uuid createdAt,
         MemStorage.events
           (snd (Api.postReminder s now authorization parsed uuid createdAt))
         = MemStorage.events s)
  /\ (snd (Api.me s now authorization) = s
      /\ (forall startDate endDate,
             snd (Api.listEvents s now authorization startDate endDate) = s)
      /\ (forall eventId,
             snd (Api.listReminders s now authorization eventId) = s)
      /\ snd (Api.categoryStats s now authorization) = s).
Proof.
  intros Hwf Hother.
  unfold Api.postEvent, Api.putEvent, Api.deleteEvent, Api.postReminder,
    Api.me, Api.listEvents, Api.listReminders, Api.categoryStats,
    Api.authenticated.
  destruct (Routes.authenticateUser s now authorization) as [st msg|userId];
    [repeat split; reflexivity|].
  assert (String.eqb userId victim = false) as Hneq.
  { apply String.eqb_neq. congruence. }
  split; [|split; [|split; [|split]]].
  - intros [data|] uuid createdAt updatedAt Hfresh; [|reflexivity].
    unfold owned_events. cbn [MemStorage.createEvent snd MemStorage.events
      MemStorage.with_events Event.id].
    rewrite JsMap_values_set_fresh by exact Hfresh.
    rewrite filter_app. cbn [filter Event.userId]. rewrite Hneq.
    apply app_nil_r.
  - intros id [data|] updatedAt; [|reflexivity].
    unfold MemStorage.updateEvent.
    destruct (JsMap.get id (MemStorage.events s)) as [e|] eqn:Hget;
      [|reflexivity].
    destruct (String.eqb_spec (Event.userId e) userId) as [He|He];
      [|reflexivity].
    cbn [negb snd]. unfold owned_events.
    cbn [MemStorage.events MemStorage.with_events].
    apply (filter_values_set _ _ _ e); auto.
    + now rewrite He.
    + cbn [MemStorage.updated Event.userId]. now rewrite He.
  - intros id. unfold MemStorage.deleteEvent.
    destruct (JsMap.get id (MemStorage.events s)) as [e|] eqn:Hget;
      [|reflexivity].
    destruct (String.eqb_spec (Event.userId e) userId) as [He|He];
      [|reflexivity].
    cbn [negb JsMap.delete]. unfold JsMap.has. rewrite Hget.
    cbn [negb snd]. unfold owned_events.
    cbn [MemStorage.events MemStorage.with_events].
    apply (filter_values_remove _ _ e); auto. now rewrite He.
  - intros [data|] uuid createdAt; [|reflexivity].
    now destruct (MemStorage.getEvent s (InsertReminder.eventId data) userId).
  - split; [now destruct (MemStorage.getUser s userId)|].
    split; [reflexivity|]. split; [|reflexivity].
    intros eventId. now destruct (MemStorage.getEvent s eventId userId).
Qed.

(** Bob, with his own token, and a stranger without one go after Alice's
    event. *)
Lemma foreign_requests_leave_events_witness :
  let s := Scenario.store in
  owned_events
    (snd (Api.deleteEvent s 5000 (Scenario.bearer Scenario.bob_token) "e1"))
    "u-alice"
  = owned_events s "u-alice"
  /\ owned_events
       (snd (Api.putEvent s 5000 None "e1" (Some Sample.rename) 5000))
       "u-alice"
     = owned_events s "u-alice"
  /\ map Event.id (owned_events s "u-alice") = ["e1"].
Proof.
  cbv zeta.
  assert (JsMap.wf (MemStorage.events Scenario.store)) as Hwf.
  { repeat constructor. simpl. tauto. }
  split; [|split; [|reflexivity]].
  - apply (foreign_requests_leave_events Scenario.store 5000
             (Scenario.bearer Scenario.bob_token) "u-alice" Hwf).
    discriminate.
  - apply (foreign_requests_leave_events Scenario.store 5000 None "u-alice"
             Hwf).
    discriminate.
Defined.

(** ** Reminders through the API *)

(** X15. The API lists the reminders of an event only to a request that
    carries a live session of the event's owner, and then lists exactly the
    reminders stored for the event; it creates a reminder (201) only for
    such a request, and any other answer leaves the store as it was. *)
Theorem reminders_only_for_owner (s : MemStorage.t) (now : Date)
  (authorization : option string) :
  (forall eventId l,
      Api.body (fst (Api.listReminders s now authorization eventId))
      = Api.ReminderList l ->
      exists e,
        JsMap.get eventId (MemStorage.events s) = Some e
        /\ Routes.authenticateUser s now authorization
           = Routes.Next (Event.userId e)
        /\ l = MemStorage.getEventReminders s eventId)
  /\ (forall parsed uuid createdAt,
         let (r, s') :=
           Api.postReminder s now authorization parsed uuid createdAt in
         (Api.status r = 201 ->
          exists data e,
            parsed = Some data
            /\ JsMap.get (InsertReminder.eventId data) (MemStorage.events s)
               = Some e
            /\ Routes.authenticateUser s now authorization
               = Routes.Next (Event.userId e)
            /\ (r, s') = (Api.respond 201
                            (Api.ReminderRow
                               (fst (MemStorage.createReminder s uuid
                                       createdAt data))),
                          snd (MemStorage.createReminder s uuid createdAt
                                 data)))
         /\ (Api.status r <> 201 -> s' = s)).
Proof.
  assert (forall eventId userId,
             MemStorage.getEvent s eventId userId <> None ->
             exists e, JsMap.get eventId (MemStorage.events s) = Some e
                       /\ userId = Event.userId e) as Hown.
  { intros eventId userId. unfold MemStorage.getEvent.
    destruct (JsMap.get eventId (MemStorage.events s)) as [e|]; [|congruence].
    destruct (String.eqb_spec (Event.userId e) userId); [|congruence].
    intros _. now exists e. }
  unfold Api.listReminders, Api.postReminder, Api.authenticated.
  destruct (authenticateUser_cases s now authorization)
    as [[userId Hauth]|[message Hauth]]; rewrite Hauth.
  - split.
    + intros eventId l.
      destruct (MemStorage.getEvent s eventId userId) eqn:Hget;
        [|discriminate].
      intros [= <-]. destruct (Hown eventId userId) as (e & He & ->);
        [congruence|].
      now exists e.
    + intros [data|] uuid createdAt; [|split; [discriminate|reflexivity]].
      destruct (MemStorage.getEvent s (InsertReminder.eventId data) userId)
        eqn:Hget; [|split; [discriminate|reflexivity]].
      destruct (Hown (InsertReminder.eventId data) userId) as (e & He & ->);
        [congruence|].
      cbn [MemStorage.createReminder Api.status].
      split; [|congruence]. intros _. now exists data, e.
  - split; [intros eventId l; discriminate|].
    intros parsed uuid createdAt. cbn [Api.status].
    split; [discriminate|reflexivity].
Qed.

(** Alice lists and extends the reminders of her event; Bob is refused. *)
Lemma reminders_only_for_owner_witness :
  let s := Scenario.store in
  Api.body (fst (Api.listReminders s 5000
                   (Scenario.bearer Scenario.alice_token) "e1"))
  = Api.ReminderList [Reminder.mk "r1" "e1" 15 (Some false) 4000]
  /\ Api.listReminders s 5000 (Scenario.bearer Scenario.bob_token) "e1"
     = (Api.respond 404 (Api.Message "Event not found"), s)
  /\ snd (Api.postReminder s 5000 (Scenario.bearer Scenario.bob_token)
            (Some (InsertReminder.mk "e1" 60)) "r2" 5000)
     = s.
Proof.
  cbv zeta. split; [reflexivity|]. split; [reflexivity|].
  destruct (reminders_only_for_owner Scenario.store 5000
              (Scenario.bearer Scenario.bob_token)) as [_ Hpost].
  specialize (Hpost (Some (InsertReminder.mk "e1" 60)) "r2" 5000).
  destruct (Api.postReminder Scenario.store 5000
              (Scenario.bearer Scenario.bob_token)
              (Some (InsertReminder.mk "e1" 60)) "r2" 5000) as [r s'] eqn:Hrun.
  destruct Hpost as [_ Hkeep]. apply Hkeep.
  injection Hrun as <- _. discriminate.
Defined.

(** X16. Once [DELETE /api/events/:id] has answered 200, nobody is shown
    the reminders of the event and nobody can add one: listing them, and
    creating one with a well-formed body, answers 401 or 404, whoever asks
    and whenever.  The reminders themselves are still in the store. *)
Theorem deleted_event_reminders_hidden (s : MemStorage.t) (now : Date)
  (authorization : option string) (id : string) :
  let (r, s') := Api.deleteEvent s now authorization id in
  Api.status r = 200 ->
  (forall now' authorization',
      In (Api.status (fst (Api.listReminders s' now' authorization' id)))
         [401; 404])
  /\ (forall now' authorization' minutesBefore uuid createdAt,
         In (Api.status
               (fst (Api.postReminder s' now' authorization'
                       (Some (InsertReminder.mk id minutesBefore)) uuid
                       createdAt)))
            [401; 404])
  /\ MemStorage.getEventReminders s' id = MemStorage.getEventReminders s id
  /\ MemStorage.sessions s' = MemStorage.sessions s.
Proof.
  unfold Api.deleteEvent, Api.authenticated.
  destruct (authenticateUser_cases s now authorization)
    as [[userId Hauth]|[message Hauth]]; rewrite Hauth;
    [|cbn [Api.status]; discriminate].
  pose proof (deleteEvent_getEventReminders s id userId id) as Hkept.
  unfold MemStorage.deleteEvent in *.
  destruct (JsMap.get id (MemStorage.events s)) as [e|] eqn:Hget;
    [|cbn [negb Api.status]; discriminate].
  destruct (String.eqb (Event.userId e) userId);
    [|cbn [negb Api.status]; discriminate].
  cbn [negb JsMap.delete] in *. unfold JsMap.has in *. rewrite Hget in *.
  cbn [negb Api.status snd] in *. intros _.
  set (s' := MemStorage.with_events s _) in *.
  assert (forall u, MemStorage.getEvent s' id u = None) as Hgone.
  { intros u. unfold MemStorage.getEvent, s'.
    cbn [MemStorage.events MemStorage.with_events].
    now rewrite JsMap_get_remove_same. }
  split; [|split; [|split; [exact Hkept|reflexivity]]].
  - intros now' authorization'. unfold Api.listReminders, Api.authenticated.
    destruct (authenticateUser_cases s' now' authorization')
      as [[u Hu]|[m Hm]]; [rewrite Hu, Hgone|rewrite Hm]; simpl; auto.
  - intros now' authorization' minutesBefore uuid createdAt.
    unfold Api.postReminder, Api.authenticated.
    destruct (authenticateUser_cases s' now' authorization')
      as [[u Hu]|[m Hm]]; [rewrite Hu|rewrite Hm]; simpl; auto.
    cbn [InsertReminder.eventId]. rewrite Hgone. simpl. auto.
Qed.

(** Alice deletes her event and asks for its reminders. *)
Lemma deleted_event_reminders_hidden_witness :
  let (r, s') :=
    Api.deleteEvent Scenario.store 5000
      (Scenario.bearer Scenario.alice_token) "e1" in
  Api.status r = 200
  /\ fst (Api.listReminders s' 6000 (Scenario.bearer Scenario.alice_token)
            "e1")
     = Api.respond 404 (Api.Message "Event not found")
  /\ MemStorage.getEventReminders s' "e1"
     = [Reminder.mk "r1" "e1" 15 (Some false) 4000].
Proof.
  pose proof (deleted_event_reminders_hidden Scenario.store 5000
                (Scenario.bearer Scenario.alice_token) "e1") as H.
  destruct (Api.deleteEvent Scenario.store 5000
              (Scenario.bearer Scenario.alice_token) "e1") as [r s'] eqn:Hrun.
  assert (Api.status r = 200) as Hok.
  { injection Hrun as <- _. reflexivity. }
  destruct (H Hok) as (_ & _ & Hkept & _).
  split; [exact Hok|]. split.
  - injection Hrun as _ <-. reflexivity.
  - rewrite Hkept. reflexivity.
Defined.

(** ** What every reachable store satisfies *)

Ltac store_simpl :=
  cbn [fst snd MemStorage.users MemStorage.events MemStorage.reminders
       MemStorage.sessions MemStorage.with_users MemStorage.with_events
       MemStorage.with_reminders MemStorage.with_sessions] in *.

Lemma keyed_get {V : Type} (key : V -> string) (m : JsMap.t V) k v :
  keyed key m -> JsMap.get k m = Some v -> key v = k.
Proof.
  unfold keyed. rewrite Forall_forall. intros Hm Hget.
  apply JsMap_get_In in Hget. exact (Hm _ Hget).
Qed.

Lemma keyed_has {V : Type} (key : V -> string) (m : JsMap.t V) v :
  keyed key m -> In v (JsMap.values m) -> JsMap.has (key v) m = true.
Proof.
  unfold keyed, JsMap.values, JsMap.has. rewrite Forall_forall.
  intros Hm Hin. apply in_map_iff in Hin. destruct Hin as ([k x] & <- & Hin).
  rewrite (Hm _ Hin). simpl.
  destruct (JsMap.get k m) eqn:Hget; auto.
  apply JsMap_get_None_keys in Hget. exfalso. apply Hget.
  unfold JsMap.keys. change k with (fst (k, x)). now apply in_map.
Qed.

Lemma Forall_keys_set {V : Type} (P : string -> Prop) k v (m : JsMap.t V) :
  Forall P (JsMap.keys m) -> P k -> Forall P (JsMap.keys (JsMap.set k v m)).
Proof.
  intros Hm Hk. rewrite JsMap_keys_set. destruct (JsMap.has k m); auto.
  apply Forall_app. auto.
Qed.

Lemma Forall_keys_remove {V : Type} (P : string -> Prop) k (m : JsMap.t V) :
  Forall P (JsMap.keys m) -> Forall P (JsMap.keys (JsMap.remove k m)).
Proof.
  rewrite JsMap_keys_remove, !Forall_forall. intros Hm x Hin.
  apply filter_In in Hin. now apply Hm.
Qed.

Lemma getSession_stored s now token session :
  MemStorage.getSession s now token = Some session ->
  In session (JsMap.values (MemStorage.sessions s)).
Proof.
  intros H. apply getSession_live in H. destruct H as [H _].
  eapply JsMap_get_values; eauto.
Qed.

Lemma registerSchema_sized body data :
  registerSchema body = Some data ->
  (3 <= JsString.length (RegisterRequest.username data) <= 50)%nat.
Proof.
  unfold registerSchema, min_length, max_length.
  destruct (JsonBody.username body) as [u|]; [|discriminate].
  destruct (JsonBody.password body) as [p|]; [|discriminate].
  destruct (JsonBody.recoveryKey body) as [k|]; [|discriminate].
  destruct (Nat.leb_spec 3 (JsString.length u)); [|discriminate].
  destruct (Nat.leb_spec (JsString.length u) 50); [|discriminate].
  destruct (8 <=? JsString.length p)%nat; [|discriminate].
  intros [= <-]. cbn [RegisterRequest.username]. lia.
Qed.

Lemma invariant_createUser s uuid now i :
  store_invariant s ->
  MemStorage.getUserByUsername s (InsertUser.username i) = None ->
  (3 <= JsString.length (InsertUser.username i) <= 50)%nat ->
  store_invariant (snd (MemStorage.createUser s uuid now i)).
Proof.
  intros [] Hfree Hsized. apply getUserByUsername_None in Hfree.
  unfold MemStorage.createUser, usernames_unique in *.
  constructor; store_simpl; cbn [User.id]; auto.
  - now apply JsMap_wf_set.
  - now apply JsMap_keyed_set.
  - unfold usernames_unique. store_simpl. now apply JsMap_set_NoDup_image.
  - now apply JsMap_values_set_Forall.
  - eapply Forall_impl; [|eassumption]. intros x. apply JsMap_has_set.
  - eapply Forall_impl; [|eassumption]. intros x. apply JsMap_has_set.
Qed.

Lemma invariant_createSession s uuid now i :
  store_invariant s ->
  JsMap.has (InsertSession.userId i) (MemStorage.users s) = true ->
  JsString.is_hex (InsertSession.sessionToken i) = true ->
  String.length (InsertSession.sessionToken i) = 64%nat ->
  store_invariant (snd (MemStorage.createSession s uuid now i)).
Proof.
  intros [] Huser Hhex Hlen. unfold MemStorage.createSession.
  constructor; store_simpl; cbn [UserSession.sessionToken]; auto.
  - now apply JsMap_wf_set.
  - now apply JsMap_keyed_set.
  - now apply Forall_keys_set.
  - now apply JsMap_values_set_Forall.
Qed.

Lemma invariant_deleteSession s token :
  store_invariant s -> store_invariant (MemStorage.deleteSession s token).
Proof.
  intros []. unfold MemStorage.deleteSession, JsMap.delete.
  constructor; store_simpl; auto.
  - now apply JsMap_wf_remove.
  - now apply JsMap_keyed_remove.
  - now apply Forall_keys_remove.
  - now apply JsMap_values_remove_Forall.
Qed.

Lemma invariant_createEvent s uuid createdAt updatedAt userId i :
  store_invariant s ->
  JsMap.has userId (MemStorage.users s) = true ->
  store_invariant
    (snd (MemStorage.createEvent s uuid createdAt updatedAt userId i)).
Proof.
  intros [] Huser. unfold MemStorage.createEvent.
  constructor; store_simpl; cbn [Event.id]; auto.
  - now apply JsMap_wf_set.
  - now apply JsMap_keyed_set.
  - now apply JsMap_values_set_Forall.
Qed.

Lemma invariant_updateEvent s id userId updates now :
  store_invariant s ->
  store_invariant (snd (MemStorage.updateEvent s id userId updates now)).
Proof.
  intros Hinv. unfold MemStorage.updateEvent.
  destruct (JsMap.get id (MemStorage.events s)) as [e|] eqn:Hget; auto.
  destruct (String.eqb (Event.userId e) userId); auto.
  destruct Hinv. constructor; store_simpl; auto.
  - now apply JsMap_wf_set.
  - apply JsMap_keyed_set; auto. cbn [MemStorage.updated Event.id].
    eapply keyed_get; eauto.
  - apply JsMap_values_set_Forall; auto.
    cbn [MemStorage.updated Event.userId].
    rewrite Forall_forall in events_of_users0. apply events_of_users0.
    eapply JsMap_get_values; eauto.
Qed.

Lemma invariant_deleteEvent s id userId :
  store_invariant s ->
  store_invariant (snd (MemStorage.deleteEvent s id userId)).
Proof.
  intros Hinv. unfold MemStorage.deleteEvent.
  destruct (JsMap.get id (MemStorage.events s)) as [e|]; auto.
  destruct (String.eqb (Event.userId e) userId); auto.
  destruct Hinv. unfold JsMap.delete. constructor; store_simpl; auto.
  - now apply JsMap_wf_remove.
  - now apply JsMap_keyed_remove.
  - now apply JsMap_values_remove_Forall.
Qed.

Lemma invariant_createReminder s uuid now i :
  store_invariant s ->
  store_invariant (snd (MemStorage.createReminder s uuid now i)).
Proof.
  intros []. unfold MemStorage.createReminder.
  constructor; store_simpl; cbn [Reminder.id]; auto.
  - now apply JsMap_wf_set.
  - now apply JsMap_keyed_set.
Qed.

Lemma invariant_requester s now authorization userId :
  store_invariant s ->
  Routes.authenticateUser s now authorization = Routes.Next userId ->
  JsMap.has userId (MemStorage.users s) = true.
Proof.
  intros Hinv Hauth.
  apply authenticateUser_Next in Hauth.
  destruct Hauth as (token & session & _ & Hs & <-).
  apply getSession_stored in Hs.
  pose proof (sessions_of_users s Hinv) as H.
  rewrite Forall_forall in H. now apply H.
Qed.

Lemma invariant_empty : store_invariant MemStorage.empty.
Proof. constructor; simpl; constructor. Qed.

Lemma invariant_handle bcrypt_compare s r :
  store_invariant s -> Api.draws_32_bytes r ->
  store_invariant (snd (Api.handle bcrypt_compare s r)).
Proof.
  intros Hinv Hdraw.
  destruct r; cbn [Api.handle Api.draws_32_bytes] in *.
  - unfold Api.register.
    destruct (registerSchema body) as [data|] eqn:Hparse; auto.
    destruct (MemStorage.getUserByUsername s _) eqn:Hfree; auto.
    destruct Hdraw as [_ Htoken].
    destruct (toString_hex_32 _ Htoken) as (Hhex & Hlen & _).
    cbn [MemStorage.createUser User.id].
    match goal with
    | |- context [MemStorage.createSession ?s1 ?u ?c ?i] =>
        change (store_invariant (snd (MemStorage.createSession s1 u c i)))
    end.
    apply invariant_createSession; auto.
    + apply (invariant_createUser s (Api.RegisterEnv.userId env)
               (Api.RegisterEnv.userCreatedAt env)
               (InsertUser.mk (RegisterRequest.username data)
                  (Api.RegisterEnv.hashedPassword env)
                  (RegisterRequest.recoveryKey data)
                  (JsString.toString_hex
                     (Api.RegisterEnv.encryptionKeyBytes env)))); auto.
      apply (registerSchema_sized _ _ Hparse).
    + store_simpl. apply JsMap_has_set_same.
  - unfold Api.login.
    destruct (loginSchema body) as [data|]; auto.
    destruct (MemStorage.getUserByUsername s _) as [user|] eqn:Hfound; auto.
    destruct (negb _); auto.
    destruct (toString_hex_32 _ Hdraw) as (Hhex & Hlen & _).
    match goal with
    | |- context [MemStorage.createSession ?s1 ?u ?c ?i] =>
        change (store_invariant (snd (MemStorage.createSession s1 u c i)))
    end.
    apply invariant_createSession; auto.
    apply getUserByUsername_Some in Hfound. destruct Hfound as [Hin _].
    apply (keyed_has User.id); auto. apply (users_keyed s Hinv).
  - unfold Api.logout. cbn [snd].
    destruct (Routes.bearer_token authorization) as [token|]; auto.
    destruct (JsString.truthy token); auto.
    now apply invariant_deleteSession.
  - unfold Api.me, Api.authenticated.
    destruct (Routes.authenticateUser s now authorization); auto.
    destruct (MemStorage.getUser s userId); auto.
  - unfold Api.listEvents, Api.authenticated.
    destruct (Routes.authenticateUser s now authorization); auto.
  - unfold Api.postEvent, Api.authenticated.
    destruct (Routes.authenticateUser s now authorization) eqn:Hauth; auto.
    destruct parsed as [data|]; auto.
    match goal with
    | |- context [MemStorage.createEvent ?s1 ?u ?c ?d ?o ?i] =>
        change (store_invariant (snd (MemStorage.createEvent s1 u c d o i)))
    end.
    apply invariant_createEvent; auto.
    eapply invariant_requester; eauto.
  - unfold Api.putEvent, Api.authenticated.
    destruct (Routes.authenticateUser s now authorization); auto.
    destruct parsed as [data|]; auto.
    pose proof (invariant_updateEvent s id userId data updatedAt Hinv) as H.
    destruct (MemStorage.updateEvent s id userId data updatedAt) as [[e|] s'];
      exact H.
  - unfold Api.deleteEvent, Api.authenticated.
    destruct (Routes.authenticateUser s now authorization); auto.
    pose proof (invariant_deleteEvent s id userId Hinv) as H.
    destruct (MemStorage.deleteEvent s id userId) as [[|] s']; exact H.
  - unfold Api.listReminders, Api.authenticated.
    destruct (Routes.authenticateUser s now authorization); auto.
    destruct (MemStorage.getEvent s eventId userId); auto.
  - unfold Api.postReminder, Api.authenticated.
    destruct (Routes.authenticateUser s now authorization); auto.
    destruct parsed as [data|]; auto.
    destruct (MemStorage.getEvent s _ userId); auto.
    match goal with
    | |- context [MemStorage.createReminder ?s1 ?u ?c ?i] =>
        change (store_invariant (snd (MemStorage.createReminder s1 u c i)))
    end.
    now apply invariant_createReminder.
  - unfold Api.categoryStats, Api.authenticated.
    destruct (Routes.authenticateUser s now authorization); auto.
Qed.

Lemma invariant_run bcrypt_compare requests : forall s,
  store_invariant s -> Forall Api.draws_32_bytes requests ->
  store_invariant (Api.run bcrypt_compare s requests).
Proof.
  induction requests as [|r requests IH]; intros s Hinv Hdraws; simpl; auto.
  inversion Hdraws; subst. apply IH; auto. now apply invariant_handle.
Qed.

(** X17. Whatever requests the API has served, one after another, since the
    store was empty: each map holds a key once and holds every entry under
    the id (the token, for a session) of its value; no two users share a
    username and every username has a [length] of 3 to 50 UTF-16 code
    units; every session token is 64 hexadecimal digits; every session and
    every event belongs to a stored user. *)
Theorem api_keeps_invariant (bcrypt_compare : string -> string -> bool)
  (requests : list Api.Request) :
  Forall Api.draws_32_bytes requests ->
  store_invariant (Api.run bcrypt_compare MemStorage.empty requests).
Proof.
  intros Hdraws. apply invariant_run; auto. apply invariant_empty.
Qed.

(** The scenario: two registrations, an event, a reminder. *)
Lemma api_keeps_invariant_witness :
  Forall Api.draws_32_bytes Scenario.requests
  /\ store_invariant Scenario.store
  /\ map User.username (JsMap.values (MemStorage.users Scenario.store))
     = ["alice"; "bob"]
  /\ JsMap.keys (MemStorage.sessions Scenario.store)
     = [Scenario.alice_token; Scenario.bob_token].
Proof.
  assert (Forall Api.draws_32_bytes Scenario.requests) as Hdraws.
  { repeat constructor. }
  split; [exact Hdraws|]. split; [|split; reflexivity].
  exact (api_keeps_invariant Scenario.compare Scenario.requests Hdraws).
Defined.

(** X18. In a store the API has reached, a request that the middleware
    lets through belongs to a stored user: [GET /api/auth/me] answers 200
    with that user's id, username and key, or 401, never 404, and leaves
    the store as it is. *)
Theorem me_never_404 (bcrypt_compare : string -> string -> bool)
  (requests : list Api.Request) (now : Date) (authorization : option string) :
  Forall Api.draws_32_bytes requests ->
  let s := Api.run bcrypt_compare MemStorage.empty requests in
  (forall userId,
      Routes.authenticateUser s now authorization = Routes.Next userId ->
      exists user,
        MemStorage.getUser s userId = Some user
        /\ User.id user = userId
        /\ Api.me s now authorization
           = (Api.json (Api.Profile userId (User.username user)
                          (User.encryptionKey user)), s))
  /\ ((forall userId,
          Routes.authenticateUser s now authorization
          <> Routes.Next userId) ->
      exists message,
        Api.me s now authorization
        = (Api.respond 401 (Api.Message message), s))
  /\ In (Api.status (fst (Api.me s now authorization))) [200; 401].
Proof.
  intros Hdraws s.
  assert (store_invariant s) as Hinv.
  { apply invariant_run; auto. apply invariant_empty. }
  assert (forall userId,
      Routes.authenticateUser s now authorization = Routes.Next userId ->
      exists user,
        MemStorage.getUser s userId = Some user
        /\ User.id user = userId
        /\ Api.me s now authorization
           = (Api.json (Api.Profile userId (User.username user)
                          (User.encryptionKey user)), s)) as Hlive.
  { intros userId Hauth.
    pose proof (invariant_requester _ _ _ _ Hinv Hauth) as Hhas.
    unfold JsMap.has in Hhas. unfold Api.me, Api.authenticated.
    rewrite Hauth. unfold MemStorage.getUser.
    destruct (JsMap.get userId (MemStorage.users s)) as [user|] eqn:Hget;
      [|discriminate].
    pose proof (keyed_get User.id _ _ _ (users_keyed s Hinv) Hget) as Hid.
    exists user. rewrite Hid. auto. }
  split; [exact Hlive|]. split.
  - intros Hnot. now apply authenticated_401.
  - destruct (authenticateUser_cases s now authorization)
      as [[userId Hauth]|[message Hauth]].
    + destruct (Hlive userId Hauth) as (user & _ & _ & ->). simpl. auto.
    + unfold Api.me, Api.authenticated. rewrite Hauth. simpl. auto.
Qed.

(** Alice asks who she is with her token, then with a token nobody has. *)
Lemma me_never_404_witness :
  Api.me Scenario.store 5000 (Scenario.bearer Scenario.alice_token)
  = (Api.json (Api.Profile "u-alice" "alice"
                 (JsString.toString_hex (Scenario.bytes x11))),
     Scenario.store)
  /\ Api.status (fst (Api.me Scenario.store 5000 (Scenario.bearer "beef")))
     = 401.
Proof.
  assert (Forall Api.draws_32_bytes Scenario.requests) as Hdraws.
  { repeat constructor. }
  destruct (me_never_404 Scenario.compare Scenario.requests 5000
              (Scenario.bearer Scenario.alice_token) Hdraws)
    as (Hlive & _ & _).
  destruct (Hlive "u-alice" eq_refl) as (user & Hget & _ & Hme).
  split; [|reflexivity].
  fold Scenario.store in Hme, Hget. rewrite Hme.
  injection Hget as <-. reflexivity.
Defined.

(** X19. In a store the API has reached, no session sits under the empty
    token and no token holds ["Bearer "], so the middleware answers 401
    exactly when the header is absent or the token left after removing the
    first ["Bearer "] resolves to no live session; and a token sent without
    the prefix is treated as the same token sent with it. *)
Theorem reached_store_401 (bcrypt_compare : string -> string -> bool)
  (requests : list Api.Request) (now : Date) :
  Forall Api.draws_32_bytes requests ->
  let s := Api.run bcrypt_compare MemStorage.empty requests in
  MemStorage.getSession s now "" = None
  /\ (forall token session,
         MemStorage.getSession s now token = Some session ->
         ~ JsString.occurs "Bearer " token
         /\ Routes.authenticateUser s now (Some token)
            = Routes.Next (UserSession.userId session)
         /\ Routes.authenticateUser s now (Some ("Bearer " ++ token)%string)
            = Routes.Next (UserSession.userId session))
  /\ (forall authorization,
         Routes.is_401 (Routes.authenticateUser s now authorization) = true
         <-> authorization = None
             \/ exists token,
                  Routes.bearer_token authorization = Some token
                  /\ MemStorage.getSession s now token = None).
Proof.
  intros Hdraws s.
  assert (store_invariant s) as Hinv.
  { apply invariant_run; auto. apply invariant_empty. }
  pose proof (tokens_sized s Hinv) as Htokens.
  rewrite Forall_forall in Htokens.
  assert (forall token session,
             MemStorage.getSession s now token = Some session ->
             JsString.is_hex token = true /\ token <> "") as Hissued.
  { intros token session Hs. apply getSession_live in Hs.
    destruct Hs as [Hget _].
    destruct (Htokens token) as [Hhex Hlen].
    - apply JsMap_get_In in Hget. unfold JsMap.keys.
      change token with (fst (token, session)). now apply in_map.
    - split; auto. intros ->. discriminate. }
  assert (MemStorage.getSession s now "" = None) as Hempty.
  { destruct (MemStorage.getSession s now "") as [session|] eqn:Hs; auto.
    destruct (Hissued _ _ Hs) as [_ Hne]. congruence. }
  split; [exact Hempty|]. split.
  - intros token session Hs. destruct (Hissued _ _ Hs) as [Hhex Hne].
    pose proof (is_hex_no_bearer token Hhex) as Hnone.
    split; [exact Hnone|].
    assert (Routes.authenticateUser s now (Some ("Bearer " ++ token)%string)
            = Routes.Next (UserSession.userId session)) as Hprefixed.
    { rewrite authenticateUser_bearer by exact Hne. now rewrite Hs. }
    split; [|exact Hprefixed].
    rewrite <- Hprefixed.
    unfold Routes.authenticateUser, Routes.bearer_token. cbn [option_map].
    now rewrite (replace_absent _ _ _ Hnone), (replace_prefix "Bearer " "").
  - intros [header|]; unfold Routes.authenticateUser; simpl.
    + set (token := JsString.replace "Bearer " "" header).
      change (@getSession MemStorage.t _) with MemStorage.getSession.
      unfold JsString.truthy.
      destruct (String.eqb_spec token "") as [E|E]; simpl.
      * split; [|reflexivity]. intros _. right. exists token.
        split; [reflexivity|]. now rewrite E.
      * destruct (MemStorage.getSession s now token) eqn:Hs; simpl.
        -- split; [discriminate|].
           intros [Habs|(tok & Htok & Hgone)]; [discriminate|].
           injection Htok as <-. congruence.
        -- split; [|reflexivity]. intros _. right. now exists token.
    + split; auto.
Qed.

(** Alice's token with and without the prefix, in the scenario. *)
Lemma reached_store_401_witness :
  Routes.authenticateUser Scenario.store 5000 (Some Scenario.alice_token)
  = Routes.Next "u-alice"
  /\ Routes.authenticateUser Scenario.store 5000
       (Scenario.bearer Scenario.alice_token)
     = Routes.Next "u-alice"
  /\ Routes.is_401 (Routes.authenticateUser Scenario.store 5000 (Some ""))
     = true.
Proof.
  assert (Forall Api.draws_32_bytes Scenario.requests) as Hdraws.
  { repeat constructor. }
  destruct (reached_store_401 Scenario.compare Scenario.requests 5000 Hdraws)
    as (Hempty & Htoken & H401).
  fold Scenario.store in Hempty, Htoken, H401.
  destruct (Htoken Scenario.alice_token
              (UserSession.mk "s-alice" "u-alice" Scenario.alice_token
                 (1000 + 7 * 24 * 60 * 60 * 1000) 1000) eq_refl)
    as (_ & Hbare & Hprefixed).
  split; [exact Hbare|]. split; [exact Hprefixed|].
  apply H401. right. exists "". split; [reflexivity|exact Hempty].
Defined.

(** ** What the API shows *)

(** X20. Every event that a response of the API carries, in a list or
    alone, belongs to the user whose live session the request presented;
    a request that does not pass the middleware is shown no event. *)
Theorem responses_show_own_events (bcrypt_compare : string -> string -> bool)
  (s : MemStorage.t) (r : Api.Request) (e : Event.t) :
  In e (body_events (Api.body (fst (Api.handle bcrypt_compare s r)))) ->
  exists now authorization,
    credentials r = Some (now, authorization)
    /\ Routes.authenticateUser s now authorization
       = Routes.Next (Event.userId e).
Proof.
  destruct r; cbn [Api.handle credentials].
  - unfold Api.register. destruct (registerSchema body); [|intros []].
    destruct (MemStorage.getUserByUsername s _); intros [].
  - unfold Api.login. destruct (loginSchema body); [|intros []].
    destruct (MemStorage.getUserByUsername s _); [|intros []].
    destruct (negb _); intros [].
  - intros [].
  - unfold Api.me, Api.authenticated.
    destruct (Routes.authenticateUser s now authorization); [intros []|].
    destruct (MemStorage.getUser s userId); intros [].
  - unfold Api.listEvents, Api.authenticated.
    destruct (Routes.authenticateUser s now authorization) eqn:Hauth;
      [intros []|].
    cbn [fst Api.body Api.json body_events]. intros Hin.
    apply getEvents_owner in Hin. exists now, authorization.
    split; congruence.
  - unfold Api.postEvent, Api.authenticated.
    destruct (Routes.authenticateUser s now authorization) eqn:Hauth;
      [intros []|].
    destruct parsed as [data|]; [|intros []].
    cbn [MemStorage.createEvent fst Api.body body_events].
    intros [<-|[]]. now exists now, authorization.
  - unfold Api.putEvent, Api.authenticated.
    destruct (Routes.authenticateUser s now authorization) eqn:Hauth;
      [intros []|].
    destruct parsed as [data|]; [|intros []].
    unfold MemStorage.updateEvent.
    destruct (JsMap.get id (MemStorage.events s)) as [old|]; [|intros []].
    destruct (String.eqb_spec (Event.userId old) userId) as [Hown|];
      [|intros []].
    cbn [negb fst Api.body Api.json body_events]. intros [<-|[]].
    exists now, authorization. cbn [MemStorage.updated Event.userId].
    split; congruence.
  - unfold Api.deleteEvent, Api.authenticated.
    destruct (Routes.authenticateUser s now authorization); [intros []|].
    destruct (MemStorage.deleteEvent s id userId) as [[|] s']; intros [].
  - unfold Api.listReminders, Api.authenticated.
    destruct (Routes.authenticateUser s now authorization); [intros []|].
    destruct (MemStorage.getEvent s eventId userId); intros [].
  - unfold Api.postReminder, Api.authenticated.
    destruct (Routes.authenticateUser s now authorization); [intros []|].
    destruct parsed as [data|]; [|intros []].
    destruct (MemStorage.getEvent s _ userId); intros [].
  - unfold Api.categoryStats, Api.authenticated.
    destruct (Routes.authenticateUser s now authorization); intros [].
Qed.

(** Alice lists her events. *)
Lemma responses_show_own_events_witness :
  exists e,
    body_events
      (Api.body
         (fst (Api.handle Scenario.compare Scenario.store
                 (Api.GetEvents 5000 (Scenario.bearer Scenario.alice_token)
                    None None))))
    = [e]
    /\ Routes.authenticateUser Scenario.store 5000
         (Scenario.bearer Scenario.alice_token)
       = Routes.Next (Event.userId e).
Proof.
  eexists. split; [reflexivity|].
  destruct (responses_show_own_events Scenario.compare Scenario.store
              (Api.GetEvents 5000 (Scenario.bearer Scenario.alice_token)
                 None None)
              (fst (MemStorage.createEvent MemStorage.empty "e1" 3000 3000
                      "u-alice" Sample.standup)))
    as (now & authorization & Hcred & Hauth).
  - left. reflexivity.
  - injection Hcred as <- <-. exact Hauth.
Defined.

(** X21. An event posted by a user with a live session, under an id not in
    use, is answered with 201 and the stored row, owned by that user; as
    long as the session is live, [GET /api/events] without bounds then
    shows that user the event exactly once, among the events shown
    before. *)
Theorem postEvent_then_listed (s : MemStorage.t) (now now' : Date)
  (authorization : option string) (userId uuid : string)
  (data : InsertEvent.t) (createdAt updatedAt : Date) :
  Routes.authenticateUser s now authorization = Routes.Next userId ->
  Routes.authenticateUser s now' authorization = Routes.Next userId ->
  JsMap.get uuid (MemStorage.events s) = None ->
  keyed Event.id (MemStorage.events s) ->
  let (r, s') :=
    Api.postEvent s now authorization (Some data) uuid createdAt updatedAt in
  exists e shown,
    r = Api.respond 201 (Api.EventRow e)
    /\ Event.id e = uuid /\ Event.userId e = userId
    /\ Event.title e = InsertEvent.title data
    /\ Event.startDate e = InsertEvent.startDate data
    /\ fst (Api.listEvents s' now' authorization None None)
       = Api.json (Api.EventList shown)
    /\ filter (fun x => String.eqb (Event.id x) uuid) shown = [e]
    /\ Permutation shown (e :: MemStorage.getEvents s userId None None).
Proof.
  intros Hauth Hauth' Hfresh Hkeyed.
  unfold Api.postEvent, Api.authenticated. rewrite Hauth.
  cbn [MemStorage.createEvent Event.id].
  set (e := Event.mk uuid userId _ _ _ _ _ _ _ _ _ _ _).
  set (s' := MemStorage.with_events s _).
  exists e, (MemStorage.getEvents s' userId None None).
  assert (owned_events s' userId = owned_events s userId ++ [e]) as Howned.
  { unfold owned_events, s'. store_simpl.
    rewrite JsMap_values_set_fresh by exact Hfresh.
    rewrite filter_app. cbn [filter Event.userId e].
    now rewrite String.eqb_refl. }
  assert (Permutation (MemStorage.getEvents s' userId None None)
            (e :: MemStorage.getEvents s userId None None)) as Hperm.
  { rewrite !getEvents_of_owned, Howned, !JsArray_sort_perm.
    now rewrite Permutation_app_comm. }
  repeat (split; [reflexivity|]).
  split; [|split; [|exact Hperm]].
  - unfold Api.listEvents, Api.authenticated.
    rewrite (authenticateUser_same_sessions s s') by reflexivity.
    now rewrite Hauth'.
  - assert (forall l, (forall x, In x l -> Event.id x <> uuid) ->
                      filter (fun x => String.eqb (Event.id x) uuid) l = [])
      as Hnone.
    { induction l as [|x l IH]; intros Hl; simpl; auto.
      destruct (String.eqb_spec (Event.id x) uuid) as [E|E].
      - exfalso. apply (Hl x); auto. now left.
      - apply IH. intros y Hy. apply Hl. now right. }
    assert (forall x, In x (MemStorage.getEvents s userId None None) ->
                      Event.id x <> uuid) as Hold.
    { intros x Hin. rewrite getEvents_of_owned in Hin.
      eapply Permutation_in in Hin; [|apply JsArray_sort_perm].
      apply filter_In in Hin. destruct Hin as [Hin _].
      unfold JsMap.values in Hin. apply in_map_iff in Hin.
      destruct Hin as ([k v] & <- & Hin).
      unfold keyed in Hkeyed. rewrite Forall_forall in Hkeyed.
      pose proof (Hkeyed _ Hin) as Hk. simpl in Hk. simpl. rewrite Hk.
      intros ->. apply JsMap_get_None_keys in Hfresh. apply Hfresh.
      unfold JsMap.keys. change uuid with (fst (uuid, v)). now apply in_map. }
    assert (forall l l' : list Event.t, Permutation l l' ->
              List.length (filter (fun x => String.eqb (Event.id x) uuid) l)
              = List.length
                  (filter (fun x => String.eqb (Event.id x) uuid) l'))
      as Hcount.
    { intros l l' Hp. induction Hp; simpl; auto.
      - destruct (String.eqb (Event.id x) uuid); simpl; congruence.
      - destruct (String.eqb (Event.id x) uuid),
                 (String.eqb (Event.id y) uuid); reflexivity.
      - congruence. }
    specialize (Hcount _ _ Hperm). cbn [filter Event.id e] in Hcount.
    rewrite String.eqb_refl in Hcount. cbn [Event.id] in Hcount.
    rewrite (Hnone _ Hold) in Hcount.
    destruct (filter (fun x => String.eqb (Event.id x) uuid)
                (MemStorage.getEvents s' userId None None))
      as [|x [|y l]] eqn:Hf; try discriminate.
    assert (In x (x :: [])) as Hx by now left.
    rewrite <- Hf in Hx. apply filter_In in Hx. destruct Hx as [Hin Hid].
    apply String.eqb_eq in Hid.
    eapply Permutation_in in Hin; [|exact Hperm].
    destruct Hin as [<-|Hin]; [reflexivity|].
    exfalso. exact (Hold x Hin Hid).
Qed.

(** Alice posts an event and lists her events. *)
Lemma postEvent_then_listed_witness :
  let (r, s') :=
    Api.postEvent Scenario.registered 3000
      (Scenario.bearer Scenario.alice_token) (Some Sample.standup) "e1"
      3000 3000 in
  Api.status r = 201
  /\ exists e,
       fst (Api.listEvents s' 5000 (Scenario.bearer Scenario.alice_token)
              None None)
       = Api.json (Api.EventList [e])
       /\ Event.category e = "work" /\ Event.isRecurring e = Some false.
Proof.
  pose proof (postEvent_then_listed Scenario.registered 3000 5000
                (Scenario.bearer Scenario.alice_token) "u-alice" "e1"
                Sample.standup 3000 3000 eq_refl eq_refl eq_refl
                (Forall_nil _)) as H.
  destruct (Api.postEvent Scenario.registered 3000
              (Scenario.bearer Scenario.alice_token) (Some Sample.standup)
              "e1" 3000 3000) as [r s'] eqn:Hrun.
  destruct H as (e & shown & -> & _ & _ & _ & _ & Hlist & _ & _).
  split; [reflexivity|].
  injection Hrun as He <-. eexists. split; [reflexivity|].
  split; reflexivity.
Defined.

(** ** The recovery key *)

Section RecoveryKeyFacts.
Import RecoveryKey.

Lemma split_part part rest :
  has_char "-" part = false ->
  split "-" (part ++ String "-" rest)%string = part :: split "-" rest.
Proof.
  induction part as [|a part IH]; simpl; auto.
  destruct (Ascii.eqb a "-"); [discriminate|]. simpl.
  intros H. now rewrite IH.
Qed.

Lemma split_last part :
  has_char "-" part = false -> split "-" part = [part].
Proof.
  induction part as [|a part IH]; simpl; auto.
  destruct (Ascii.eqb a "-"); [discriminate|]. simpl.
  intros H. now rewrite IH.
Qed.

Lemma join_cons separator part next parts :
  join separator (part :: next :: parts)
  = (part ++ separator ++ join separator (next :: parts))%string.
Proof. reflexivity. Qed.

Lemma split_join parts :
  parts <> [] ->
  Forall (fun part => has_char "-" part = false) parts ->
  split "-" (join "-" parts) = parts.
Proof.
  induction parts as [|part parts IH]; [congruence|].
  intros _ Hparts. inversion Hparts as [|? ? Hpart Hrest]; subst.
  destruct parts as [|next parts].
  - now apply split_last.
  - rewrite join_cons.
    change ("-" ++ join "-" (next :: parts))%string
      with (String "-" (join "-" (next :: parts))).
    rewrite split_part by exact Hpart.
    f_equal. apply IH; [discriminate|exact Hrest].
Qed.

Lemma word_plain i :
  (i < 24)%nat ->
  has_char "-" (word i) = false
  /\ (4 <= String.length (word i) <= 8)%nat.
Proof.
  intros Hi. do 24 (destruct i as [|i]; [simpl; split; [reflexivity|lia]|]).
  lia.
Qed.

Lemma word_injective i j :
  (i < 24)%nat -> (j < 24)%nat -> word i = word j -> i = j.
Proof.
  intros Hi Hj. unfold word.
  apply (proj1 (NoDup_nth words EmptyString)); auto.
  repeat (constructor; [simpl; intuition discriminate|]). constructor.
Qed.

Lemma words_injective draws : forall draws',
  Forall (fun i => (i < 24)%nat) draws ->
  Forall (fun i => (i < 24)%nat) draws' ->
  map word draws = map word draws' -> draws = draws'.
Proof.
  induction draws as [|i draws IH]; intros [|j draws'] H H' Heq;
    try discriminate; auto.
  inversion H; inversion H'; subst. injection Heq as Hw Hrest.
  f_equal; [now apply word_injective|now apply IH].
Qed.

Lemma append_length (a b : string) :
  String.length (a ++ b)%string = (String.length a + String.length b)%nat.
Proof. induction a; simpl; auto. Qed.

Lemma join_length parts :
  parts <> [] ->
  String.length (join "-" parts)
  = (list_sum (map String.length parts) + (List.length parts - 1))%nat.
Proof.
  induction parts as [|part parts IH]; [congruence|]. intros _.
  destruct parts as [|next parts].
  - simpl. lia.
  - rewrite join_cons, !append_length, IH by discriminate.
    simpl. lia.
Qed.

(** X22. A recovery key is eight words of the list joined by seven hyphens:
    cut at the hyphens it gives back the eight words drawn, so two keys are
    equal only when the same words were drawn in the same order, and it has
    between 39 and 71 characters. *)
Theorem recovery_key_shape (draws : list nat) :
  well_drawn draws ->
  split "-" (generate draws) = map word draws
  /\ (forall draws', well_drawn draws' ->
                     generate draws = generate draws' -> draws = draws')
  /\ (39 <= String.length (generate draws) <= 71)%nat.
Proof.
  assert (forall d, well_drawn d ->
                    split "-" (generate d) = map word d) as Hsplit.
  { intros d [Hlen Hd]. unfold generate. apply split_join.
    - destruct d; [discriminate|discriminate].
    - rewrite Forall_map. eapply Forall_impl; [|exact Hd].
      intros i Hi. now apply word_plain. }
  intros Hdraws. split; [now apply Hsplit|]. split.
  - intros draws' Hdraws' Heq.
    apply words_injective; [apply Hdraws|apply Hdraws'|].
    rewrite <- (Hsplit _ Hdraws), <- (Hsplit _ Hdraws'). now rewrite Heq.
  - destruct Hdraws as [Hlen Hd]. unfold generate.
    rewrite join_length by (destruct draws; discriminate).
    rewrite length_map, Hlen.
    assert (forall d, Forall (fun i => (i < 24)%nat) d ->
              (4 * List.length d
               <= list_sum (map String.length (map word d))
               <= 8 * List.length d)%nat) as Hsum.
    { induction d as [|i d IH]; intros Hall; simpl; [lia|].
      inversion Hall; subst. specialize (IH H2).
      destruct (word_plain i H1) as [_ Hw]. fold (word i). lia. }
    specialize (Hsum _ Hd). rewrite Hlen in Hsum. lia.
Qed.

End RecoveryKeyFacts.

(** The first word eight times, and the longest. *)
Lemma recovery_key_shape_witness :
  RecoveryKey.generate [0; 23; 13; 4; 4; 4; 4; 4]%nat
  = "alpha-xray-november-echo-echo-echo-echo-echo"
  /\ RecoveryKey.split "-"
       (RecoveryKey.generate [0; 23; 13; 4; 4; 4; 4; 4]%nat)
     = ["alpha"; "xray"; "november"; "echo"; "echo"; "echo"; "echo"; "echo"].
Proof.
  split; [reflexivity|].
  assert (RecoveryKey.well_drawn [0; 23; 13; 4; 4; 4; 4; 4]%nat) as Hd.
  { split; [reflexivity|]. repeat constructor; lia. }
  destruct (recovery_key_shape _ Hd) as (Hsplit & _ & _).
  rewrite Hsplit. reflexivity.
Defined.

(** ** Registering a name twice *)

(** X23. After a registration that answered 200, a second registration
    under the same username, with whatever password and recovery key the
    schema accepts, is answered with 400 "Username already exists" and
    changes nothing. *)
Theorem register_twice (s : MemStorage.t) (body body' : JsonBody.t)
  (env env' : Api.RegisterEnv.t) (data' : RegisterRequest.t) :
  registerSchema body' = Some data' ->
  JsonBody.username body' = JsonBody.username body ->
  let (r, s1) := Api.register s body env in
  Api.status r = 200 ->
  Api.register s1 body' env'
  = (Api.respond 400 (Api.Message "Username already exists"), s1).
Proof.
  intros Hparse' Hsame.
  destruct (Api.register s body env) as [r s1] eqn:Hrun. intros Hok.
  destruct (register_ok _ _ _ _ _ Hrun Hok)
    as (data & Hparse & Hfree & _ & Hs1).
  cbv zeta in Hs1.
  assert (RegisterRequest.username data' = RegisterRequest.username data)
    as Hname.
  { unfold registerSchema in Hparse, Hparse'. rewrite Hsame in Hparse'.
    destruct (JsonBody.username body) as [u|]; [|discriminate].
    destruct (JsonBody.password body); [|discriminate].
    destruct (JsonBody.recoveryKey body); [|discriminate].
    destruct (JsonBody.password body'); [|discriminate].
    destruct (JsonBody.recoveryKey body'); [|discriminate].
    destruct (_ && _); [|discriminate].
    destruct (_ && _); [|discriminate].
    injection Hparse as <-. injection Hparse' as <-. reflexivity. }
  pose proof (getUserByUsername_created s (Api.RegisterEnv.userId env)
                (Api.RegisterEnv.userCreatedAt env)
                (InsertUser.mk (RegisterRequest.username data)
                   (Api.RegisterEnv.hashedPassword env)
                   (RegisterRequest.recoveryKey data)
                   (JsString.toString_hex
                      (Api.RegisterEnv.encryptionKeyBytes env)))
                Hfree) as Hfound.
  assert (exists user,
             MemStorage.getUserByUsername s1 (RegisterRequest.username data)
             = Some user) as [user Huser].
  { eexists. rewrite Hs1. exact Hfound. }
  unfold Api.register. now rewrite Hparse', Hname, Huser.
Qed.

(** Somebody else wants to be "alice". *)
Lemma register_twice_witness :
  let s1 :=
    snd (Api.register MemStorage.empty Scenario.alice_body
           Scenario.alice_env) in
  Api.register s1
    (JsonBody.mk (Some "alice") (Some "another-password") (Some "kilo-lima"))
    Scenario.bob_env
  = (Api.respond 400 (Api.Message "Username already exists"), s1).
Proof.
  cbv zeta.
  pose proof (register_twice MemStorage.empty Scenario.alice_body
                (JsonBody.mk (Some "alice") (Some "another-password")
                   (Some "kilo-lima"))
                Scenario.alice_env Scenario.bob_env
                (RegisterRequest.mk "alice" "another-password" "kilo-lima")
                eq_refl eq_refl) as H.
  destruct (Api.register MemStorage.empty Scenario.alice_body
              Scenario.alice_env) as [r s1] eqn:Hrun.
  cbn [snd]. apply H. injection Hrun as <- _. reflexivity.
Defined.
